(** * Travel itinerary page: tab controller, item state store, diary

    A shallow embedding of the page script of the itinerary, in its tabbed
    version ([buildTabs], [handleTabKeyNav], [getIdFromTab], [openTab],
    [createPanel], [initScheduleItemsForDay], [updateDayProgress],
    [restoreLastDay], [updateDiary]; the line numbers below are those of
    that script), and the properties of its item state store, its diary
    aggregation and its tab activation.  The older script of the page
    without tabs has the same two click handlers on its list items, less
    the progress update, and the same loop in [updateDiary].

    The script is a classic (non-strict) browser script.  What it touches
    of the browser is modelled as plain data:
    - [localStorage] is a finite map from strings to strings; the order in
      which [localStorage.key(i)] enumerates the keys is left to the user
      agent by the Web Storage standard, and is the enumeration order of
      the map here;
    - [JSON.parse] and [JSON.stringify] are an interface of the browser,
      with one law: parsing what was serialised gives the value back;
    - [String.prototype.trim] is an interface, nothing is assumed of it;
    - the DOM is reduced to the attributes the script reads or writes: the
      tab buttons, the panels with their list items, the diary section, the
      [dia] query parameter of the URL and the focused tab.

    The document is taken to have the containers [#tab-list] and
    [#tab-panels], the list [#diary-list] inside the section [#diary], and
    activities without list items of their own, so that the selector
    [.schedule li] of a panel finds one item per activity.  Day ids are
    the non-negative integers that [parseInt] reads off the day cards. *)

From Stdlib Require Import Ascii DecimalString DecimalN QArith.
From stdpp Require Import gmap strings list fin_maps countable sorting.

Set Warnings "-register-all".

Local Open Scope list_scope.

(** ** Strings: decimal numerals, prefixes, the item key pattern *)

(** [\d] of a JavaScript regular expression: an ASCII digit. *)
Definition is_digit (c : ascii) : bool :=
  match uint_of_char c (Some Decimal.Nil) with
  | Some _ => true
  | None => false
  end.

Fixpoint all_digits (s : string) : bool :=
  match s with
  | "" => true
  | String c r => is_digit c && all_digits r
  end.

(** [Number.prototype.toString] on a non-negative integer (day ids and list
    indexes are far below the range where JavaScript switches to exponent
    notation). *)
Definition toString (n : N) : string :=
  NilEmpty.string_of_uint (N.to_uint n).

(** [parseInt(s, 10)] on a string of digits, as the regular expression
    hands it over. *)
Definition parseInt (s : string) : N :=
  from_option N.of_uint 0%N (NilEmpty.uint_of_string s).

(** [s.startsWith(p)], returning what follows the prefix. *)
Fixpoint strip_prefix (p s : string) : option string :=
  match p with
  | "" => Some s
  | String a p' =>
      match s with
      | "" => None
      | String b s' => if decide (a = b) then strip_prefix p' s' else None
      end
  end.

Definition startsWith (s p : string) : bool :=
  bool_decide (is_Some (strip_prefix p s)).

(** The longest prefix of digits, and the rest: how a greedy [\d+] that is
    followed by a non-digit consumes its input. *)
Fixpoint span_digits (s : string) : string * string :=
  match s with
  | "" => ("", "")
  | String c r =>
      if is_digit c
      then let '(d, t) := span_digits r in (String c d, t)
      else ("", s)
  end.

(** [key.match(/^day-(\d+)-item-(\d+)$/)]: the two captured groups. *)
Definition match_item_key (key : string) : option (string * string) :=
  r1 ← strip_prefix "day-" key;
  let '(d, r2) := span_digits r1 in
  if decide (d = "") then None else
  r3 ← strip_prefix "-item-" r2;
  let '(i, r4) := span_digits r3 in
  if decide (i = "") then None else
  if decide (r4 = "") then Some (d, i) else None.

(** The template [`day-${dayId}-item-${index}`]. *)
Definition item_key (dayId : N) (index : nat) : string :=
  "day-" +:+ toString dayId +:+ "-item-" +:+ toString (N.of_nat index).

(** ** JSON values and the objects of the script *)

(** JavaScript numbers, of which the script only ever asks whether they are
    truthy (neither zero nor NaN). *)
Class Numbers := {
  number : Type;
  number_truthy : number → bool;
}.

Inductive json `{Numbers} : Type :=
  | JNull
  | JBool (b : bool)
  | JNum (n : number)
  | JStr (s : string)
  | JArr (elems : list json)
  | JObj (props : gmap string json).

(** [JSON.parse], which throws a [SyntaxError] on text that is not JSON
    ([None]), and [JSON.stringify]. *)
Class JSON `{Numbers} := {
  JSON_parse : string → option json;
  JSON_stringify : json → string;
}.

(** Parsing what was serialised gives the value back. *)
Class JSONLaws `{JSON} : Prop := {
  JSON_parse_stringify : ∀ j, JSON_parse (JSON_stringify j) = Some j;
}.

(** [String.prototype.trim]. *)
Class Trim := {
  trim : string → string;
}.

Section Page.

Context `{JSON} `{Trim}.

(** ToBoolean. *)
Definition truthy (j : json) : bool :=
  match j with
  | JNull => false
  | JBool b => b
  | JNum n => number_truthy n
  | JStr s => bool_decide (s ≠ "")
  | JArr _ | JObj _ => true
  end.

(** ToBoolean of the result of a property read, [None] being [undefined]. *)
Definition truthy_opt (v : option json) : bool :=
  from_option truthy false v.

(** The value held by the variable [saved] of a list item.  It comes out
    of [JSON.parse(...) || {}], so it is a (truthy) primitive, a plain
    object, or an array; an array can be given named properties on top of
    its elements, which [JSON.stringify] does not serialise. *)
Inductive jsvalue : Type :=
  | Prim (j : json)
  | Obj (props : gmap string json)
  | Arr (elems : list json) (named : gmap string json).

Definition of_json (j : json) : jsvalue :=
  match j with
  | JObj m => Obj m
  | JArr l => Arr l ∅
  | _ => Prim j
  end.

(** What [JSON.stringify] sees of a value. *)
Definition to_json (v : jsvalue) : json :=
  match v with
  | Prim j => j
  | Obj m => JObj m
  | Arr l _ => JArr l
  end.

(** [v.name] for the two names the script reads, [completed] and [note];
    neither is an array index nor defined on a prototype. *)
Definition get_prop (v : jsvalue) (name : string) : option json :=
  match v with
  | Prim _ => None
  | Obj m => m !! name
  | Arr _ m => m !! name
  end.

(** [v.name = x]: in a non-strict script the assignment to a property of a
    primitive is silently dropped. *)
Definition set_prop (v : jsvalue) (name : string) (x : json) : jsvalue :=
  match v with
  | Prim j => Prim j
  | Obj m => Obj (<[name := x]> m)
  | Arr l m => Arr l (<[name := x]> m)
  end.

(** [delete v.name]. *)
Definition delete_prop (v : jsvalue) (name : string) : jsvalue :=
  match v with
  | Prim j => Prim j
  | Obj m => Obj (delete name m)
  | Arr l m => Arr l (delete name m)
  end.

(** [data && data.name] and [data.name] on a freshly parsed value. *)
Definition json_prop (j : json) (name : string) : option json :=
  get_prop (of_json j) name.

(** [try { body } catch (e) { handler }], for a body whose only failure is
    the exception of [JSON.parse] and a handler that cannot fail. *)
Definition try_catch {A} (body : option A) (handler : A) : A :=
  match body with
  | Some a => a
  | None => handler
  end.

(** [JSON.parse(localStorage.getItem(key))]: [getItem] answers [null] for a
    missing key, which [JSON.parse] converts to the text [null] and parses
    to the value [null]. *)
Definition parse_item (item : option string) : option json :=
  match item with
  | None => Some JNull
  | Some s => JSON_parse s
  end.

(** [x || {}]. *)
Definition or_empty (j : json) : jsvalue :=
  if truthy j then of_json j else Obj ∅.

(** The state of an item as the script recovers it (lines 455-460):
<<
    let saved;
    try { saved = JSON.parse(localStorage.getItem(itemKey)) || {}; }
    catch (e) { saved = {}; }
>> *)
Definition load_saved (localStorage : gmap string string) (itemKey : string)
  : jsvalue :=
  try_catch (or_empty <$> parse_item (localStorage !! itemKey)) (Obj ∅).

(** The two fields of an item state. *)
Definition completed_of (v : jsvalue) : bool :=
  truthy_opt (get_prop v "completed").
Definition note_of (v : jsvalue) : option json := get_prop v "note".

(** ** The page: itinerary, tabs, panels, diary section *)

(** An activity of a day, as [parseItinerary] extracts it. *)
Record item := {
  item_time : string;
  item_html : string;
  item_transport : option string;
}.

Record day := {
  day_id : N;
  day_title : string;
  day_subtitle : string;
  day_highlight : option string;
  schedule : list item;
}.

(** The text of a tab button. *)
Inductive label : Type :=
  | DiaryLabel
  | BaseLabel (dayId : N)
  | DoneLabel (dayId : N)
  | CountLabel (dayId : N) (completed total : nat).

Definition label_text (l : label) : string :=
  match l with
  | DiaryLabel => "Diário"
  | BaseLabel d => "Dia " +:+ toString d
  | DoneLabel d => "Dia " +:+ toString d +:+ " ✓"
  | CountLabel d c t =>
      "Dia " +:+ toString d +:+ " (" +:+ toString (N.of_nat c) +:+ "/"
        +:+ toString (N.of_nat t) +:+ ")"
  end.

(** A button of the tab list: its [id], [aria-selected] and [tabindex]
    attributes, the class [active], its text. *)
Record tab := {
  tab_id : string;
  aria_selected : bool;
  tabindex : Z;
  tab_active : bool;
  textContent : label;
}.

(** The [div.note-display] of a list item: hidden and empty, or showing
    the interpolation of [saved.note]. *)
Inductive note_display : Type :=
  | NoteHidden
  | NoteShown (note : option json).

(** A list item of a day panel with the variable [saved] that its two
    click handlers close over; [li_completed] is the class [completed]. *)
Record li := {
  li_completed : bool;
  saved : jsvalue;
  noteDisplay : note_display;
}.

Inductive panel_body : Type :=
  | DayBody (dayId : N) (items : list li)
  | DiaryBody (no_notes_msg : bool).

(** A panel: the attribute [hidden], the class [active], the content. *)
Record panel := {
  panel_hidden : bool;
  panel_active : bool;
  body : panel_body;
}.

Record diary_entry := {
  entry_day : N;
  entry_note : option json;
}.

(** The element [#diary] with its list [#diary-list]: the classes [card]
    and [hidden], the rendered entries. *)
Record diary_section := {
  section_card : bool;
  section_hidden : bool;
  diary_list : list diary_entry;
}.

Record state := {
  itineraryData : list day;
  diarySection : option diary_section;
  (** whether [#diary] is in the document, where [getElementById] finds it *)
  diary_attached : bool;
  tabs : list tab;
  tabPanels : gmap string panel;
  localStorage : gmap string string;
  (** the query parameter [dia] of the URL *)
  dia : option string;
  (** the index of the tab that has the focus *)
  focused : option nat;
}.

Definition set_itineraryData (x : list day) (st : state) : state :=
  {| itineraryData := x; diarySection := diarySection st;
     diary_attached := diary_attached st; tabs := tabs st;
     tabPanels := tabPanels st; localStorage := localStorage st;
     dia := dia st; focused := focused st |}.

Definition set_diarySection (x : option diary_section) (st : state) : state :=
  {| itineraryData := itineraryData st; diarySection := x;
     diary_attached := diary_attached st; tabs := tabs st;
     tabPanels := tabPanels st; localStorage := localStorage st;
     dia := dia st; focused := focused st |}.

Definition set_diary_attached (x : bool) (st : state) : state :=
  {| itineraryData := itineraryData st; diarySection := diarySection st;
     diary_attached := x; tabs := tabs st;
     tabPanels := tabPanels st; localStorage := localStorage st;
     dia := dia st; focused := focused st |}.

Definition set_tabs (x : list tab) (st : state) : state :=
  {| itineraryData := itineraryData st; diarySection := diarySection st;
     diary_attached := diary_attached st; tabs := x;
     tabPanels := tabPanels st; localStorage := localStorage st;
     dia := dia st; focused := focused st |}.

Definition set_tabPanels (x : gmap string panel) (st : state) : state :=
  {| itineraryData := itineraryData st; diarySection := diarySection st;
     diary_attached := diary_attached st; tabs := tabs st;
     tabPanels := x; localStorage := localStorage st;
     dia := dia st; focused := focused st |}.

Definition set_localStorage (x : gmap string string) (st : state) : state :=
  {| itineraryData := itineraryData st; diarySection := diarySection st;
     diary_attached := diary_attached st; tabs := tabs st;
     tabPanels := tabPanels st; localStorage := x;
     dia := dia st; focused := focused st |}.

Definition set_dia (x : option string) (st : state) : state :=
  {| itineraryData := itineraryData st; diarySection := diarySection st;
     diary_attached := diary_attached st; tabs := tabs st;
     tabPanels := tabPanels st; localStorage := localStorage st;
     dia := x; focused := focused st |}.

Definition set_focused (x : option nat) (st : state) : state :=
  {| itineraryData := itineraryData st; diarySection := diarySection st;
     diary_attached := diary_attached st; tabs := tabs st;
     tabPanels := tabPanels st; localStorage := localStorage st;
     dia := dia st; focused := x |}.

(** ** Progress of a day (lines 511-538) *)

(** [itineraryData.find((d) => d.id.toString() === id.toString())]. *)
Definition find_day (itinerary : list day) (id : string) : option day :=
  find (λ d, bool_decide (toString (day_id d) = id)) itinerary.

(** The body of the counting loop:
<<
    try {
      const data = JSON.parse(localStorage.getItem(key));
      if (data && data.completed) completed += 1;
    } catch (e) { }
>> *)
Definition count_item (ls : gmap string string) (dayId : N)
    (completed : nat) (i : nat) : nat :=
  try_catch
    (data ← parse_item (ls !! item_key dayId i);
     Some (if truthy data && truthy_opt (json_prop data "completed")
           then completed + 1 else completed))
    completed.

(** [for (let i = 0; i < total; i++) ...], from [completed = 0]. *)
Definition count_completed (ls : gmap string string) (dayId : N)
    (total : nat) : nat :=
  foldl (count_item ls dayId) 0 (seq 0 total).

Definition progress_label (dayId : N) (completed total : nat) : label :=
  if bool_decide (0 < total) then
    if bool_decide (completed = total) then DoneLabel dayId
    else CountLabel dayId completed total
  else BaseLabel dayId.

Definition set_textContent (l : label) (t : tab) : tab :=
  {| tab_id := tab_id t; aria_selected := aria_selected t;
     tabindex := tabindex t; tab_active := tab_active t; textContent := l |}.

(** [document.getElementById(id)] among the tabs, followed by an update of
    the element found: the first tab with that id. *)
Fixpoint update_tab_by_id (id : string) (f : tab → tab) (ts : list tab)
  : list tab :=
  match ts with
  | [] => []
  | t :: ts' =>
      if decide (tab_id t = id) then f t :: ts'
      else t :: update_tab_by_id id f ts'
  end.

Definition updateDayProgress (dayId : N) (st : state) : state :=
  match find_day (itineraryData st) (toString dayId) with
  | None => st
  | Some day =>
      let total := length (schedule day) in
      let completed := count_completed (localStorage st) dayId total in
      set_tabs
        (update_tab_by_id ("tab-" +:+ toString dayId)
           (set_textContent (progress_label dayId completed total))
           (tabs st))
        st
  end.

(** ** Diary aggregation (lines 575-633) *)

(** One turn of the loop over the keys of [localStorage]. *)
Definition collect_entry (entries : list diary_entry)
    (kv : string * string) : list diary_entry :=
  let '(key, value) := kv in
  if negb (startsWith key "day-") then entries else
  try_catch
    (data ← JSON_parse value;
     Some (if truthy data && truthy_opt (json_prop data "note") then
             match match_item_key key with
             | Some (d, _) =>
                 (entries ++ [{| entry_day := parseInt d;
                                 entry_note := json_prop data "note" |}])%list
             | None => entries
             end
           else entries))
    entries.

(** [entries.sort((a, b) => a.day - b.day)], a stable sort. *)
Definition entry_le (a b : diary_entry) : Prop :=
  (entry_day a ≤ entry_day b)%N.

#[global] Instance entry_le_dec : RelDecision entry_le.
Proof. intros a b. unfold entry_le. apply _. Defined.

Definition collect_entries (ls : gmap string string) : list diary_entry :=
  merge_sort entry_le (foldl collect_entry [] (map_to_list ls)).

Definition set_no_notes_msg (msg : bool) (p : panel) : panel :=
  match body p with
  | DiaryBody _ =>
      {| panel_hidden := panel_hidden p; panel_active := panel_active p;
         body := DiaryBody msg |}
  | DayBody _ _ => p
  end.

(** The function returns at once when [#diary] is not in the document:
    [getElementById] does not find an element that was removed. *)
Definition updateDiary (st : state) : state :=
  match diarySection st with
  | Some section =>
      if diary_attached st then
        let entries := collect_entries (localStorage st) in
        let empty := bool_decide (length entries = 0) in
        set_tabPanels
          (alter (set_no_notes_msg empty) "diary" (tabPanels st))
          (set_diarySection
             (Some {| section_card := section_card section;
                      section_hidden := empty;
                      diary_list := entries |})
             st)
      else st
  | None => st
  end.

(** ** List items and their handlers (lines 431-499) *)

Definition init_item (ls : gmap string string) (dayId : N) (index : nat)
  : li :=
  let saved := load_saved ls (item_key dayId index) in
  {| li_completed := truthy_opt (get_prop saved "completed");
     saved := saved;
     noteDisplay := if truthy_opt (get_prop saved "note")
                    then NoteShown (get_prop saved "note")
                    else NoteHidden |}.

(** The list items of the new panel, one per activity of the day, and the
    page after the final [updateDayProgress(dayId)]. *)
Definition initScheduleItemsForDay (sched : list item) (dayId : N)
    (st : state) : list li * state :=
  (imap (λ index _, init_item (localStorage st) dayId index) sched,
   updateDayProgress dayId st).

Definition set_body (b : panel_body) (p : panel) : panel :=
  {| panel_hidden := panel_hidden p; panel_active := panel_active p;
     body := b |}.

(** The item [index] of the panel stored under [pid], with its day. *)
Definition lookup_item (pid : string) (index : nat) (st : state)
  : option (panel * N * list li * li) :=
  p ← tabPanels st !! pid;
  match body p with
  | DayBody dayId items => x ← items !! index; Some (p, dayId, items, x)
  | DiaryBody _ => None
  end.

Definition store_item (pid : string) (index : nat) (p : panel) (dayId : N)
    (items : list li) (x : li) (st : state) : state :=
  set_localStorage
    (<[item_key dayId index := JSON_stringify (to_json (saved x))]>
       (localStorage st))
    (set_tabPanels
       (<[pid := set_body (DayBody dayId (<[index := x]> items)) p]>
          (tabPanels st))
       st).

(** The click handler of the button [.done-btn] of an item:
<<
    li.classList.toggle('completed');
    saved.completed = li.classList.contains('completed');
    localStorage.setItem(itemKey, JSON.stringify(saved));
    updateDayProgress(dayId);
>> *)
Definition doneBtn_click (pid : string) (index : nat) (st : state) : state :=
  match lookup_item pid index st with
  | Some (p, dayId, items, x) =>
      let completed := negb (li_completed x) in
      let x' := {| li_completed := completed;
                   saved := set_prop (saved x) "completed" (JBool completed);
                   noteDisplay := noteDisplay x |} in
      updateDayProgress dayId (store_item pid index p dayId items x' st)
  | None => st
  end.

(** The click handler of the button [.note-btn]; [answer] is what [prompt]
    returns, [None] when the dialog is cancelled. *)
Definition noteBtn_click (pid : string) (index : nat)
    (answer : option string) (st : state) : state :=
  match lookup_item pid index st with
  | Some (p, dayId, items, x) =>
      match answer with
      | Some note =>
          let trimmed := trim note in
          let x' :=
            if decide (trimmed = "") then
              {| li_completed := li_completed x;
                 saved := delete_prop (saved x) "note";
                 noteDisplay := NoteHidden |}
            else
              let saved' := set_prop (saved x) "note" (JStr trimmed) in
              {| li_completed := li_completed x;
                 saved := saved';
                 noteDisplay := NoteShown (get_prop saved' "note") |} in
          updateDiary (store_item pid index p dayId items x' st)
      | None => st
      end
  | None => st
  end.

(** ** Panels and activation (lines 226-419) *)

(** [tab.id.replace(/^tab-/, '')], and [''] for a tab without an id. *)
Definition getIdFromTab (t : tab) : string :=
  if decide (tab_id t = "") then ""
  else default (tab_id t) (strip_prefix "tab-" (tab_id t)).

Definition new_panel (b : panel_body) : panel :=
  {| panel_hidden := false; panel_active := false; body := b |}.

Definition drop_card (s : diary_section) : diary_section :=
  {| section_card := false; section_hidden := section_hidden s;
     diary_list := diary_list s |}.

(** The panel of the diary takes the section [#diary] in, which puts it
    back into the document; a message stands in for a hidden or missing
    section.  The panel of a day is built from the first day with that id;
    for an id that is no day nothing is built. *)
Definition createPanel (id : string) (st : state) : state :=
  if decide (id = "diary") then
    let st' :=
      match diarySection st with
      | Some section =>
          set_diary_attached true
            (set_diarySection (Some (drop_card section)) st)
      | None => st
      end in
    let msg := from_option section_hidden true (diarySection st) in
    set_tabPanels (<[id := new_panel (DiaryBody msg)]> (tabPanels st')) st'
  else
    match find_day (itineraryData st) id with
    | None => st
    | Some day =>
        let '(items, st') :=
          initScheduleItemsForDay (schedule day) (day_id day) st in
        set_tabPanels
          (<[id := new_panel (DayBody (day_id day) items)]> (tabPanels st'))
          st'
    end.

Definition select_tab (id : string) (t : tab) : tab :=
  let selected := bool_decide (getIdFromTab t = id) in
  {| tab_id := tab_id t;
     aria_selected := selected;
     tabindex := if selected then 0 else -1;
     tab_active := selected;
     textContent := textContent t |}.

Definition show_panel (id key : string) (p : panel) : panel :=
  if decide (key = id) then
    {| panel_hidden := false; panel_active := true; body := body p |}
  else
    {| panel_hidden := true; panel_active := false; body := body p |}.

(** The lookup [window.tabPanels[id]] also sees the names that every
    object inherits, such as [constructor]; for those the panel is not
    built, and [createPanel] would not have built one for them either. *)
Definition openTab (id : string) (st : state) : state :=
  let st1 := set_tabs (select_tab id <$> tabs st) st in
  let st2 :=
    match tabPanels st1 !! id with
    | None => createPanel id st1
    | Some _ => st1
    end in
  let st3 :=
    set_tabPanels (map_imap (λ key p, Some (show_panel id key p))
                     (tabPanels st2)) st2 in
  let st4 :=
    if decide (id ≠ "diary")
    then set_localStorage (<["lastDay" := id]> (localStorage st3)) st3
    else st3 in
  set_dia (if decide (id = "diary") then None else Some id) st4.

(** ** Keyboard navigation (lines 174-216) *)

(** [tabs.findIndex((tab) => tab.getAttribute('aria-selected') === 'true')],
    [-1] when no tab is selected. *)
Definition currentIndex (ts : list tab) : Z :=
  from_option (λ p : nat * tab, Z.of_nat p.1) (-1)%Z
    (list_find (λ t, aria_selected t = true) ts).

(** The index that a navigation key computes; [%] is the remainder of
    JavaScript, which takes the sign of the dividend. *)
Definition nav_index (key : string) (current len : Z) : option Z :=
  if bool_decide (key ∈ ["ArrowRight"; "Right"]) then
    Some ((current + 1) `rem` len)%Z
  else if bool_decide (key ∈ ["ArrowLeft"; "Left"]) then
    Some ((current - 1 + len) `rem` len)%Z
  else if bool_decide (key = "Home") then Some 0%Z
  else if bool_decide (key = "End") then Some (len - 1)%Z
  else None.

Definition clamp_index (newIndex len : Z) : Z :=
  let i := if bool_decide (newIndex < 0)%Z then 0%Z else newIndex in
  if bool_decide (len ≤ i)%Z then (len - 1)%Z else i.

(** [target] is the index of the tab the event was sent to, [None] when
    the target of the event is not a tab. *)
Definition handleTabKeyNav (key : string) (target : option nat)
    (st : state) : state :=
  let ts := tabs st in
  if bool_decide (length ts = 0) then st else
  if bool_decide (key ∈ ["Enter"; " "; "Spacebar"]) then
    match target ≫= (ts !!.) with
    | Some t => openTab (getIdFromTab t) st
    | None => st
    end
  else
    match nav_index key (currentIndex ts) (Z.of_nat (length ts)) with
    | None => st
    | Some newIndex =>
        let i := Z.to_nat (clamp_index newIndex (Z.of_nat (length ts))) in
        match ts !! i with
        | Some targetTab =>
            openTab (getIdFromTab targetTab) (set_focused (Some i) st)
        | None => st
        end
    end.

(** ** Start of the page (lines 36-59, 121-163, 549-566) *)

Definition new_tab (id : string) (l : label) : tab :=
  {| tab_id := "tab-" +:+ id; aria_selected := false; tabindex := (-1)%Z;
     tab_active := false; textContent := l |}.

Definition buildTabs (itinerary : list day)
    (section : option diary_section) (st : state) : state :=
  let st0 :=
    set_diarySection section
      (set_itineraryData itinerary
         (set_tabPanels ∅ (set_tabs [] st))) in
  let st1 :=
    foldl (λ s d,
             updateDayProgress (day_id d)
               (set_tabs (tabs s ++ [new_tab (toString (day_id d))
                                       (BaseLabel (day_id d))])%list s))
      st0 itinerary in
  match section with
  | Some _ => set_tabs (tabs st1 ++ [new_tab "diary" DiaryLabel])%list st1
  | None => st1
  end.

(** The id that [restoreLastDay] hands to [openTab]:
<<
    if (params.has('dia')) { id = params.get('dia'); }
    else { id = localStorage.getItem('lastDay'); }
    if (!id) { ... }
>> *)
Definition restored_id (itinerary : list day) (st : state) : string :=
  let id :=
    match dia st with
    | Some v => Some v
    | None => localStorage st !! "lastDay"
    end in
  match id with
  | Some v =>
      if bool_decide (v ≠ "") then v
      else match itinerary with
           | d :: _ => toString (day_id d)
           | [] => "diary"
           end
  | None =>
      match itinerary with
      | d :: _ => toString (day_id d)
      | [] => "diary"
      end
  end.

Definition restoreLastDay (itinerary : list day) (st : state) : state :=
  openTab (restored_id itinerary st) st.

(** The handler of [DOMContentLoaded] on a document whose cards parse to
    [itinerary], whose element [#diary] (if any) is [section], with the
    given content of [localStorage] and value of the URL parameter.  The
    section is removed from the document before anything else runs. *)
Definition loaded_page (section : option diary_section)
    (ls : gmap string string) (url_dia : option string) : state :=
  {| itineraryData := []; diarySection := section;
     diary_attached := false; tabs := []; tabPanels := ∅;
     localStorage := ls; dia := url_dia; focused := None |}.

Definition main (itinerary : list day) (section : option diary_section)
    (ls : gmap string string) (url_dia : option string) : state :=
  restoreLastDay itinerary
    (buildTabs itinerary section
       (updateDiary (loaded_page section ls url_dia))).

(** The click handler of the theme button, the one other writer of
    [localStorage]: it stores the name of the theme it switches to. *)
Definition themeToggle_click (theme : string) (st : state) : state :=
  set_localStorage (<["theme" := theme]> (localStorage st)) st.

(** What the user can do next. *)
Inductive event : Type :=
  | Activate (id : string)
  | ClickDone (pid : string) (index : nat)
  | ClickNote (pid : string) (index : nat) (answer : option string)
  | KeyDown (key : string) (target : option nat)
  | ClickTheme (theme : string).

(** [Activate] stands for every caller of [openTab] besides the keyboard:
    a click on a tab and the previous/next day buttons of a panel. *)
Definition step (e : event) (st : state) : state :=
  match e with
  | Activate id => openTab id st
  | ClickDone pid index => doneBtn_click pid index st
  | ClickNote pid index answer => noteBtn_click pid index answer st
  | KeyDown key target => handleTabKeyNav key target st
  | ClickTheme theme => themeToggle_click theme st
  end.

Inductive reachable (itinerary : list day) (section : option diary_section)
    (ls : gmap string string) (url_dia : option string) : state → Prop :=
  | reachable_main :
      reachable itinerary section ls url_dia
        (main itinerary section ls url_dia)
  | reachable_step e st :
      reachable itinerary section ls url_dia st →
      reachable itinerary section ls url_dia (step e st).

(** ** Intermediate states, named for the proofs *)

(** The item that the note handler writes back for an answer [note]. *)
Definition noted_item (x : li) (note : string) : li :=
  if decide (trim note = "") then
    {| li_completed := li_completed x;
       saved := delete_prop (saved x) "note";
       noteDisplay := NoteHidden |}
  else
    {| li_completed := li_completed x;
       saved := set_prop (saved x) "note" (JStr (trim note));
       noteDisplay :=
         NoteShown (get_prop (set_prop (saved x) "note" (JStr (trim note)))
                      "note") |}.

(** The item that the done handler writes back. *)
Definition toggled_item (x : li) : li :=
  {| li_completed := negb (li_completed x);
     saved := set_prop (saved x) "completed" (JBool (negb (li_completed x)));
     noteDisplay := noteDisplay x |}.

(** The page in the middle of [openTab], once the tabs are marked and the
    panel exists. *)
Definition panel_ensured (id : string) (st : state) : state :=
  let st1 := set_tabs (select_tab id <$> tabs st) st in
  match tabPanels st1 !! id with
  | None => createPanel id st1
  | Some _ => st1
  end.

(** ** What the spec counts, and the invariants of the page *)

(** A persisted item state entry with [completed = true]: the stored text
    parses and its [completed] is truthy, which for the boolean flag that
    the script writes means [true]. *)
Definition persisted_completed (ls : gmap string string) (dayId : N)
    (index : nat) : bool :=
  match ls !! item_key dayId index with
  | Some text =>
      match JSON_parse text with
      | Some j => truthy_opt (json_prop j "completed")
      | None => false
      end
  | None => false
  end.

(** The number of items of a day of [total] items whose persisted entry is
    completed. *)
Definition completed_entries (ls : gmap string string) (dayId : N)
    (total : nat) : nat :=
  length (filter (λ i, persisted_completed ls dayId i = true) (seq 0 total)).

(** The progress that a label displays, as a fraction; a check mark stands
    for all items, and the bare label displays no progress. *)
Definition displayed_progress (l : label) : option Q :=
  match l with
  | CountLabel _ c t => Some (inject_Z (Z.of_nat c) / inject_Z (Z.of_nat t))%Q
  | DoneLabel _ => Some 1%Q
  | BaseLabel _ | DiaryLabel => None
  end.

Definition label_ok (ls : gmap string string) (d : day) (t : tab) : Prop :=
  textContent t
  = progress_label (day_id d)
      (completed_entries ls (day_id d) (length (schedule d)))
      (length (schedule d)).

(** The progress of every day is on its tab: the label is the one
    rendered for the count of the spec, and says that count over the total
    when read as a fraction. *)
Definition progress_shown (itinerary : list day) (st : state) : Prop :=
  ∀ i d, itinerary !! i = Some d →
    ∃ t, tabs st !! i = Some t
      ∧ getIdFromTab t = toString (day_id d)
      ∧ textContent t
        = progress_label (day_id d)
            (completed_entries (localStorage st) (day_id d)
               (length (schedule d)))
            (length (schedule d))
      ∧ match displayed_progress (textContent t) with
        | Some q =>
            0 < length (schedule d)
            ∧ (q == inject_Z (Z.of_nat (completed_entries (localStorage st)
                                          (day_id d) (length (schedule d))))
                    / inject_Z (Z.of_nat (length (schedule d))))%Q
        | None => length (schedule d) = 0
        end.

(** The tab of a day; its label is left open for the day [skip], whose
    progress is about to be recomputed. *)
Definition day_tab (ls : gmap string string) (skip : option N)
    (d : day) (t : tab) : Prop :=
  tab_id t = "tab-" +:+ toString (day_id d)
  ∧ (Some (day_id d) ≠ skip → label_ok ls d t).

(** The tab list holds one tab per day, in order, then the tab of the
    diary when the page has a diary section. *)
Definition tabs_ok (skip : option N) (itinerary : list day) (st : state)
  : Prop :=
  itineraryData st = itinerary
  ∧ ∃ dts rest,
      tabs st = (dts ++ rest)%list
      ∧ Forall2 (day_tab (localStorage st) skip) itinerary dts
      ∧ Forall2 (λ _ t, tab_id t = "tab-diary")
          (option_list (diarySection st)) rest.

(** The variable [saved] of a list item is truthy, is a primitive only if
    it was parsed as one, and as an object has a [completed] property that
    the class [completed] of the item shows.  It agrees with the store:
    reading the item back yields what [saved] serialises to. *)
Definition saved_ok (x : li) : Prop :=
  truthy (to_json (saved x)) = true
  ∧ (∀ j, saved x = Prim j → of_json j = Prim j)
  ∧ ∀ m, saved x = Obj m → li_completed x = truthy_opt (m !! "completed").

Definition item_ok (ls : gmap string string) (dayId : N) (index : nat)
    (x : li) : Prop :=
  load_saved ls (item_key dayId index) = of_json (to_json (saved x))
  ∧ saved_ok x.

Definition panel_ok (ls : gmap string string) (pid : string) (p : panel)
  : Prop :=
  match body p with
  | DayBody dayId items =>
      pid = toString dayId
      ∧ ∀ index x, items !! index = Some x → item_ok ls dayId index x
  | DiaryBody _ => True
  end.

Definition panels_ok (st : state) : Prop :=
  map_Forall (panel_ok (localStorage st)) (tabPanels st).

(** ** What the spec says of the diary *)

(** The day that a key of the naming scheme belongs to. *)
Definition key_day (key : string) : option N :=
  (λ groups : string * string, parseInt groups.1) <$> match_item_key key.

(** The non-empty note stored under a key. *)
Definition stored_note (ls : gmap string string) (key : string)
  : option json :=
  text ← ls !! key;
  j ← JSON_parse text;
  note ← json_prop j "note";
  if truthy note then Some note else None.

Definition in_diary (ls : gmap string string) (key : string) : Prop :=
  is_Some (key_day key) ∧ is_Some (stored_note ls key).

Definition entry_of_key (ls : gmap string string) (key : string)
  : diary_entry :=
  {| entry_day := default 0%N (key_day key);
     entry_note := stored_note ls key |}.

#[global] Instance in_diary_dec ls key : Decision (in_diary ls key).
Proof. unfold in_diary. apply _. Defined.


(** ** What the spec says of the first activation *)

(** The id as the claim resolves it: the URL parameter if present, else
    the persisted last day if present, else the first day, else the
    diary. *)
Definition resolved_id_as_stated (itinerary : list day) (st : state)
  : string :=
  match dia st with
  | Some v => v
  | None =>
      match localStorage st !! "lastDay" with
      | Some v => v
      | None =>
          match itinerary with
          | d :: _ => toString (day_id d)
          | [] => "diary"
          end
      end
  end.

(** The claim on the first activation as it is stated. *)
Definition initial_activation_as_stated (itinerary : list day)
    (section : option diary_section) (ls : gmap string string)
    (url_dia : option string) : Prop :=
  let built :=
    buildTabs itinerary section
      (updateDiary (loaded_page section ls url_dia)) in
  main itinerary section ls url_dia
  = openTab (resolved_id_as_stated itinerary built) built.

(** ** What the spec says of an activation *)

(** The ids of the tabs: those of the days, then the diary when the page
    has a diary section. *)
Definition tab_ids (itinerary : list day) (section : option diary_section)
  : list string :=
  ((λ d, toString (day_id d)) <$> itinerary)
  ++ ((λ _, "diary") <$> option_list section).

(** The tab at index [j], and no other, is marked selected. *)
Definition selects (j : nat) (st : state) : Prop :=
  ∀ k t, tabs st !! k = Some t → aria_selected t = bool_decide (k = j).

Definition selected_count (st : state) : nat :=
  length (filter (λ t, aria_selected t = true) (tabs st)).

Definition only_panel_shown (id : string) (st : state) : Prop :=
  (∃ p, tabPanels st !! id = Some p
        ∧ panel_hidden p = false ∧ panel_active p = true)
  ∧ ∀ key p, key ≠ id → tabPanels st !! key = Some p →
             panel_hidden p = true ∧ panel_active p = false.

(** The claim on an activation as it is stated, for any id. *)
Definition activation_as_stated (id : string) (st : state) : Prop :=
  selected_count (openTab id st) = 1 ∧ only_panel_shown id (openTab id st).

(** Once the panel of the diary is built on a page with a diary section,
    the section is in the document. *)
Definition diary_ok (st : state) : Prop :=
  is_Some (diarySection st) → is_Some (tabPanels st !! "diary") →
  diary_attached st = true.

End Page.

(** ** A concrete browser

    An instance of the interfaces on which the page can be run: integers
    for numbers, a serialisation of JSON values as strings of binary
    digits, the removal of ASCII white space for [trim]. *)

Module Sample.

#[export] Instance numbers : Numbers :=
  {| number := Z; number_truthy z := negb (z =? 0)%Z |}.

Definition leaf : Type := bool + Z + string.

Fixpoint to_tree (j : json) : gen_tree leaf :=
  match j with
  | JNull => GenNode 0 []
  | JBool b => GenLeaf (inl (inl b))
  | JNum n => GenLeaf (inl (inr n))
  | JStr s => GenLeaf (inr s)
  | JArr l => GenNode 1 (to_tree <$> l)
  | JObj m =>
      GenNode 2
        ((λ kv : string * gen_tree leaf, GenNode 3 [GenLeaf (inr kv.1); kv.2])
           <$> map_to_list (to_tree <$> m))
  end.

Fixpoint of_tree (t : gen_tree leaf) : json :=
  match t with
  | GenLeaf (inl (inl b)) => JBool b
  | GenLeaf (inl (inr n)) => JNum n
  | GenLeaf (inr s) => JStr s
  | GenNode 1 ts => JArr (of_tree <$> ts)
  | GenNode 2 ts =>
      JObj (list_to_map
              ((λ t, match t with
                     | GenNode 3 [GenLeaf (inr k); v] => (k, of_tree v)
                     | _ => ("", JNull)
                     end) <$> ts))
  | GenNode _ _ => JNull
  end.

Fixpoint string_of_pos (p : positive) : string :=
  match p with
  | xH => ""
  | xO q => String "0" (string_of_pos q)
  | xI q => String "1" (string_of_pos q)
  end.

Fixpoint pos_of_string (s : string) : option positive :=
  match s with
  | "" => Some xH
  | String c r =>
      q ← pos_of_string r;
      if decide (c = "0"%char) then Some (xO q)
      else if decide (c = "1"%char) then Some (xI q)
      else None
  end.

Fixpoint json_size (j : json) : nat :=
  match j with
  | JArr l => S (foldr (λ x n, json_size x + n) 0 l)
  | JObj m => S (map_fold (λ _ x n, json_size x + n) 0 m)
  | _ => 1
  end.

Definition is_space (c : ascii) : bool :=
  bool_decide (c ∈ [" "; "009"; "010"; "011"; "012"; "013"]%char).

Fixpoint trim_start (s : string) : string :=
  match s with
  | "" => ""
  | String c r => if is_space c then trim_start r else s
  end.

Definition ascii_trim (s : string) : string :=
  String.rev (trim_start (String.rev (trim_start s))).

#[export] Instance ascii_trim_instance : Trim := {| trim := ascii_trim |}.

End Sample.

Module SampleBrowser.
Import Sample.

Definition stringify (j : json) : string :=
  string_of_pos (encode (to_tree j)).

Definition parse (s : string) : option json :=
  p ← pos_of_string s;
  of_tree <$> decode p.

#[export] Instance json_instance : JSON :=
  {| JSON_parse := parse; JSON_stringify := stringify |}.

(** Three days; the first has two activities, the second one, the third
    none. *)
Definition activity (t : string) : item :=
  {| item_time := t; item_html := "activity"; item_transport := None |}.

Definition trip : list day :=
  [ {| day_id := 1; day_title := "Arrival"; day_subtitle := "";
       day_highlight := None;
       schedule := [activity "09:00"; activity "13:00"] |};
    {| day_id := 2; day_title := "Centre"; day_subtitle := "";
       day_highlight := Some "tango";
       schedule := [activity "10:00"] |};
    {| day_id := 3; day_title := "Departure"; day_subtitle := "";
       day_highlight := None; schedule := [] |} ].

Definition diary0 : diary_section :=
  {| section_card := true; section_hidden := true; diary_list := [] |}.

(** A store with one completed item that has a note, one item that does
    not parse, and a last visited day. *)
Definition store0 : gmap string string :=
  <[item_key 1 0 :=
      stringify (JObj (<["completed" := JBool true]>
                         (<["note" := JStr "obelisk"]> ∅)))]>
    (<[item_key 2 0 := "{not json"]>
       (<["lastDay" := "2"]> ∅)).

(** The page opened on the first day. *)
Definition page1 : state := main trip (Some diary0) store0 (Some "1").

(** The first item of the first day in [page1], as [createPanel] built
    it. *)
Definition items1 : list li :=
  imap (λ index _, init_item store0 1 index)
    [activity "09:00"; activity "13:00"].

Definition panel1 : panel :=
  {| panel_hidden := false; panel_active := true; body := DayBody 1 items1 |}.

(** [page1] after a visit to the diary, which puts the section back into
    the document. *)
Definition page2 : state := step (Activate "diary") page1.


(** The page opened with an empty [dia] parameter in the URL. *)
Definition page3 : state := main trip (Some diary0) store0 (Some "").

End SampleBrowser.

(** * The rest of the script: day buttons, reload, countdown, theme

    What follows models the parts of the two scripts that the tab
    controller, the item store and the diary leave aside: the buttons to
    the previous and the next day that [createPanel] puts into a day panel,
    the countdown, the theme, and the older page without tabs, whose cards
    collapse, whose list items have the same two handlers and whose
    navigation bar follows the scroll position. *)

Section Buttons.

Context `{JSON} `{Trim}.

(** The two buttons of the [div.tab-day-nav] of a day panel (lines
    385-412), by the id they hand to [openTab]; [None] when the button is
    not created:
<<
    if (day.id > 1) { ... openTab((day.id - 1).toString()) ... }
    if (day.id < window.itineraryData.length) {
      ... openTab((day.id + 1).toString()) ... }
>> *)
Definition prev_day_target (d : day) : option string :=
  if bool_decide (1 < day_id d)%N
  then Some (toString (day_id d - 1)) else None.

Definition next_day_target (itinerary : list day) (d : day)
  : option string :=
  if bool_decide (day_id d < N.of_nat (length itinerary))%N
  then Some (toString (day_id d + 1)) else None.

(** A click on a button of the day [d], when the panel has it. *)
Definition prevBtn_click (d : day) (st : state) : state :=
  match prev_day_target d with
  | Some id => openTab id st
  | None => st
  end.

Definition nextBtn_click (d : day) (st : state) : state :=
  match next_day_target (itineraryData st) d with
  | Some id => openTab id st
  | None => st
  end.

(** The page loaded again, from the same document, at the URL and with the
    store that the page [st] leaves behind. *)
Definition reload (itinerary : list day) (section : option diary_section)
    (st : state) : state :=
  main itinerary section (localStorage st) (dia st).

(** The note under an item whose state is an object is the note of that
    state, and is hidden when there is none. *)
Definition display_ok (x : li) : Prop :=
  ∀ m, saved x = Obj m →
    noteDisplay x = if truthy_opt (m !! "note")
                    then NoteShown (m !! "note") else NoteHidden.

(** The panel under the key [diary] is that of the diary; a panel under
    another key is that of the day with that id, with one list item per
    activity of the day, each showing its note. *)
Definition panel_inv (itinerary : list day) (pid : string) (p : panel)
  : Prop :=
  if decide (pid = "diary") then ∃ msg, body p = DiaryBody msg
  else ∃ d items,
         find_day itinerary pid = Some d
         ∧ body p = DayBody (day_id d) items
         ∧ length items = length (schedule d)
         ∧ Forall display_ok items.

Definition panels_inv (itinerary : list day) (st : state) : Prop :=
  itineraryData st = itinerary
  ∧ map_Forall (panel_inv itinerary) (tabPanels st).

(** Until the panel of the diary is built, the section is as the document
    had it, and out of the document. *)
Definition diary_untouched (section : option diary_section) (st : state)
  : Prop :=
  tabPanels st !! "diary" = None →
  diarySection st = section ∧ diary_attached st = false.

(** The URL never names the diary, and the day it names is the persisted
    last day. *)
Definition url_is_last_day (st : state) : Prop :=
  dia st ≠ Some "diary"
  ∧ ∀ id, dia st = Some id → localStorage st !! "lastDay" = Some id.

End Buttons.

(** ** The countdown (lines 640-664) *)

Module Countdown.

(** [new Date('2026-01-16T00:00:00-03:00').getTime()]: 16 January 2026,
    03:00 UTC, in milliseconds since the epoch. *)
Definition target : Z := 1768532400000.

Definition day_ms : Z := 1000 * 60 * 60 * 24.
Definition hour_ms : Z := 1000 * 60 * 60.
Definition minute_ms : Z := 1000 * 60.

(** The time values of [Date] are integers of at most 8.64e15 in
    magnitude; on such numbers [Math.floor(a / b)] is the quotient of the
    integers rounded down, and [a % b] their remainder with the sign of
    [a]. *)
Definition days_left (diff : Z) : Z := (diff / day_ms)%Z.
Definition hours_left (diff : Z) : Z := ((diff `rem` day_ms) / hour_ms)%Z.
Definition minutes_left (diff : Z) : Z :=
  ((diff `rem` hour_ms) / minute_ms)%Z.

(** The interpolation of a number that is a non-negative integer. *)
Definition number_text (z : Z) : string := toString (Z.to_N z).

Definition day_word (days : Z) : string :=
  if bool_decide (days = 1%Z) then "dia" else "dias".

(** [parts.join(' ')]. *)
Definition join (parts : list string) : string :=
  match parts with
  | [] => ""
  | p :: rest => foldl (λ s q, s +:+ " " +:+ q) p rest
  end.

Definition started : string := "A viagem já começou!".

(** The text that [update] writes for [diff = target - now]. *)
Definition update_text (diff : Z) : string :=
  if bool_decide (diff ≤ 0)%Z then started else
  let days := days_left diff in
  let hours := hours_left diff in
  let minutes := minutes_left diff in
  join
    ((if bool_decide (0 < days)%Z
      then [number_text days +:+ " " +:+ day_word days] else [])
     ++ (if bool_decide (0 < hours)%Z
         then [number_text hours +:+ "h"] else [])
     ++ [number_text minutes +:+ "min"]).

(** [update] at the time [now], on the text of the element [#countdown];
    [initCountdown] runs it once and then every minute, and does nothing
    on a page without the element. *)
Definition update (now : Z) (countdownEl : option string) : option string :=
  match countdownEl with
  | Some _ => Some (update_text (target - now))
  | None => None
  end.

Definition initCountdown (now : Z) (countdownEl : option string)
  : option string :=
  update now countdownEl.

(** The countdown of the first version of the page, which counts the days
    that have begun: [Math.ceil(diff / (1000 * 60 * 60 * 24))]. *)
Definition days_begun (diff : Z) : Z := (- ((- diff) / day_ms))%Z.

Definition first_text (diff : Z) : string :=
  if bool_decide (0 < diff)%Z
  then number_text (days_begun diff) +:+ " " +:+ day_word (days_begun diff)
  else "a viagem já começou!".

End Countdown.

(** ** The theme (lines 683-715) *)

Module Theme.

(** The class [theme-dark] of the element [html], the text of the button
    [#theme-toggle] when the page has one, the store. *)
Record page := {
  theme_dark : bool;
  toggleBtn : option string;
  storage : gmap string string;
}.

Definition applyTheme (theme : string) (p : page) : page :=
  if decide (theme = "dark") then
    {| theme_dark := true;
       toggleBtn := (λ _, "☀️") <$> toggleBtn p;
       storage := storage p |}
  else
    {| theme_dark := false;
       toggleBtn := (λ _, "🌙") <$> toggleBtn p;
       storage := storage p |}.

(** [stored || (prefersDark ? 'dark' : 'light')]. *)
Definition initial_theme (stored : option string) (prefersDark : bool)
  : string :=
  match stored with
  | Some s =>
      if bool_decide (s ≠ "") then s
      else if prefersDark then "dark" else "light"
  | None => if prefersDark then "dark" else "light"
  end.

(** [prefersDark] is what the media query [prefers-color-scheme: dark]
    answers. *)
Definition initTheme (prefersDark : bool) (p : page) : page :=
  match toggleBtn p with
  | None => p
  | Some _ => applyTheme (initial_theme (storage p !! "theme") prefersDark) p
  end.

(** The click handler that [initTheme] puts on the button:
<<
    theme = htmlEl.classList.contains('theme-dark') ? 'light' : 'dark';
    applyTheme(theme);
    localStorage.setItem('theme', theme);
>> *)
Definition toggle_click (p : page) : page :=
  match toggleBtn p with
  | None => p
  | Some _ =>
      let theme := if theme_dark p then "light" else "dark" in
      let p' := applyTheme theme p in
      {| theme_dark := theme_dark p';
         toggleBtn := toggleBtn p';
         storage := <["theme" := theme]> (storage p') |}
  end.

(** The page of a later visit: the store is kept, the document is the
    static one again, with whatever class it gives to [html]. *)
Definition revisit (dark_in_document : bool) (p : page) : page :=
  {| theme_dark := dark_in_document;
     toggleBtn := toggleBtn p;
     storage := storage p |}.

End Theme.

(** ** The page without tabs *)

Module Legacy.

(** *** Collapsing day cards (lines 11-38 of the older script) *)

(** A day card as the handler of [DOMContentLoaded] sees it: whether it has
    a [.day-header], and the class [hidden] of its first [.schedule] when
    it has one. *)
Record card_view := {
  has_header : bool;
  schedule_hidden : option bool;
}.

(** Whether the card gets the click handler on its header. *)
Definition collapsible (c : card_view) : bool :=
  has_header c && bool_decide (is_Some (schedule_hidden c)).

Definition set_schedule_hidden (b : bool) (c : card_view) : card_view :=
  {| has_header := has_header c;
     schedule_hidden := (λ _, b) <$> schedule_hidden c |}.

Definition collapse_card (c : card_view) : card_view :=
  if collapsible c then set_schedule_hidden true c else c.

Definition expand_first (cards : list card_view) : list card_view :=
  match cards with
  | [] => []
  | c :: rest => set_schedule_hidden false c :: rest
  end.

Definition collapse_cards (cards : list card_view) : list card_view :=
  expand_first (collapse_card <$> cards).

(** [schedule.classList.toggle('hidden')], on the card at index [i]. *)
Definition header_click (i : nat) (cards : list card_view)
  : list card_view :=
  alter (λ c, if collapsible c
              then {| has_header := has_header c;
                      schedule_hidden := negb <$> schedule_hidden c |}
              else c) i cards.

(** *** The navigation bar (lines 95-139) *)

(** [`${dayId}`] for the attribute [data-day] of a card, which reads as
    [undefined] when the card has none. *)
Definition day_text (d : option string) : string := default "undefined" d.

Record nav_item := {
  nav_text : string;
  nav_active : bool;
}.

(** The buttons that [initDayNavigation] creates: one per card, then one
    for the diary; none on a page without [#day-nav] or without cards. *)
Definition initDayNavigation (nav : bool) (days : list (option string))
    (diary : bool) : list nav_item :=
  if negb nav || bool_decide (length days = 0) then [] else
  ((λ d, {| nav_text := "Dia " +:+ day_text d; nav_active := false |})
     <$> days)
  ++ (if diary then [{| nav_text := "Diário"; nav_active := false |}]
      else []).

(** An entry handed to the callback of the [IntersectionObserver]; the
    target is given by its position among the observed elements, which are
    the cards and the diary in the order of the buttons. *)
Record observer_entry := {
  entry_target : nat;
  isIntersecting : bool;
}.

Definition set_nav_active (b : bool) (it : nav_item) : nav_item :=
  {| nav_text := nav_text it; nav_active := b |}.

Definition observe_entry (items : list nav_item) (e : observer_entry)
  : list nav_item :=
  match items !! entry_target e with
  | None => items
  | Some _ =>
      if isIntersecting e then
        alter (set_nav_active true) (entry_target e)
          (set_nav_active false <$> items)
      else items
  end.

Definition observer_callback (entries : list observer_entry)
    (items : list nav_item) : list nav_item :=
  foldl observe_entry items entries.

(** *** List items and the diary (lines 146-273) *)

Section Items.

Context `{JSON} `{Trim}.

(** The template [`day-${dayId}-item-${index}`] on the attribute
    [data-day] as it stands. *)
Definition item_key_of (d : option string) (index : nat) : string :=
  "day-" +:+ day_text d +:+ "-item-" +:+ toString (N.of_nat index).

(** A day card: its attribute [data-day] and the list items that
    [.schedule li] selects in it. *)
Record card := {
  dataset_day : option string;
  card_items : list li;
}.

Record state := {
  cards : list card;
  diary : option diary_section;
  storage : gmap string string;
}.

Definition init_item_at (ls : gmap string string) (itemKey : string) : li :=
  let saved := load_saved ls itemKey in
  {| li_completed := truthy_opt (get_prop saved "completed");
     saved := saved;
     noteDisplay := if truthy_opt (get_prop saved "note")
                    then NoteShown (get_prop saved "note")
                    else NoteHidden |}.

(** The element [#diary] stays in the document of this page, so
    [updateDiary] returns early only when the page has none. *)
Definition updateDiary (st : state) : state :=
  match diary st with
  | Some section =>
      let entries := collect_entries (storage st) in
      {| cards := cards st;
         diary :=
           Some {| section_card := section_card section;
                   section_hidden := bool_decide (length entries = 0);
                   diary_list := entries |};
         storage := storage st |}
  | None => st
  end.

(** [initScheduleItems] on a document whose cards have the given
    attributes [data-day] and numbers of list items. *)
Definition initScheduleItems (document : list (option string * nat))
    (section : option diary_section) (ls : gmap string string) : state :=
  updateDiary
    {| cards :=
         (λ c : option string * nat,
            {| dataset_day := c.1;
               card_items :=
                 (λ index, init_item_at ls (item_key_of c.1 index))
                   <$> seq 0 c.2 |}) <$> document;
       diary := section;
       storage := ls |}.

(** The list item [index] of the card [c], with its card. *)
Definition lookup_li (c index : nat) (st : state) : option (card * li) :=
  cd ← cards st !! c;
  x ← card_items cd !! index;
  Some (cd, x).

Definition store_li (c index : nat) (cd : card) (x : li) (st : state)
  : state :=
  {| cards :=
       <[c := {| dataset_day := dataset_day cd;
                 card_items := <[index := x]> (card_items cd) |}]>
         (cards st);
     diary := diary st;
     storage :=
       <[item_key_of (dataset_day cd) index
         := JSON_stringify (to_json (saved x))]> (storage st) |}.

(** The two click handlers, which are those of the page with tabs less the
    progress of the day. *)
Definition doneBtn_click (c index : nat) (st : state) : state :=
  match lookup_li c index st with
  | Some (cd, x) => store_li c index cd (toggled_item x) st
  | None => st
  end.

Definition noteBtn_click (c index : nat) (answer : option string)
    (st : state) : state :=
  match lookup_li c index st with
  | Some (cd, x) =>
      match answer with
      | Some note =>
          updateDiary (store_li c index cd (noted_item x note) st)
      | None => st
      end
  | None => st
  end.

Definition themeToggle_click (theme : string) (st : state) : state :=
  {| cards := cards st; diary := diary st;
     storage := <["theme" := theme]> (storage st) |}.

Inductive event : Type :=
  | ClickDone (c index : nat)
  | ClickNote (c index : nat) (answer : option string)
  | ClickTheme (theme : string).

Definition step (e : event) (st : state) : state :=
  match e with
  | ClickDone c index => doneBtn_click c index st
  | ClickNote c index answer => noteBtn_click c index answer st
  | ClickTheme theme => themeToggle_click theme st
  end.

Inductive reachable (document : list (option string * nat))
    (section : option diary_section) (ls : gmap string string)
  : state → Prop :=
  | reachable_init :
      reachable document section ls (initScheduleItems document section ls)
  | reachable_step e st :
      reachable document section ls st →
      reachable document section ls (step e st).


(** The variable [saved] of every list item agrees with the store. *)
Definition item_ok (st : state) (cd : card) (index : nat) (x : li) : Prop :=
  load_saved (storage st) (item_key_of (dataset_day cd) index)
  = of_json (to_json (saved x))
  ∧ saved_ok x.



End Items.

End Legacy.

(** ** Sample pages for the rest of the script *)

Module SamplePages.
Import Sample SampleBrowser.

(** The sample page opened at a URL that names no day. *)
Definition page4 : state := main trip (Some diary0) store0 (Some "99").

(** A visit to the diary, then to the second day. *)
Definition page5 : state := step (Activate "2") page2.

Definition day2 : day :=
  {| day_id := 2; day_title := "Centre"; day_subtitle := "";
     day_highlight := Some "tango";
     schedule := [activity "10:00"] |}.






Definition dark_page : Theme.page :=
  {| Theme.theme_dark := true; Theme.toggleBtn := Some "☀️";
     Theme.storage := ∅ |}.





(** Three cards, the last without a header. *)
Definition views0 : list Legacy.card_view :=
  [ {| Legacy.has_header := true; Legacy.schedule_hidden := Some false |};
    {| Legacy.has_header := true; Legacy.schedule_hidden := Some false |};
    {| Legacy.has_header := false; Legacy.schedule_hidden := Some false |} ].

End SamplePages.

(** * Properties *)

(** ** Decimal numerals and item keys *)

Lemma string_of_uint_digits (d : Decimal.uint) :
  all_digits (NilEmpty.string_of_uint d) = true.
Proof. induction d; simpl; auto. Qed.

Lemma toString_digits (n : N) : all_digits (toString n) = true.
Proof. apply string_of_uint_digits. Qed.

Lemma parseInt_toString (n : N) : parseInt (toString n) = n.
Proof.
  unfold parseInt, toString. rewrite NilEmpty.usu. simpl.
  apply DecimalN.Unsigned.of_to.
Qed.

#[global] Instance toString_inj : Inj (=) (=) toString.
Proof.
  intros n m Heq. rewrite <- (parseInt_toString n), <- (parseInt_toString m).
  by rewrite Heq.
Qed.

Lemma toString_nonempty (n : N) : toString n ≠ "".
Proof.
  intros Heq. assert (Hn : n = 0%N).
  { rewrite <- (parseInt_toString n). by rewrite Heq. }
  subst n. discriminate Heq.
Qed.

Lemma append_empty_r (s : string) : s +:+ "" = s.
Proof.
  induction s as [|c s IH]; [done|].
  change (String c s +:+ "") with (String c (s +:+ "")). by rewrite IH.
Qed.

Lemma strip_prefix_app (p s : string) : strip_prefix p (p +:+ s) = Some s.
Proof.
  induction p as [|a p IH]; simpl; [done|].
  by rewrite decide_True.
Qed.

Lemma span_digits_app (ds rest : string) :
  all_digits ds = true →
  span_digits rest = ("", rest) →
  span_digits (ds +:+ rest) = (ds, rest).
Proof.
  intros Hds Hrest. induction ds as [|c ds IH]; simpl in *; [done|].
  apply andb_true_iff in Hds as [Hc Hds]. rewrite Hc.
  by rewrite (IH Hds).
Qed.

Lemma match_item_key_item_key (dayId : N) (index : nat) :
  match_item_key (item_key dayId index)
  = Some (toString dayId, toString (N.of_nat index)).
Proof.
  unfold match_item_key, item_key.
  rewrite strip_prefix_app. cbn [mbind option_bind].
  rewrite (span_digits_app (toString dayId)
             ("-item-" +:+ toString (N.of_nat index)));
    [|apply toString_digits|done].
  rewrite decide_False by apply toString_nonempty.
  rewrite strip_prefix_app. cbn [mbind option_bind].
  pose proof (span_digits_app (toString (N.of_nat index)) ""
                (toString_digits _) eq_refl) as Hspan.
  rewrite append_empty_r in Hspan. rewrite Hspan.
  rewrite decide_False by apply toString_nonempty.
  by rewrite decide_True.
Qed.

Lemma item_key_inj (d d' : N) (i i' : nat) :
  item_key d i = item_key d' i' → d = d' ∧ i = i'.
Proof.
  intros Heq.
  pose proof (match_item_key_item_key d i) as H1.
  rewrite Heq, match_item_key_item_key in H1.
  injection H1 as Hd Hi.
  apply (inj toString) in Hd. apply (inj toString) in Hi.
  split; [done|]. by apply Nat2N.inj.
Qed.

Lemma item_key_ne_lastDay (d : N) (i : nat) : item_key d i ≠ "lastDay".
Proof. unfold item_key. simpl. discriminate. Qed.

Lemma startsWith_item_key (d : N) (i : nat) :
  startsWith (item_key d i) "day-" = true.
Proof.
  unfold startsWith, item_key. rewrite strip_prefix_app.
  by apply bool_decide_eq_true_2.
Qed.

Lemma toString_ne_diary (n : N) : toString n ≠ "diary".
Proof.
  intros Heq. pose proof (toString_digits n) as Hd.
  rewrite Heq in Hd. discriminate Hd.
Qed.

(** ** Lists *)

Lemma filter_ext_elem {A} (P Q : A → Prop)
    `{!∀ x, Decision (P x)} `{!∀ x, Decision (Q x)} (l : list A) :
  (∀ x, x ∈ l → P x ↔ Q x) → filter P l = filter Q l.
Proof.
  induction l as [|x l IH]; intros Hext; [done|].
  rewrite !filter_cons.
  rewrite IH by (intros y Hy; apply Hext; by right).
  destruct (decide (P x)) as [HP|HP], (decide (Q x)) as [HQ|HQ]; try done.
  - exfalso. apply HQ, Hext; [by left|done].
  - exfalso. apply HP, Hext; [by left|done].
Qed.

(** ** Values read from and written to the store *)

Section Facts.

Context `{JSONLaws} `{Trim}.

Implicit Types (ls : gmap string string) (st : state) (v : jsvalue).

Lemma to_of_json (j : json) : to_json (of_json j) = j.
Proof. by destruct j. Qed.

Lemma truthy_string (s : string) : truthy (JStr s) = true ↔ s ≠ "".
Proof. simpl. apply bool_decide_eq_true. Qed.

Lemma truthy_bool (b : bool) : truthy_opt (Some (JBool b)) = b.
Proof. done. Qed.

(** What [load_saved] returns has no named property on an array and is
    truthy: it is a fixed point of serialising and parsing. *)
Lemma load_saved_normal ls k :
  of_json (to_json (load_saved ls k)) = load_saved ls k
  ∧ truthy (to_json (load_saved ls k)) = true.
Proof.
  unfold load_saved, try_catch.
  destruct (parse_item (ls !! k)) as [j|]; simpl; [|done].
  unfold or_empty. destruct (truthy j) eqn:Hj; [|done].
  by rewrite to_of_json.
Qed.

Lemma load_saved_absent ls k :
  ls !! k = None → load_saved ls k = Obj ∅.
Proof. unfold load_saved. by intros ->. Qed.

Lemma load_saved_unparseable ls k text :
  ls !! k = Some text → JSON_parse text = None → load_saved ls k = Obj ∅.
Proof. unfold load_saved. intros ->. simpl. by intros ->. Qed.

Lemma load_saved_insert ls k v :
  truthy (to_json v) = true →
  load_saved (<[k := JSON_stringify (to_json v)]> ls) k
  = of_json (to_json v).
Proof.
  intros Hv. unfold load_saved. rewrite lookup_insert_eq. simpl.
  rewrite JSON_parse_stringify. simpl. unfold or_empty. by rewrite Hv.
Qed.

Lemma load_saved_insert_ne ls k k' text :
  k ≠ k' → load_saved (<[k := text]> ls) k' = load_saved ls k'.
Proof. intros Hne. unfold load_saved. by rewrite lookup_insert_ne. Qed.

(** The counting loop adds one exactly for the items whose recovered state
    has a truthy [completed]. *)
Lemma count_item_load ls dayId c i :
  count_item ls dayId c i
  = if completed_of (load_saved ls (item_key dayId i)) then c + 1 else c.
Proof.
  unfold count_item, load_saved, completed_of, try_catch.
  destruct (parse_item (ls !! item_key dayId i)) as [j|]; simpl; [|done].
  unfold or_empty, json_prop. by destruct (truthy j).
Qed.

Lemma persisted_completed_load ls dayId i :
  persisted_completed ls dayId i
  = completed_of (load_saved ls (item_key dayId i)).
Proof.
  unfold persisted_completed, load_saved, completed_of, try_catch.
  destruct (ls !! item_key dayId i) as [text|]; simpl; [|done].
  destruct (JSON_parse text) as [j|]; simpl; [|done].
  unfold or_empty, json_prop. destruct (truthy j) eqn:Hj; [done|].
  by destruct j.
Qed.

(** The loop of [updateDayProgress] computes the count of the spec. *)
Lemma count_completed_entries ls dayId total :
  count_completed ls dayId total = completed_entries ls dayId total.
Proof.
  unfold count_completed, completed_entries.
  enough (Hgen : ∀ l c,
    foldl (count_item ls dayId) c l
    = c + length (filter (λ i, persisted_completed ls dayId i = true) l))
    by apply (Hgen _ 0).
  induction l as [|i l IH]; intros c; simpl; [lia|].
  rewrite IH, count_item_load, <- persisted_completed_load.
  destruct (persisted_completed ls dayId i) eqn:Hi.
  - rewrite filter_cons_True by done. simpl. lia.
  - rewrite filter_cons_False by (by rewrite Hi). lia.
Qed.

Lemma completed_entries_ext ls ls' dayId total :
  (∀ i, i < total →
        persisted_completed ls' dayId i = persisted_completed ls dayId i) →
  completed_entries ls' dayId total = completed_entries ls dayId total.
Proof.
  intros Hext. unfold completed_entries. f_equal.
  apply filter_ext_elem. intros i Hi.
  apply elem_of_seq in Hi. rewrite Hext; [done|lia].
Qed.

Lemma persisted_completed_insert_ne ls k text dayId i :
  k ≠ item_key dayId i →
  persisted_completed (<[k := text]> ls) dayId i
  = persisted_completed ls dayId i.
Proof. intros Hne. unfold persisted_completed. by rewrite lookup_insert_ne. Qed.

(** ** The tab list *)

Lemma update_tab_by_id_ids id l ts :
  Forall2 (λ t t', tab_id t' = tab_id t
                   ∧ aria_selected t' = aria_selected t
                   ∧ tabindex t' = tabindex t
                   ∧ tab_active t' = tab_active t)
    ts (update_tab_by_id id (set_textContent l) ts).
Proof.
  induction ts as [|t ts IH]; simpl; [constructor|].
  case_decide.
  - constructor; [done|]. apply Forall2_same_length_lookup_2; [done|].
    intros i x y Hx Hy. by simplify_eq.
  - by constructor.
Qed.

Lemma update_tab_by_id_app_r id f ts rest :
  Forall (λ t, tab_id t ≠ id) ts →
  update_tab_by_id id f (ts ++ rest) = ts ++ update_tab_by_id id f rest.
Proof.
  induction 1 as [|t ts Ht _ IH]; simpl; [done|].
  rewrite decide_False by done. by rewrite IH.
Qed.

Lemma update_tab_by_id_absent id f ts :
  Forall (λ t, tab_id t ≠ id) ts → update_tab_by_id id f ts = ts.
Proof.
  induction 1 as [|t ts Ht _ IH]; simpl; [done|].
  rewrite decide_False by done. by rewrite IH.
Qed.

Lemma tab_prefix_inj (a b : string) : "tab-" +:+ a = "tab-" +:+ b → a = b.
Proof. intros Heq. by apply (inj (String.append "tab-")) in Heq. Qed.

Lemma day_tab_weaken ls skip d t :
  day_tab ls None d t → day_tab ls skip d t.
Proof. intros [Hid Hl]. split; [done|]. intros _. by apply Hl. Qed.

Lemma day_tab_strengthen ls dayId d t :
  day_id d ≠ dayId → day_tab ls (Some dayId) d t → day_tab ls None d t.
Proof.
  intros Hne [Hid Hl]. split; [done|]. intros _. apply Hl. congruence.
Qed.

Lemma day_tabs_strengthen ls dayId days ts :
  dayId ∉ day_id <$> days →
  Forall2 (day_tab ls (Some dayId)) days ts →
  Forall2 (day_tab ls None) days ts.
Proof.
  intros Hnotin Hts. induction Hts as [|d t days ts Hd Hts IH].
  { constructor. }
  rewrite fmap_cons in Hnotin. apply not_elem_of_cons in Hnotin as [Hne Hnotin].
  constructor; [|by apply IH].
  by apply (day_tab_strengthen _ dayId).
Qed.

(** Recomputing the label of [dayId] settles the one tab whose label was
    left open. *)
Lemma update_day_tabs ls dayId day days ts :
  NoDup (day_id <$> days) →
  (∀ d, d ∈ days → day_id d = dayId → d = day) →
  Forall2 (day_tab ls (Some dayId)) days ts →
  Forall2 (day_tab ls None) days
    (update_tab_by_id ("tab-" +:+ toString dayId)
       (set_textContent
          (progress_label dayId
             (count_completed ls dayId (length (schedule day)))
             (length (schedule day))))
       ts).
Proof.
  intros Hnd Hday Hts. induction Hts as [|d t days ts Hd Hts IH]; simpl.
  { constructor. }
  apply NoDup_cons in Hnd as [Hnotin Hnd].
  destruct Hd as [Hid Hl]. case_decide as Heq.
  - rewrite Hid in Heq. apply tab_prefix_inj, (inj toString) in Heq.
    assert (d = day) as -> by (apply Hday; [left|done]).
    constructor.
    + split; [done|]. intros _. unfold label_ok. simpl.
      by rewrite Heq, count_completed_entries.
    + apply (day_tabs_strengthen _ dayId); [|done]. by rewrite <- Heq.
  - constructor.
    + split; [done|]. intros _. apply Hl. intros [= Hd].
      apply Heq. by rewrite Hid, Hd.
    + apply IH; [done|]. intros d' Hd'. apply Hday. by right.
Qed.

Lemma update_tab_by_id_app id f ts rest :
  Forall (λ t, tab_id t ≠ id) rest →
  update_tab_by_id id f (ts ++ rest) = update_tab_by_id id f ts ++ rest.
Proof.
  intros Hrest. induction ts as [|t ts IH]; simpl.
  - by apply update_tab_by_id_absent.
  - case_decide; [done|]. by rewrite IH.
Qed.

Lemma find_day_Some itinerary id d :
  find_day itinerary id = Some d → d ∈ itinerary ∧ toString (day_id d) = id.
Proof.
  unfold find_day. intros Hfind. apply find_some in Hfind as [Hin Hid].
  split; [by apply list_elem_of_In|]. by apply bool_decide_eq_true in Hid.
Qed.

Lemma find_day_None itinerary id d :
  find_day itinerary id = None → d ∈ itinerary → toString (day_id d) ≠ id.
Proof.
  unfold find_day. intros Hfind Hin Hid.
  apply list_elem_of_In in Hin.
  pose proof (find_none _ _ Hfind _ Hin) as Hd. simpl in Hd.
  by apply bool_decide_eq_false in Hd.
Qed.

Lemma find_day_is_Some itinerary d :
  d ∈ itinerary → is_Some (find_day itinerary (toString (day_id d))).
Proof.
  intros Hin. destruct (find_day _ _) eqn:Hfind; [by eexists|].
  by destruct (find_day_None _ _ _ Hfind Hin).
Qed.

Lemma NoDup_day_id_eq (days : list day) d d' :
  NoDup (day_id <$> days) → d ∈ days → d' ∈ days →
  day_id d = day_id d' → d = d'.
Proof.
  intros Hnd Hd Hd' Heq.
  apply list_elem_of_lookup in Hd as [i Hi].
  apply list_elem_of_lookup in Hd' as [j Hj].
  assert (i = j) as ->.
  { eapply NoDup_lookup; [exact Hnd| |];
      rewrite list_lookup_fmap; [by rewrite Hi|by rewrite Hj, Heq]. }
  congruence.
Qed.

Lemma diary_tabs_no_day (o : option diary_section) rest dayId :
  Forall2 (λ _ t, tab_id t = "tab-diary") (option_list o) rest →
  Forall (λ t, tab_id t ≠ "tab-" +:+ toString dayId) rest.
Proof.
  intros Hrest. apply Forall_forall. intros t Ht Heq.
  apply list_elem_of_lookup in Ht as [i Hi].
  destruct (Forall2_lookup_r _ _ _ _ _ Hrest Hi) as (? & _ & Hid).
  rewrite Hid in Heq. apply tab_prefix_inj in Heq.
  by apply (toString_ne_diary dayId).
Qed.

(** ** [updateDayProgress] *)

Lemma updateDayProgress_frame dayId st :
  let st' := updateDayProgress dayId st in
  itineraryData st' = itineraryData st
  ∧ diarySection st' = diarySection st
  ∧ diary_attached st' = diary_attached st
  ∧ tabPanels st' = tabPanels st
  ∧ localStorage st' = localStorage st
  ∧ dia st' = dia st
  ∧ focused st' = focused st.
Proof. simpl. unfold updateDayProgress. by destruct (find_day _ _). Qed.

Lemma updateDayProgress_tabs dayId st :
  Forall2 (λ t t', tab_id t' = tab_id t
                   ∧ aria_selected t' = aria_selected t
                   ∧ tabindex t' = tabindex t
                   ∧ tab_active t' = tab_active t)
    (tabs st) (tabs (updateDayProgress dayId st)).
Proof.
  unfold updateDayProgress. destruct (find_day _ _); simpl.
  - apply update_tab_by_id_ids.
  - apply Forall2_same_length_lookup_2; [done|].
    intros i x y Hx Hy. by simplify_eq.
Qed.

Lemma updateDayProgress_tabs_ok itinerary dayId st :
  NoDup (day_id <$> itinerary) →
  tabs_ok (Some dayId) itinerary st →
  tabs_ok None itinerary (updateDayProgress dayId st).
Proof.
  intros Hnd (Hit & dts & rest & Hts & Hdts & Hrest).
  unfold updateDayProgress. rewrite Hit.
  destruct (find_day itinerary (toString dayId)) as [day|] eqn:Hfind.
  - apply find_day_Some in Hfind as [Hin Hid]. apply (inj toString) in Hid.
    split; [done|]. simpl. rewrite Hts.
    rewrite update_tab_by_id_app by (by eapply diary_tabs_no_day).
    eexists _, rest. split; [done|]. split; [|done].
    apply update_day_tabs; [done| |done].
    intros d Hd Heq. apply (NoDup_day_id_eq itinerary); congruence.
  - split; [done|]. exists dts, rest. split; [done|]. split; [|done].
    apply (day_tabs_strengthen _ dayId); [|done].
    intros Hin. apply list_elem_of_fmap in Hin as (d & -> & Hd).
    by apply (find_day_None _ _ _ Hfind Hd).
Qed.

(** ** Invariants under changes that keep ids, labels and counts *)

Lemma tabs_ok_weaken skip itinerary st :
  tabs_ok None itinerary st → tabs_ok skip itinerary st.
Proof.
  intros (Hit & dts & rest & Hts & Hdts & Hrest).
  split; [done|]. exists dts, rest. split; [done|]. split; [|done].
  eapply Forall2_impl; [exact Hdts|]. intros d t. apply day_tab_weaken.
Qed.

Lemma tabs_ok_transfer skip itinerary st st' :
  tabs_ok skip itinerary st →
  itineraryData st' = itineraryData st →
  (is_Some (diarySection st') ↔ is_Some (diarySection st)) →
  Forall2 (λ t t', tab_id t' = tab_id t ∧ textContent t' = textContent t)
    (tabs st) (tabs st') →
  (∀ d, d ∈ itinerary → Some (day_id d) ≠ skip →
     completed_entries (localStorage st') (day_id d) (length (schedule d))
     = completed_entries (localStorage st) (day_id d) (length (schedule d))) →
  tabs_ok skip itinerary st'.
Proof.
  intros (Hit & dts & rest & Hts & Hdts & Hrest) Hit' Hsec Hsame Hcount.
  split; [congruence|].
  rewrite Hts in Hsame.
  apply Forall2_app_inv_l in Hsame as (dts' & rest' & Hdts' & Hrest' & ->).
  exists dts', rest'. split; [done|]. split.
  - apply Forall2_same_length_lookup_2.
    { by rewrite (Forall2_length _ _ _ Hdts), (Forall2_length _ _ _ Hdts'). }
    intros i d t' Hd Ht'.
    destruct (Forall2_lookup_r _ _ _ _ _ Hdts' Ht') as (t & Ht & Hid & Htxt).
    destruct (Forall2_lookup_lr _ _ _ _ _ _ Hdts Hd Ht) as [Htid Hl].
    split; [congruence|]. intros Hskip. unfold label_ok.
    rewrite Htxt, Hcount; [by apply Hl| |done].
    by eapply list_elem_of_lookup_2.
  - assert (Hlen : length (option_list (diarySection st'))
                   = length (option_list (diarySection st))).
    { destruct (diarySection st') as [?|] eqn:E', (diarySection st) as [?|] eqn:E;
        try done.
      - by destruct (proj1 Hsec (mk_is_Some _ _ eq_refl)).
      - by destruct (proj2 Hsec (mk_is_Some _ _ eq_refl)). }
    apply Forall2_same_length_lookup_2.
    { by rewrite Hlen, (Forall2_length _ _ _ Hrest), (Forall2_length _ _ _ Hrest'). }
    intros i x t' Hx Ht'.
    destruct (Forall2_lookup_r _ _ _ _ _ Hrest' Ht') as (t & Ht & Hid & _).
    destruct (lookup_lt_is_Some_2 (option_list (diarySection st)) i) as [x0 Hx0].
    { rewrite (Forall2_length _ _ _ Hrest). by eapply lookup_lt_Some. }
    pose proof (Forall2_lookup_lr _ _ _ _ _ _ Hrest Hx0 Ht). congruence.
Qed.

Lemma panel_ok_ext ls ls' pid p p' :
  (∀ dayId items index,
     body p = DayBody dayId items →
     load_saved ls' (item_key dayId index)
     = load_saved ls (item_key dayId index)) →
  body p' = body p →
  panel_ok ls pid p → panel_ok ls' pid p'.
Proof.
  intros Hls Hbody. unfold panel_ok. rewrite Hbody.
  destruct (body p) as [dayId items|]; [|done].
  intros [Hpid Hitems]. split; [done|].
  intros index x Hx. destruct (Hitems index x Hx) as (Hload & Hsaved).
  unfold item_ok. by rewrite (Hls dayId items).
Qed.

Lemma panels_ok_frame st st' :
  localStorage st' = localStorage st →
  tabPanels st' = tabPanels st →
  panels_ok st → panels_ok st'.
Proof. unfold panels_ok. by intros -> ->. Qed.

Lemma lookup_item_Some pid index st p dayId items x :
  lookup_item pid index st = Some (p, dayId, items, x)
  ↔ tabPanels st !! pid = Some p
    ∧ body p = DayBody dayId items
    ∧ items !! index = Some x.
Proof.
  unfold lookup_item. split.
  - intros Hl. destruct (tabPanels st !! pid) as [q|]; simpl in Hl; [|done].
    destruct (body q) as [d its|] eqn:Hb; [|done].
    destruct (its !! index) as [y|] eqn:Hy; simpl in Hl; [|done].
    by simplify_eq.
  - intros (-> & Hb & Hx). simpl. rewrite Hb, Hx. done.
Qed.

(** ** [updateDiary] *)

Lemma updateDiary_frame st :
  let st' := updateDiary st in
  itineraryData st' = itineraryData st
  ∧ (is_Some (diarySection st') ↔ is_Some (diarySection st))
  ∧ diary_attached st' = diary_attached st
  ∧ tabs st' = tabs st
  ∧ localStorage st' = localStorage st
  ∧ dia st' = dia st
  ∧ focused st' = focused st.
Proof.
  simpl. unfold updateDiary.
  destruct (diarySection st) as [sec|] eqn:Hsec;
    [destruct (diary_attached st) eqn:Hatt|];
    simpl; rewrite ?Hsec, ?Hatt; repeat split; try done; by eexists.
Qed.

Lemma updateDiary_tabPanels st pid :
  ∃ f, tabPanels (updateDiary st) !! pid = f <$> tabPanels st !! pid
       ∧ ∀ p, body (f p) = body p
              ∨ (∃ a b, body p = DiaryBody a ∧ body (f p) = DiaryBody b).
Proof.
  unfold updateDiary.
  destruct (diarySection st) as [sec|];
    [|exists id; split; [by rewrite option_fmap_id|by left]].
  destruct (diary_attached st);
    [|exists id; split; [by rewrite option_fmap_id|by left]].
  simpl. destruct (decide (pid = "diary")) as [->|Hne].
  - eexists. split; [apply lookup_alter_eq|].
    intros p. unfold set_no_notes_msg.
    destruct (body p) eqn:Hb; [by left|]. right. by eexists _, _.
  - exists id. split; [by rewrite lookup_alter_ne, option_fmap_id|by left].
Qed.

Lemma updateDiary_panels_ok st : panels_ok st → panels_ok (updateDiary st).
Proof.
  intros Hok pid p' Hp'.
  destruct (updateDiary_tabPanels st pid) as (f & Hf & Hbody).
  rewrite Hf in Hp'. apply fmap_Some in Hp' as (p & Hp & ->).
  destruct (updateDiary_frame st) as (_ & _ & _ & _ & Hls & _).
  rewrite Hls. specialize (Hok pid p Hp).
  destruct (Hbody p) as [Hb|(a & b & Ha & Hb)].
  - by apply (panel_ok_ext (localStorage st) _ _ p).
  - unfold panel_ok. by rewrite Hb.
Qed.

(** ** Writing an item back *)

Lemma truthy_set_prop v name x :
  truthy (to_json v) = true → truthy (to_json (set_prop v name x)) = true.
Proof. by destruct v. Qed.

Lemma truthy_delete_prop v name :
  truthy (to_json v) = true → truthy (to_json (delete_prop v name)) = true.
Proof. by destruct v. Qed.

Lemma store_item_frame pid index p dayId items x st :
  let st' := store_item pid index p dayId items x st in
  itineraryData st' = itineraryData st
  ∧ diarySection st' = diarySection st
  ∧ diary_attached st' = diary_attached st
  ∧ tabs st' = tabs st
  ∧ dia st' = dia st
  ∧ focused st' = focused st.
Proof. done. Qed.

Lemma store_item_panels_ok pid index p dayId items x x' st :
  panels_ok st →
  lookup_item pid index st = Some (p, dayId, items, x) →
  saved_ok x' →
  panels_ok (store_item pid index p dayId items x' st).
Proof.
  intros Hok Hl Hsaved. apply lookup_item_Some in Hl as (Hp & Hb & Hx).
  pose proof (Hok pid p Hp) as Hpok. unfold panel_ok in Hpok.
  rewrite Hb in Hpok. destruct Hpok as [Hpid Hitems].
  intros pid' p' Hp'. unfold store_item in *. simpl in *.
  destruct (decide (pid = pid')) as [<-|Hne].
  - rewrite lookup_insert_eq in Hp'. simplify_eq. unfold panel_ok. simpl.
    split; [done|]. intros j y Hy.
    destruct (decide (index = j)) as [<-|Hj].
    + rewrite list_lookup_insert_eq in Hy by (by eapply lookup_lt_Some).
      simplify_eq. split; [|done]. apply load_saved_insert, Hsaved.
    + rewrite list_lookup_insert_ne in Hy by done.
      destruct (Hitems j y Hy) as (Hload & ?). split; [|done].
      rewrite load_saved_insert_ne; [done|].
      intros Heq. apply item_key_inj in Heq as [_ ?]. done.
  - rewrite lookup_insert_ne in Hp' by done.
    pose proof (Hok pid' p' Hp') as Hp'ok.
    eapply panel_ok_ext; [|done|exact Hp'ok].
    intros d its j Hb'. apply load_saved_insert_ne.
    intros Heq. apply item_key_inj in Heq as [<- _].
    unfold panel_ok in Hp'ok. rewrite Hb' in Hp'ok.
    destruct Hp'ok as [-> _]. done.
Qed.

Lemma Forall2_tab_same_refl (ts : list tab) :
  Forall2 (λ t t', tab_id t' = tab_id t ∧ textContent t' = textContent t)
    ts ts.
Proof.
  apply Forall2_same_length_lookup_2; [done|].
  intros i x y Hx Hy. by simplify_eq.
Qed.

Lemma store_item_tabs_ok skip itinerary pid index p dayId items x x' st :
  tabs_ok skip itinerary st →
  panels_ok st →
  lookup_item pid index st = Some (p, dayId, items, x) →
  saved_ok x' →
  (skip = Some dayId
   ∨ completed_of (of_json (to_json (saved x')))
     = completed_of (of_json (to_json (saved x)))) →
  tabs_ok skip itinerary (store_item pid index p dayId items x' st).
Proof.
  intros Htabs Hok Hl [Htr _] Hc.
  apply (tabs_ok_transfer skip itinerary st); try done.
  { apply Forall2_tab_same_refl. }
  intros d Hd Hskip. apply completed_entries_ext. intros i _.
  unfold store_item. simpl.
  destruct (decide (item_key dayId index = item_key (day_id d) i)) as [Heq|Hne].
  - pose proof Heq as Hkey. apply item_key_inj in Heq as [-> ->].
    destruct Hc as [->|Hc]; [done|].
    apply lookup_item_Some in Hl as (Hp & Hb & Hx).
    pose proof (Hok pid p Hp) as Hpok. unfold panel_ok in Hpok.
    rewrite Hb in Hpok. destruct Hpok as [_ Hitems].
    destruct (Hitems i x Hx) as (Hload & _).
    rewrite !persisted_completed_load, load_saved_insert by done.
    by rewrite Hc, Hload.
  - by apply persisted_completed_insert_ne.
Qed.

(** ** The click handlers *)

Lemma item_ok_lookup pid index p dayId items x st :
  panels_ok st →
  lookup_item pid index st = Some (p, dayId, items, x) →
  pid = toString dayId ∧ item_ok (localStorage st) dayId index x.
Proof.
  intros Hok Hl. apply lookup_item_Some in Hl as (Hp & Hb & Hx).
  specialize (Hok pid p Hp). unfold panel_ok in Hok. rewrite Hb in Hok.
  destruct Hok as [? Hitems]. split; [done|]. by apply Hitems.
Qed.

Lemma toggled_item_ok x : saved_ok x → saved_ok (toggled_item x).
Proof.
  intros (Htr & Hprim & Hc). unfold saved_ok, toggled_item. simpl.
  split; [by apply truthy_set_prop|]. split.
  - intros j Hj. destruct (saved x); simplify_eq/=. by apply Hprim.
  - intros m Hm. destruct (saved x); simplify_eq/=.
    by rewrite lookup_insert_eq.
Qed.

Lemma doneBtn_click_eq pid index st p dayId items x :
  lookup_item pid index st = Some (p, dayId, items, x) →
  doneBtn_click pid index st
  = updateDayProgress dayId
      (store_item pid index p dayId items (toggled_item x) st).
Proof. intros Hl. unfold doneBtn_click. by rewrite Hl. Qed.

Lemma doneBtn_click_panels_ok pid index st :
  panels_ok st → panels_ok (doneBtn_click pid index st).
Proof.
  intros Hok.
  destruct (lookup_item pid index st) as [[[[p dayId] items] x]|] eqn:Hl;
    [|by unfold doneBtn_click; rewrite Hl].
  rewrite (doneBtn_click_eq _ _ _ _ _ _ _ Hl).
  destruct (updateDayProgress_frame dayId
              (store_item pid index p dayId items (toggled_item x) st))
    as (_ & _ & _ & Hpanels & Hls & _).
  eapply panels_ok_frame; [exact Hls|exact Hpanels|].
  eapply store_item_panels_ok; [done|exact Hl|].
  apply toggled_item_ok.
  by destruct (item_ok_lookup _ _ _ _ _ _ _ Hok Hl) as (_ & _ & ?).
Qed.

Lemma doneBtn_click_tabs_ok itinerary pid index st :
  NoDup (day_id <$> itinerary) →
  panels_ok st →
  tabs_ok None itinerary st →
  tabs_ok None itinerary (doneBtn_click pid index st).
Proof.
  intros Hnd Hok Htabs.
  destruct (lookup_item pid index st) as [[[[p dayId] items] x]|] eqn:Hl;
    [|by unfold doneBtn_click; rewrite Hl].
  rewrite (doneBtn_click_eq _ _ _ _ _ _ _ Hl).
  apply updateDayProgress_tabs_ok; [done|].
  eapply store_item_tabs_ok; [by apply tabs_ok_weaken|done|exact Hl| |by left].
  apply toggled_item_ok.
  by destruct (item_ok_lookup _ _ _ _ _ _ _ Hok Hl) as (_ & _ & ?).
Qed.

Lemma noteBtn_click_eq pid index note st p dayId items x :
  lookup_item pid index st = Some (p, dayId, items, x) →
  noteBtn_click pid index (Some note) st
  = updateDiary (store_item pid index p dayId items (noted_item x note) st).
Proof. intros Hl. unfold noteBtn_click, noted_item. by rewrite Hl. Qed.

Lemma noted_item_ok x note :
  saved_ok x →
  saved_ok (noted_item x note)
  ∧ completed_of (of_json (to_json (saved (noted_item x note))))
    = completed_of (of_json (to_json (saved x))).
Proof.
  intros (Htr & Hprim & Hc). unfold saved_ok, noted_item.
  case_decide; simpl.
  - split; [split; [by apply truthy_delete_prop|split]|].
    + intros j Hj. destruct (saved x); simplify_eq/=. by apply Hprim.
    + intros m Hm. destruct (saved x) as [|m'|]; simplify_eq/=.
      rewrite lookup_delete_ne by done. by apply Hc.
    + destruct (saved x); simpl; try done.
      unfold completed_of. simpl. by rewrite lookup_delete_ne.
  - split; [split; [by apply truthy_set_prop|split]|].
    + intros j Hj. destruct (saved x); simplify_eq/=. by apply Hprim.
    + intros m Hm. destruct (saved x) as [|m'|]; simplify_eq/=.
      rewrite lookup_insert_ne by done. by apply Hc.
    + destruct (saved x); simpl; try done.
      unfold completed_of. simpl. by rewrite lookup_insert_ne.
Qed.

Lemma noteBtn_click_panels_ok pid index answer st :
  panels_ok st → panels_ok (noteBtn_click pid index answer st).
Proof.
  intros Hok.
  destruct (lookup_item pid index st) as [[[[p dayId] items] x]|] eqn:Hl;
    [|by unfold noteBtn_click; rewrite Hl].
  destruct answer as [note|]; [|by unfold noteBtn_click; rewrite Hl].
  rewrite (noteBtn_click_eq _ _ _ _ _ _ _ _ Hl).
  apply updateDiary_panels_ok.
  destruct (item_ok_lookup _ _ _ _ _ _ _ Hok Hl) as (_ & _ & Hsaved).
  destruct (noted_item_ok x note Hsaved) as (? & _).
  by eapply store_item_panels_ok.
Qed.

Lemma noteBtn_click_tabs_ok itinerary pid index answer st :
  panels_ok st →
  tabs_ok None itinerary st →
  tabs_ok None itinerary (noteBtn_click pid index answer st).
Proof.
  intros Hok Htabs.
  destruct (lookup_item pid index st) as [[[[p dayId] items] x]|] eqn:Hl;
    [|by unfold noteBtn_click; rewrite Hl].
  destruct answer as [note|]; [|by unfold noteBtn_click; rewrite Hl].
  rewrite (noteBtn_click_eq _ _ _ _ _ _ _ _ Hl).
  destruct (item_ok_lookup _ _ _ _ _ _ _ Hok Hl) as (_ & _ & Hsaved).
  destruct (noted_item_ok x note Hsaved) as (Hsaved' & ?).
  set (st1 := store_item pid index p dayId items (noted_item x note) st).
  assert (Hst1 : tabs_ok None itinerary st1).
  { eapply store_item_tabs_ok; [done|done|exact Hl|done|by right]. }
  destruct (updateDiary_frame st1) as (Hit & Hsec & _ & Hts & Hls & _).
  apply (tabs_ok_transfer None itinerary st1); try done.
  - rewrite Hts. apply Forall2_tab_same_refl.
  - intros d _ _. by rewrite Hls.
Qed.

(** ** [createPanel] and [openTab] *)

Lemma init_item_ok ls dayId index :
  item_ok ls dayId index (init_item ls dayId index).
Proof.
  unfold item_ok, saved_ok, init_item. simpl.
  destruct (load_saved_normal ls (item_key dayId index)) as [Hn Ht].
  split; [done|]. split; [done|]. split.
  - intros j Hj. by rewrite Hj in Hn.
  - intros m Hm. by rewrite Hm.
Qed.

Lemma createPanel_frame id st :
  let st' := createPanel id st in
  itineraryData st' = itineraryData st
  ∧ (is_Some (diarySection st') ↔ is_Some (diarySection st))
  ∧ localStorage st' = localStorage st
  ∧ dia st' = dia st
  ∧ focused st' = focused st
  ∧ Forall2 (λ t t', tab_id t' = tab_id t
                     ∧ aria_selected t' = aria_selected t
                     ∧ tabindex t' = tabindex t
                     ∧ tab_active t' = tab_active t)
      (tabs st) (tabs st')
  ∧ ∀ key, key ≠ id → tabPanels st' !! key = tabPanels st !! key.
Proof.
  assert (Hrefl : ∀ ts : list tab,
    Forall2 (λ t t', tab_id t' = tab_id t
                     ∧ aria_selected t' = aria_selected t
                     ∧ tabindex t' = tabindex t
                     ∧ tab_active t' = tab_active t) ts ts).
  { intros ts. apply Forall2_same_length_lookup_2; [done|].
    intros i x y Hx Hy. by simplify_eq. }
  simpl. unfold createPanel. case_decide as Hid.
  - destruct (diarySection st) as [sec|] eqn:Hsec; simpl;
      rewrite ?Hsec; repeat split; try done; try (by eexists);
      intros key Hne; by rewrite lookup_insert_ne.
  - destruct (find_day (itineraryData st) id) as [day|]; simpl.
    + destruct (updateDayProgress_frame (day_id day) st)
        as (? & Hsec & _ & Hpanels & ? & ? & ?).
      rewrite Hsec. repeat split; try done.
      * apply updateDayProgress_tabs.
      * intros key Hne. by rewrite lookup_insert_ne, Hpanels.
    + repeat split; try done.
Qed.

Lemma createPanel_panels_ok id st :
  panels_ok st → panels_ok (createPanel id st).
Proof.
  intros Hok. unfold createPanel. case_decide as Hid.
  - intros pid p. simpl.
    destruct (decide (id = pid)) as [<-|Hne].
    + rewrite lookup_insert_eq. intros [= <-]. done.
    + rewrite lookup_insert_ne by done. intros Hp.
      destruct (diarySection st); simpl in *; by apply Hok.
  - destruct (find_day (itineraryData st) id) as [day|] eqn:Hfind; [|done].
    apply find_day_Some in Hfind as [_ Hday].
    destruct (updateDayProgress_frame (day_id day) st)
      as (_ & _ & _ & Hpanels & Hls & _).
    intros pid p. simpl. rewrite Hls, Hpanels.
    destruct (decide (id = pid)) as [<-|Hne].
    + rewrite lookup_insert_eq. intros [= <-]. unfold panel_ok. simpl.
      split; [done|]. intros index x Hx.
      rewrite list_lookup_imap in Hx.
      apply fmap_Some in Hx as (? & _ & ->). apply init_item_ok.
    + rewrite lookup_insert_ne by done. by apply Hok.
Qed.

Lemma createPanel_tabs_ok itinerary id st :
  NoDup (day_id <$> itinerary) →
  tabs_ok None itinerary st →
  tabs_ok None itinerary (createPanel id st).
Proof.
  intros Hnd Htabs. unfold createPanel. case_decide as Hid.
  - apply (tabs_ok_transfer None itinerary st); try done.
    + by destruct (diarySection st).
    + destruct (diarySection st) eqn:Hsec; simpl; rewrite ?Hsec;
        [split; intros; by eexists|done].
    + destruct (diarySection st); apply Forall2_tab_same_refl.
    + intros d _ _. by destruct (diarySection st).
  - destruct (find_day (itineraryData st) id) as [day|] eqn:Hfind; [|done].
    simpl.
    pose proof (updateDayProgress_tabs_ok itinerary (day_id day) st Hnd
                  (tabs_ok_weaken _ _ _ Htabs)) as Hup.
    done.
Qed.

Lemma openTab_eq id st :
  let st2 := panel_ensured id st in
  openTab id st
  = set_dia (if decide (id = "diary") then None else Some id)
      (set_localStorage
         (if decide (id ≠ "diary")
          then <["lastDay" := id]> (localStorage st2)
          else localStorage st2)
         (set_tabPanels
            (map_imap (λ key p, Some (show_panel id key p)) (tabPanels st2))
            st2)).
Proof.
  simpl. unfold openTab, panel_ensured.
  destruct (tabPanels _ !! id); by repeat case_decide.
Qed.

Lemma panel_ensured_frame id st :
  let st' := panel_ensured id st in
  itineraryData st' = itineraryData st
  ∧ (is_Some (diarySection st') ↔ is_Some (diarySection st))
  ∧ localStorage st' = localStorage st
  ∧ dia st' = dia st
  ∧ focused st' = focused st
  ∧ Forall2 (λ t t', tab_id t' = tab_id t
                   ∧ textContent t' = textContent t)
      (tabs st) (select_tab id <$> tabs st)
  ∧ Forall2 (λ t t', tab_id t' = tab_id t
                   ∧ aria_selected t' = bool_decide (getIdFromTab t = id)
                   ∧ tabindex t' = (if bool_decide (getIdFromTab t = id)
                                   then 0 else -1)%Z
                   ∧ tab_active t' = bool_decide (getIdFromTab t = id))
      (tabs st) (tabs st').
Proof.
  simpl. unfold panel_ensured.
  set (st1 := set_tabs (select_tab id <$> tabs st) st).
  assert (Hsel : ∀ P : tab → tab → Prop,
            (∀ t, P t (select_tab id t)) →
            Forall2 P (tabs st) (select_tab id <$> tabs st)).
  { intros P HP. induction (tabs st); by constructor. }
  destruct (tabPanels st1 !! id) eqn:Hp.
  - split_and!; try done; by apply Hsel.
  - destruct (createPanel_frame id st1) as (? & ? & ? & ? & ? & Hts & _).
    split_and!; try done; [by apply Hsel|].
    apply Forall2_same_length_lookup_2.
    { rewrite <- (Forall2_length _ _ _ Hts). simpl. by rewrite length_fmap. }
    intros i x z Hx Hz.
    destruct (Forall2_lookup_r _ _ _ _ _ Hts Hz) as (y & Hy & ? & ? & ? & ?).
    simpl in Hy. rewrite list_lookup_fmap, Hx in Hy. simplify_eq/=.
    repeat split; congruence.
Qed.

Lemma panel_ensured_panels_ok id st :
  panels_ok st → panels_ok (panel_ensured id st).
Proof.
  intros Hok. unfold panel_ensured.
  destruct (tabPanels _ !! id); [done|]. by apply createPanel_panels_ok.
Qed.

Lemma panel_ensured_tabs_ok itinerary id st :
  NoDup (day_id <$> itinerary) →
  tabs_ok None itinerary st →
  tabs_ok None itinerary (panel_ensured id st).
Proof.
  intros Hnd Htabs.
  destruct (panel_ensured_frame id st) as (_ & _ & _ & _ & _ & Hsel & _).
  assert (Hst1 : tabs_ok None itinerary
                   (set_tabs (select_tab id <$> tabs st) st)).
  { by apply (tabs_ok_transfer None itinerary st). }
  unfold panel_ensured. destruct (tabPanels _ !! id); [done|].
  by apply createPanel_tabs_ok.
Qed.

Lemma openTab_panels_ok id st : panels_ok st → panels_ok (openTab id st).
Proof.
  intros Hok. rewrite openTab_eq. simpl.
  pose proof (panel_ensured_panels_ok id st Hok) as Hok2.
  intros pid p'. simpl. rewrite map_lookup_imap. intros Hp'.
  apply bind_Some in Hp' as (p & Hp & [= <-]).
  eapply (panel_ok_ext (localStorage (panel_ensured id st)) _ _ p);
    [|by unfold show_panel; case_decide|by apply Hok2].
  intros d its j _. case_decide; [|done].
  apply load_saved_insert_ne. intros Heq. symmetry in Heq.
  by apply item_key_ne_lastDay in Heq.
Qed.

Lemma openTab_tabs_ok itinerary id st :
  NoDup (day_id <$> itinerary) →
  tabs_ok None itinerary st →
  tabs_ok None itinerary (openTab id st).
Proof.
  intros Hnd Htabs. rewrite openTab_eq. simpl.
  apply (tabs_ok_transfer None itinerary (panel_ensured id st)); try done.
  - by apply panel_ensured_tabs_ok.
  - apply Forall2_tab_same_refl.
  - intros d _ _. simpl. case_decide; [|done].
    apply completed_entries_ext. intros i _.
    apply persisted_completed_insert_ne. intros Heq. symmetry in Heq.
    by apply item_key_ne_lastDay in Heq.
Qed.

Lemma handleTabKeyNav_cases key target st :
  handleTabKeyNav key target st = st
  ∨ ∃ id fo, handleTabKeyNav key target st = openTab id (set_focused fo st).
Proof.
  unfold handleTabKeyNav. case_bool_decide; [by left|].
  case_bool_decide.
  - destruct (target ≫= _) as [t|]; [|by left].
    right. exists (getIdFromTab t), (focused st). by destruct st.
  - destruct (nav_index _ _ _) as [newIndex|]; [|by left].
    destruct (tabs st !! _) as [t|]; [|by left].
    right. by eexists _, _.
Qed.

Lemma handleTabKeyNav_panels_ok key target st :
  panels_ok st → panels_ok (handleTabKeyNav key target st).
Proof.
  intros Hok.
  destruct (handleTabKeyNav_cases key target st) as [->|(id & fo & ->)];
    [done|].
  by apply openTab_panels_ok.
Qed.

Lemma handleTabKeyNav_tabs_ok itinerary key target st :
  NoDup (day_id <$> itinerary) →
  tabs_ok None itinerary st →
  tabs_ok None itinerary (handleTabKeyNav key target st).
Proof.
  intros Hnd Htabs.
  destruct (handleTabKeyNav_cases key target st) as [->|(id & fo & ->)];
    [done|].
  by apply openTab_tabs_ok.
Qed.

Lemma item_key_ne_theme (d : N) (i : nat) : item_key d i ≠ "theme".
Proof. unfold item_key. simpl. discriminate. Qed.

Lemma themeToggle_click_panels_ok theme st :
  panels_ok st → panels_ok (themeToggle_click theme st).
Proof.
  intros Hok pid p Hp. simpl in *.
  eapply (panel_ok_ext (localStorage st) _ _ p); [|done|by apply Hok].
  intros d its j _. apply load_saved_insert_ne. intros Heq. symmetry in Heq.
  by apply item_key_ne_theme in Heq.
Qed.

Lemma themeToggle_click_tabs_ok itinerary theme st :
  tabs_ok None itinerary st →
  tabs_ok None itinerary (themeToggle_click theme st).
Proof.
  intros Htabs. apply (tabs_ok_transfer None itinerary st); try done.
  - apply Forall2_tab_same_refl.
  - intros d _ _. simpl. apply completed_entries_ext. intros i _.
    apply persisted_completed_insert_ne. intros Heq. symmetry in Heq.
    by apply item_key_ne_theme in Heq.
Qed.

(** ** The start of the page *)

Lemma buildTabs_frame itinerary section st :
  let st' := buildTabs itinerary section st in
  itineraryData st' = itinerary
  ∧ diarySection st' = section
  ∧ diary_attached st' = diary_attached st
  ∧ tabPanels st' = ∅
  ∧ localStorage st' = localStorage st
  ∧ dia st' = dia st
  ∧ focused st' = focused st.
Proof.
  simpl. unfold buildTabs.
  set (st0 := set_diarySection section _).
  assert (Hfold : ∀ days s,
    let s' := foldl (λ s d,
                updateDayProgress (day_id d)
                  (set_tabs (tabs s ++ [new_tab (toString (day_id d))
                                          (BaseLabel (day_id d))]) s))
                s days in
    itineraryData s' = itineraryData s
    ∧ diarySection s' = diarySection s
    ∧ diary_attached s' = diary_attached s
    ∧ tabPanels s' = tabPanels s
    ∧ localStorage s' = localStorage s
    ∧ dia s' = dia s
    ∧ focused s' = focused s).
  { induction days as [|d days IH]; intros s; simpl; [done|].
    destruct (IH (updateDayProgress (day_id d)
                    (set_tabs (tabs s ++ [new_tab (toString (day_id d))
                                            (BaseLabel (day_id d))]) s)))
      as (-> & -> & -> & -> & -> & -> & ->).
    destruct (updateDayProgress_frame (day_id d)
                (set_tabs (tabs s ++ [new_tab (toString (day_id d))
                                        (BaseLabel (day_id d))]) s))
      as (-> & -> & -> & -> & -> & -> & ->).
    done. }
  destruct (Hfold itinerary st0) as (? & ? & ? & ? & ? & ? & ?).
  destruct section; simpl; done.
Qed.

Lemma buildTabs_tabs_ok itinerary section st :
  NoDup (day_id <$> itinerary) →
  tabs_ok None itinerary (buildTabs itinerary section st).
Proof.
  intros Hnd.
  destruct (buildTabs_frame itinerary section st)
    as (Hit & Hsec & _ & _ & Hls & _).
  split; [done|]. rewrite Hls, Hsec. clear Hit Hsec Hls.
  unfold buildTabs.
  set (st0 := set_diarySection section _).
  set (body := λ s d,
         updateDayProgress (day_id d)
           (set_tabs (tabs s ++ [new_tab (toString (day_id d))
                                   (BaseLabel (day_id d))]) s)).
  assert (Hfold : ∀ rest seen s,
    itinerary = seen ++ rest →
    itineraryData s = itinerary →
    localStorage s = localStorage st →
    Forall2 (day_tab (localStorage st) None) seen (tabs s) →
    Forall2 (day_tab (localStorage st) None) itinerary
      (tabs (foldl body s rest))).
  { induction rest as [|d rest IH]; intros seen s Hsplit Hit Hls Hseen; simpl.
    { by rewrite Hsplit, app_nil_r. }
    assert (Hd : d ∈ itinerary).
    { rewrite Hsplit. apply elem_of_app. right. by left. }
    assert (Hbody : itineraryData (body s d) = itinerary
                    ∧ localStorage (body s d) = localStorage st).
    { unfold body.
      destruct (updateDayProgress_frame (day_id d)
                  (set_tabs (tabs s ++ [new_tab (toString (day_id d))
                                          (BaseLabel (day_id d))]) s))
        as (-> & _ & _ & _ & -> & _). done. }
    destruct Hbody as [Hit' Hls'].
    apply (IH (seen ++ [d])); [by rewrite <- app_assoc|done|done|].
    unfold body, updateDayProgress. simpl. rewrite Hit.
    destruct (find_day_is_Some itinerary d Hd) as [d' Hfind].
    rewrite Hfind. simpl.
    apply find_day_Some in Hfind as [Hd' Hid]. apply (inj toString) in Hid.
    assert (d' = d) as -> by by apply (NoDup_day_id_eq itinerary).
    rewrite Hls. apply update_day_tabs.
    - rewrite Hsplit in Hnd.
      replace (seen ++ d :: rest) with ((seen ++ [d]) ++ rest) in Hnd
        by (by rewrite <- app_assoc).
      rewrite fmap_app in Hnd. by apply NoDup_app in Hnd as [? _].
    - intros d0 Hd0 Heq. apply (NoDup_day_id_eq itinerary); [done| |done|done].
      rewrite Hsplit.
      replace (seen ++ d :: rest) with ((seen ++ [d]) ++ rest)
        by (by rewrite <- app_assoc).
      apply elem_of_app. by left.
    - apply Forall2_app.
      + eapply Forall2_impl; [exact Hseen|]. intros ??. apply day_tab_weaken.
      + constructor; [|constructor]. split; [done|]. by intros []. }
  specialize (Hfold itinerary [] st0 eq_refl eq_refl eq_refl).
  specialize (Hfold ltac:(constructor)).
  destruct section; simpl.
  - eexists _, _. split; [done|]. split; [done|]. by repeat constructor.
  - eexists _, []. split; [by rewrite app_nil_r|]. split; [done|constructor].
Qed.

Lemma main_invariants itinerary section ls url_dia :
  panels_ok (main itinerary section ls url_dia)
  ∧ (NoDup (day_id <$> itinerary) →
     tabs_ok None itinerary (main itinerary section ls url_dia)).
Proof.
  unfold main, restoreLastDay. split.
  - apply openTab_panels_ok. intros pid p.
    destruct (buildTabs_frame itinerary section
                (updateDiary
                   (loaded_page section ls url_dia)))
      as (_ & _ & _ & -> & _). by rewrite lookup_empty.
  - intros Hnd. apply openTab_tabs_ok; [done|]. by apply buildTabs_tabs_ok.
Qed.

(** The invariants hold in every state the page can reach. *)
Lemma reachable_panels_ok itinerary section ls url_dia st :
  reachable itinerary section ls url_dia st → panels_ok st.
Proof.
  induction 1 as [|e st _ IH].
  - apply main_invariants.
  - destruct e; simpl.
    + by apply openTab_panels_ok.
    + by apply doneBtn_click_panels_ok.
    + by apply noteBtn_click_panels_ok.
    + by apply handleTabKeyNav_panels_ok.
    + by apply themeToggle_click_panels_ok.
Qed.

Lemma reachable_tabs_ok itinerary section ls url_dia st :
  NoDup (day_id <$> itinerary) →
  reachable itinerary section ls url_dia st →
  tabs_ok None itinerary st.
Proof.
  intros Hnd Hreach.
  pose proof (reachable_panels_ok _ _ _ _ _ Hreach) as Hok.
  induction Hreach as [|e st Hreach IH].
  - by apply main_invariants.
  - pose proof (reachable_panels_ok _ _ _ _ _ Hreach) as Hok'.
    destruct e; simpl.
    + apply openTab_tabs_ok; [done|]. by apply IH.
    + apply doneBtn_click_tabs_ok; [done|done|]. by apply IH.
    + apply noteBtn_click_tabs_ok; [done|]. by apply IH.
    + apply handleTabKeyNav_tabs_ok; [done|]. by apply IH.
    + apply themeToggle_click_tabs_ok. by apply IH.
Qed.

(** ** Progress on the tabs *)

Lemma getIdFromTab_tab (t : tab) (id : string) :
  tab_id t = "tab-" +:+ id → getIdFromTab t = id.
Proof.
  intros Hid. unfold getIdFromTab. rewrite Hid.
  rewrite decide_False by done. by rewrite strip_prefix_app.
Qed.

Lemma displayed_progress_label dayId count total :
  match displayed_progress (progress_label dayId count total) with
  | Some q =>
      0 < total
      ∧ (q == inject_Z (Z.of_nat count) / inject_Z (Z.of_nat total))%Q
  | None => total = 0
  end.
Proof.
  unfold progress_label. case_bool_decide as Htotal; simpl; [|lia].
  case_bool_decide as Hcount; simpl.
  - split; [done|]. subst count. symmetry. apply Qmult_inv_r.
    intros Hq. unfold Qeq in Hq. simpl in Hq. lia.
  - split; [done|]. reflexivity.
Qed.

Lemma tabs_ok_progress_shown itinerary st :
  tabs_ok None itinerary st → progress_shown itinerary st.
Proof.
  intros (_ & dts & rest & Hts & Hdts & _) i d Hd.
  destruct (Forall2_lookup_l _ _ _ _ _ Hdts Hd) as (t & Ht & Hid & Hl).
  exists t. split.
  { rewrite Hts. by apply lookup_app_l_Some. }
  split; [by apply getIdFromTab_tab|].
  specialize (Hl ltac:(done)). unfold label_ok in Hl.
  split; [done|]. rewrite Hl. apply displayed_progress_label.
Qed.


(** ** Toggling an item *)

Lemma doneBtn_click_item pid index st p dayId items x :
  lookup_item pid index st = Some (p, dayId, items, x) →
  let st' := doneBtn_click pid index st in
  lookup_item pid index st'
  = Some (set_body (DayBody dayId (<[index := toggled_item x]> items)) p,
          dayId, <[index := toggled_item x]> items, toggled_item x)
  ∧ localStorage st'
    = <[item_key dayId index
        := JSON_stringify (to_json (saved (toggled_item x)))]>
        (localStorage st).
Proof.
  intros Hl. simpl. rewrite (doneBtn_click_eq _ _ _ _ _ _ _ Hl).
  destruct (updateDayProgress_frame dayId
              (store_item pid index p dayId items (toggled_item x) st))
    as (_ & _ & _ & Hpanels & Hls & _).
  split; [|by rewrite Hls].
  apply lookup_item_Some. rewrite Hpanels. simpl.
  rewrite lookup_insert_eq. split; [done|]. split; [done|].
  apply lookup_item_Some in Hl as (_ & _ & Hx).
  apply list_lookup_insert_eq. by eapply lookup_lt_Some.
Qed.



(** One click does change what is displayed. *)
Lemma toggle_once pid index st p dayId items x :
  lookup_item pid index st = Some (p, dayId, items, x) →
  ∃ p1 items1 x1,
    lookup_item pid index (doneBtn_click pid index st)
    = Some (p1, dayId, items1, x1)
    ∧ li_completed x1 = negb (li_completed x).
Proof.
  intros Hl. destruct (doneBtn_click_item _ _ _ _ _ _ _ Hl) as [Hl1 _].
  by eexists _, _, _.
Qed.

(** ** The diary *)

Lemma stored_note_load ls key :
  stored_note ls key
  = note ← note_of (load_saved ls key);
    if truthy note then Some note else None.
Proof.
  unfold stored_note, load_saved, note_of, try_catch.
  destruct (ls !! key) as [text|]; simpl; [|done].
  destruct (JSON_parse text) as [j|]; simpl; [|done].
  unfold or_empty, json_prop. destruct (truthy j) eqn:Hj; [done|].
  by destruct j.
Qed.

Lemma key_day_startsWith key :
  is_Some (key_day key) → startsWith key "day-" = true.
Proof.
  unfold key_day, match_item_key, startsWith. intros [n Hn].
  apply bool_decide_eq_true.
  destruct (strip_prefix "day-" key); [by eexists|done].
Qed.

(** One turn of the loop adds the entry of a key of the diary, and nothing
    for any other key. *)
Lemma collect_entry_spec ls entries key text :
  ls !! key = Some text →
  collect_entry entries (key, text)
  = if decide (in_diary ls key) then entries ++ [entry_of_key ls key]
    else entries.
Proof.
  intros Hkey.
  assert (Hnote : stored_note ls key
                  = data ← JSON_parse text;
                    note ← json_prop data "note";
                    if truthy note then Some note else None).
  { unfold stored_note. by rewrite Hkey. }
  destruct (decide (in_diary ls key)) as [[Hday [note Hn]]|Hnot].
  - unfold collect_entry, entry_of_key.
    rewrite (key_day_startsWith _ Hday). simpl.
    rewrite Hn. rewrite Hnote in Hn.
    destruct (JSON_parse text) as [data|]; simpl in *; [|done].
    destruct (json_prop data "note") as [note'|] eqn:Hprop; simpl in *; [|done].
    destruct (truthy note') eqn:Htruthy; [|done]. simplify_eq.
    assert (Hdata : truthy data = true).
    { destruct data; try done; by simplify_eq/=. }
    rewrite Hdata. simpl. unfold key_day in *.
    destruct (match_item_key key) as [[d i]|]; [done|].
    by destruct Hday.
  - unfold collect_entry.
    destruct (startsWith key "day-"); simpl; [|done].
    destruct (JSON_parse text) as [data|] eqn:Hparse; simpl in *; [|done].
    destruct (truthy data && truthy_opt (json_prop data "note")) eqn:Hcond;
      [|done].
    destruct (match_item_key key) as [[d i]|] eqn:Hmatch; [|done].
    exfalso. apply Hnot. split.
    + unfold key_day. rewrite Hmatch. by eexists.
    + rewrite Hnote. apply andb_true_iff in Hcond as [_ Hcond].
      destruct (json_prop data "note") as [note|]; simpl in *; [|done].
      rewrite Hcond. by eexists.
Qed.


#[global] Instance entry_le_total : Total entry_le.
Proof. intros a b. unfold entry_le. lia. Qed.




(** While the section is out of the document [updateDiary] does nothing:
    [getElementById] does not find it.  This is the state of the page from
    its start until the panel of the diary is built. *)
Lemma updateDiary_detached st :
  diary_attached st = false → updateDiary st = st.
Proof.
  intros Hatt. unfold updateDiary. rewrite Hatt. by destruct (diarySection st).
Qed.

Lemma main_diary_detached section ls url_dia :
  updateDiary (loaded_page section ls url_dia)
  = loaded_page section ls url_dia.
Proof. by apply updateDiary_detached. Qed.

(** ** Setting a note *)

Lemma noteBtn_click_store pid index note st p dayId items x :
  lookup_item pid index st = Some (p, dayId, items, x) →
  localStorage (noteBtn_click pid index (Some note) st)
  = <[item_key dayId index
      := JSON_stringify (to_json (saved (noted_item x note)))]>
      (localStorage st).
Proof.
  intros Hl. rewrite (noteBtn_click_eq _ _ _ _ _ _ _ _ Hl).
  by destruct (updateDiary_frame
                 (store_item pid index p dayId items (noted_item x note) st))
    as (_ & _ & _ & _ & -> & _).
Qed.

Lemma not_in_diary_without_note ls key :
  note_of (load_saved ls key) = None → ¬ in_diary ls key.
Proof.
  intros Hnote [_ [note Hn]]. rewrite stored_note_load, Hnote in Hn. done.
Qed.


(** ** Activation and the URL *)

Lemma openTab_dia id st :
  dia (openTab id st) = if decide (id = "diary") then None else Some id.
Proof. by rewrite openTab_eq. Qed.

Lemma openTab_localStorage id st :
  localStorage (openTab id st)
  = if decide (id ≠ "diary") then <["lastDay" := id]> (localStorage st)
    else localStorage st.
Proof.
  rewrite openTab_eq. simpl.
  by destruct (panel_ensured_frame id st) as (_ & _ & -> & _).
Qed.

Lemma openTab_day_dia (dayId : N) st :
  dia (openTab (toString dayId) st) = Some (toString dayId).
Proof.
  rewrite openTab_dia.
  case_decide as Heq; [|done]. by apply toString_ne_diary in Heq.
Qed.

(** C5: activating a day sets the query parameter [dia] of the URL to the
    id of the day; activating the diary removes the parameter. *)
Theorem openTab_url (st : state) :
  (∀ dayId : N, dia (openTab (toString dayId) st) = Some (toString dayId))
  ∧ dia (openTab "diary" st) = None.
Proof.
  split; [intros dayId; apply openTab_day_dia|by rewrite openTab_dia].
Qed.

(** The click on the tab of a day is such an activation. *)
Lemma tab_click_url itinerary section ls url_dia st i d :
  NoDup (day_id <$> itinerary) →
  reachable itinerary section ls url_dia st →
  itinerary !! i = Some d →
  ∃ t, tabs st !! i = Some t
       ∧ dia (openTab (getIdFromTab t) st) = Some (toString (day_id d)).
Proof.
  intros Hnd Hreach Hd.
  destruct (tabs_ok_progress_shown _ _
              (reachable_tabs_ok _ _ _ _ _ Hnd Hreach) i d Hd)
    as (t & Ht & Hid & _).
  exists t. split; [done|]. rewrite Hid. apply openTab_day_dia.
Qed.

(** ** The first activation *)

Lemma main_eq itinerary section ls url_dia :
  let built :=
    buildTabs itinerary section
      (updateDiary (loaded_page section ls url_dia)) in
  main itinerary section ls url_dia
  = openTab (restored_id itinerary built) built
  ∧ dia built = url_dia
  ∧ localStorage built = ls.
Proof.
  simpl. split; [done|].
  destruct (buildTabs_frame itinerary section
              (updateDiary (loaded_page section ls url_dia)))
    as (_ & _ & _ & _ & Hls & Hdia & _).
  destruct (updateDiary_frame (loaded_page section ls url_dia))
    as (_ & _ & _ & _ & Hls' & Hdia' & _).
  by rewrite Hls, Hdia, Hls', Hdia'.
Qed.

(** C6, as the code has it: on initialization the page activates the id
    that is the value of the URL parameter [dia] if the parameter is
    present, else the persisted last day; when this leaves no id or the
    empty id, it is the id of the first day of a non-empty itinerary, else
    the diary.  In particular, with nothing persisted and no URL parameter
    the first day is activated. *)
Theorem initial_activation itinerary section ls url_dia :
  let built :=
    buildTabs itinerary section
      (updateDiary (loaded_page section ls url_dia)) in
  let activated id := main itinerary section ls url_dia = openTab id built in
  let fallback :=
    match itinerary with
    | d :: _ => toString (day_id d)
    | [] => "diary"
    end in
  (∀ id, url_dia = Some id → id ≠ "" → activated id)
  ∧ (∀ id, url_dia = None → ls !! "lastDay" = Some id → id ≠ "" →
       activated id)
  ∧ (url_dia = Some "" → activated fallback)
  ∧ (url_dia = None → ls !! "lastDay" = Some "" → activated fallback)
  ∧ (url_dia = None → ls !! "lastDay" = None → activated fallback)
  ∧ (∀ d rest, url_dia = None → ls !! "lastDay" = None →
       itinerary = d :: rest → activated (toString (day_id d))).
Proof.
  simpl. destruct (main_eq itinerary section ls url_dia) as (-> & Hdia & Hls).
  unfold restored_id. rewrite Hdia, Hls.
  split_and!.
  - intros id -> Hid. by rewrite bool_decide_eq_true_2.
  - intros id -> -> Hid. by rewrite bool_decide_eq_true_2.
  - by intros ->.
  - by intros -> ->.
  - by intros -> ->.
  - by intros d rest -> -> ->.
Qed.

(** ** Items without a readable state *)

(** C7: when the persisted value of an item is absent or does not parse,
    the item is recovered in the default state, an object without
    [completed] and without [note], exactly as if nothing were stored:
    the new list item is not completed and shows no note, the progress
    count of its day does not count it, and a diary aggregation has no
    entry for it.  All of these are results of total functions: the
    failure of [JSON.parse] stops at the [catch] around it. *)
Theorem unreadable_item_default ls dayId index :
  let key := item_key dayId index in
  ls !! key = None
  ∨ (∃ text, ls !! key = Some text ∧ JSON_parse text = None) →
  load_saved ls key = Obj ∅
  ∧ load_saved ls key = load_saved (delete key ls) key
  ∧ completed_of (load_saved ls key) = false
  ∧ note_of (load_saved ls key) = None
  ∧ init_item ls dayId index
    = {| li_completed := false; saved := Obj ∅; noteDisplay := NoteHidden |}
  ∧ (∀ completed, count_item ls dayId completed index = completed)
  ∧ persisted_completed ls dayId index = false
  ∧ (∀ entries text, ls !! key = Some text →
       collect_entry entries (key, text) = entries)
  ∧ ¬ in_diary ls key.
Proof.
  cbv zeta. intros Hkey.
  assert (Hload : load_saved ls (item_key dayId index) = Obj ∅).
  { destruct Hkey as [Hkey|(text & Hkey & Hparse)].
    - by apply load_saved_absent.
    - by eapply load_saved_unparseable. }
  assert (Hnot : ¬ in_diary ls (item_key dayId index)).
  { apply not_in_diary_without_note. by rewrite Hload. }
  split_and!; try done.
  - rewrite Hload. symmetry. apply load_saved_absent, lookup_delete_eq.
  - by rewrite Hload.
  - by rewrite Hload.
  - unfold init_item. by rewrite Hload.
  - intros completed. by rewrite count_item_load, Hload.
  - by rewrite persisted_completed_load, Hload.
  - intros entries text Htext.
    rewrite (collect_entry_spec ls) by done. by rewrite decide_False.
Qed.

(** ** The persisted last day *)

Lemma last_day_diary id st :
  localStorage (openTab id st) !! "lastDay"
  = if decide (id = "diary") then localStorage st !! "lastDay" else Some id.
Proof.
  rewrite openTab_localStorage. case_decide as Hid.
  - rewrite decide_False by done. apply lookup_insert_eq.
  - rewrite decide_True; [done|]. by destruct (decide (id = "diary")).
Qed.

(** C10: activating the diary leaves the persisted [lastDay] as it is;
    after any sequence of activations [lastDay] is the id of the last
    activation that was not the diary (the value it had before when there
    is none), and it is never [diary] unless it was so before. *)
Theorem last_day_persisted (st : state) (ids : list string) :
  let st' := foldl (λ s id, openTab id s) st ids in
  localStorage (openTab "diary" st) !! "lastDay"
  = localStorage st !! "lastDay"
  ∧ localStorage st' !! "lastDay"
    = match last (filter (λ id, id ≠ "diary") ids) with
      | Some id => Some id
      | None => localStorage st !! "lastDay"
      end
  ∧ (localStorage st !! "lastDay" ≠ Some "diary" →
     localStorage st' !! "lastDay" ≠ Some "diary").
Proof.
  cbv zeta. split; [by rewrite last_day_diary|].
  assert (Hlast :
    localStorage (foldl (λ s id, openTab id s) st ids) !! "lastDay"
    = match last (filter (λ id, id ≠ "diary") ids) with
      | Some id => Some id
      | None => localStorage st !! "lastDay"
      end).
  { induction ids as [|id ids IH] using rev_ind; [done|].
    rewrite foldl_app. cbn [foldl]. rewrite last_day_diary.
    rewrite filter_app. case_decide as Hid.
    - rewrite filter_cons_False, filter_nil, app_nil_r by (by intros []).
      exact IH.
    - rewrite filter_cons_True, filter_nil by done. by rewrite last_snoc. }
  split; [done|]. intros Hne. rewrite Hlast.
  destruct (last _) as [id|] eqn:Hid; [|done].
  apply last_Some_elem_of, list_elem_of_filter in Hid as [Hid _]. congruence.
Qed.

(** ** Activation: the selected tab and the panel shown *)

Lemma tabs_ok_ids itinerary st :
  tabs_ok None itinerary st →
  getIdFromTab <$> tabs st = tab_ids itinerary (diarySection st).
Proof.
  intros (_ & dts & rest & -> & Hdts & Hrest). unfold tab_ids.
  rewrite fmap_app. f_equal.
  - induction Hdts as [|d t days ts [Hid _] _ IH]; [done|].
    rewrite !fmap_cons, IH. f_equal. by apply getIdFromTab_tab.
  - induction Hrest as [|x t xs ts Hid _ IH]; [done|].
    rewrite !fmap_cons, IH. f_equal. by apply getIdFromTab_tab.
Qed.

Lemma tab_ids_NoDup itinerary section :
  NoDup (day_id <$> itinerary) → NoDup (tab_ids itinerary section).
Proof.
  intros Hnd. unfold tab_ids. apply NoDup_app. split_and!.
  - rewrite (list_fmap_compose day_id toString). by apply (NoDup_fmap_2 _).
  - intros id Hday Hdiary.
    apply list_elem_of_fmap in Hday as (d & -> & _).
    apply list_elem_of_fmap in Hdiary as (? & Heq & _).
    by apply toString_ne_diary in Heq.
  - destruct section; simpl; [apply NoDup_singleton|apply NoDup_nil_2].
Qed.

Lemma selected_count_filter (P : tab → Prop) `{!∀ t, Decision (P t)}
    (ts ts' : list tab) :
  Forall2 (λ t t', aria_selected t' = bool_decide (P t)) ts ts' →
  length (filter (λ t, aria_selected t = true) ts') = length (filter P ts).
Proof.
  induction 1 as [|t t' ts ts' Ht _ IH]; [done|].
  destruct (decide (P t)) as [HP|HP].
  - rewrite !filter_cons_True; [simpl; by rewrite IH|done|].
    rewrite Ht. by apply bool_decide_eq_true_2.
  - rewrite !filter_cons_False; [done|done|].
    rewrite Ht, bool_decide_eq_false_2 by done. done.
Qed.

Lemma filter_eq_length {A B} `{!EqDecision B} (f : A → B) (l : list A) y :
  NoDup (f <$> l) →
  length (filter (λ x, f x = y) l) = if decide (y ∈ f <$> l) then 1 else 0.
Proof.
  induction l as [|x l IH]; intros Hnd; [done|].
  rewrite fmap_cons in Hnd. apply NoDup_cons in Hnd as [Hx Hnd].
  rewrite fmap_cons. specialize (IH Hnd).
  destruct (decide (f x = y)) as [<-|Hne].
  - rewrite filter_cons_True by done. simpl. rewrite IH.
    rewrite decide_False by done. rewrite decide_True; [done|by left].
  - rewrite filter_cons_False by done. rewrite IH.
    destruct (decide (y ∈ f <$> l)) as [Hin|Hnin].
    + rewrite decide_True; [done|by right].
    + rewrite decide_False; [done|].
      intros [?|?]%elem_of_cons; [congruence|done].
Qed.

Lemma openTab_tabs id st :
  tabs (openTab id st) = tabs (panel_ensured id st).
Proof. by rewrite openTab_eq. Qed.

Lemma openTab_selected_count id st :
  NoDup (getIdFromTab <$> tabs st) →
  selected_count (openTab id st)
  = if decide (id ∈ getIdFromTab <$> tabs st) then 1 else 0.
Proof.
  intros Hnd. unfold selected_count. rewrite openTab_tabs.
  destruct (panel_ensured_frame id st) as (_ & _ & _ & _ & _ & _ & Hsel).
  rewrite (selected_count_filter (λ t, getIdFromTab t = id) (tabs st)).
  - by apply filter_eq_length.
  - eapply Forall2_impl; [exact Hsel|]. by intros t t' (_ & ? & _).
Qed.

Lemma openTab_tabPanels id st key :
  tabPanels (openTab id st) !! key
  = show_panel id key <$> tabPanels (panel_ensured id st) !! key.
Proof.
  rewrite openTab_eq. simpl. rewrite map_lookup_imap.
  by destruct (tabPanels (panel_ensured id st) !! key).
Qed.

Lemma openTab_hides_others id st key p :
  key ≠ id → tabPanels (openTab id st) !! key = Some p →
  panel_hidden p = true ∧ panel_active p = false.
Proof.
  intros Hne. rewrite openTab_tabPanels. intros (q & _ & ->)%fmap_Some.
  unfold show_panel. by rewrite decide_False.
Qed.

Lemma panel_ensured_exists id st :
  id = "diary" ∨ is_Some (find_day (itineraryData st) id) →
  is_Some (tabPanels (panel_ensured id st) !! id).
Proof.
  intros Hid. unfold panel_ensured.
  set (st1 := set_tabs (select_tab id <$> tabs st) st).
  destruct (tabPanels st1 !! id) eqn:Hp; [by rewrite Hp|].
  unfold createPanel. case_decide as Hdiary.
  - simpl. rewrite lookup_insert_eq. by eexists.
  - destruct Hid as [?|[day Hday]]; [done|]. simpl. rewrite Hday. simpl.
    rewrite lookup_insert_eq. by eexists.
Qed.

(** C8, as the code has it: when the id is the id of a tab (a day of the
    itinerary, or [diary] on a page with a diary section) then after
    [openTab] exactly one tab is marked selected and the panel of that id
    is shown while every other panel is hidden.  For an id that matches no
    tab, no tab is marked selected; every panel stored under another key
    is hidden whatever the id. *)
Theorem activation_exclusive itinerary section ls url_dia st id :
  NoDup (day_id <$> itinerary) →
  reachable itinerary section ls url_dia st →
  (id ∈ getIdFromTab <$> tabs st →
     selected_count (openTab id st) = 1
     ∧ only_panel_shown id (openTab id st))
  ∧ (id ∉ getIdFromTab <$> tabs st → selected_count (openTab id st) = 0)
  ∧ (∀ key p, key ≠ id → tabPanels (openTab id st) !! key = Some p →
       panel_hidden p = true ∧ panel_active p = false).
Proof.
  intros Hnd Hreach.
  pose proof (reachable_tabs_ok _ _ _ _ _ Hnd Hreach) as Htabs.
  pose proof (tabs_ok_ids _ _ Htabs) as Hids.
  assert (Hndt : NoDup (getIdFromTab <$> tabs st)).
  { rewrite Hids. by apply tab_ids_NoDup. }
  split_and!.
  - intros Hin. split.
    { rewrite openTab_selected_count by done. by rewrite decide_True. }
    split; [|apply openTab_hides_others].
    destruct (panel_ensured_exists id st) as [p Hp].
    { rewrite Hids in Hin. unfold tab_ids in Hin.
      apply elem_of_app in Hin as [Hin|Hin].
      - right. apply list_elem_of_fmap in Hin as (d & -> & Hd).
        destruct Htabs as [-> _]. by apply find_day_is_Some.
      - left. by apply list_elem_of_fmap in Hin as (? & -> & _). }
    exists (show_panel id id p). rewrite openTab_tabPanels, Hp.
    split; [done|]. unfold show_panel. by rewrite decide_True.
  - intros Hnotin. rewrite openTab_selected_count by done.
    by rewrite decide_False.
  - apply openTab_hides_others.
Qed.

(** ** Keyboard navigation *)

Lemma openTab_focused id st : focused (openTab id st) = focused st.
Proof.
  rewrite openTab_eq. simpl.
  by destruct (panel_ensured_frame id st) as (_ & _ & _ & _ & -> & _).
Qed.

Lemma openTab_selects fo st j t :
  NoDup (getIdFromTab <$> tabs st) →
  tabs st !! j = Some t →
  let st' := openTab (getIdFromTab t) (set_focused fo st) in
  focused st' = fo ∧ selects j st'.
Proof.
  intros Hnd Hj. cbv zeta. split; [by rewrite openTab_focused|].
  intros k t' Hk. rewrite openTab_tabs in Hk.
  destruct (panel_ensured_frame (getIdFromTab t) (set_focused fo st))
    as (_ & _ & _ & _ & _ & _ & Hsel).
  destruct (Forall2_lookup_r _ _ _ _ _ Hsel Hk) as (t0 & Hk0 & _ & -> & _).
  simpl in Hk0. apply bool_decide_ext. split.
  - intros Heq. eapply NoDup_lookup; [exact Hnd| |].
    + by rewrite list_lookup_fmap, Hk0.
    + rewrite list_lookup_fmap, Hj. simpl. congruence.
  - intros ->. congruence.
Qed.

Lemma currentIndex_lt (ts : list tab) (i : nat) :
  currentIndex ts = Z.of_nat i → i < length ts.
Proof.
  unfold currentIndex.
  destruct (list_find _ ts) as [[i' t]|] eqn:Hfind; simpl; [|lia].
  intros Hi. apply list_find_Some in Hfind as (Ht & _).
  apply lookup_lt_Some in Ht. lia.
Qed.

Lemma clamp_index_range (newIndex len : Z) :
  (0 ≤ newIndex < len)%Z → clamp_index newIndex len = newIndex.
Proof.
  intros Hrange. unfold clamp_index. cbv zeta.
  rewrite (bool_decide_eq_false_2 (newIndex < 0)%Z) by lia.
  by rewrite (bool_decide_eq_false_2 (len ≤ newIndex)%Z) by lia.
Qed.

Lemma handleTabKeyNav_nav key target st newIndex j t :
  key ∉ ["Enter"; " "; "Spacebar"] →
  nav_index key (currentIndex (tabs st)) (Z.of_nat (length (tabs st)))
  = Some newIndex →
  (0 ≤ newIndex < Z.of_nat (length (tabs st)))%Z →
  Z.to_nat newIndex = j →
  tabs st !! j = Some t →
  handleTabKeyNav key target st
  = openTab (getIdFromTab t) (set_focused (Some j) st).
Proof.
  intros Hkey Hnav Hrange Hj Ht. unfold handleTabKeyNav.
  rewrite bool_decide_eq_false_2 by lia.
  rewrite (bool_decide_eq_false_2 _ Hkey), Hnav.
  by rewrite clamp_index_range, Hj, Ht.
Qed.

Lemma handleTabKeyNav_activate key f st t :
  key ∈ ["Enter"; " "; "Spacebar"] →
  tabs st !! f = Some t →
  handleTabKeyNav key (Some f) st = openTab (getIdFromTab t) st.
Proof.
  intros Hkey Ht. unfold handleTabKeyNav.
  rewrite bool_decide_eq_false_2.
  2:{ apply lookup_lt_Some in Ht. lia. }
  rewrite (bool_decide_eq_true_2 _ Hkey). simpl. by rewrite Ht.
Qed.

Ltac key_cases H :=
  apply list_elem_of_In in H; simpl in H;
  repeat (destruct H as [<-|H]); [..|destruct H].

Ltac not_key :=
  let Hc := fresh in
  intros Hc; apply list_elem_of_In in Hc; simpl in Hc; intuition discriminate.

(** C9: with the tab at index [i] selected among [n] tabs of distinct
    ids, the right arrow focuses and selects the tab at [(i + 1) mod n] and
    the left arrow the tab at [(i + n - 1) mod n], so that right from the
    last tab leads to the first and left from the first to the last; Home
    leads to the first tab and End to the last; Enter and Space on a tab
    select that tab and leave the focus where it is. *)
Theorem keyboard_navigation st i target :
  NoDup (getIdFromTab <$> tabs st) →
  currentIndex (tabs st) = Z.of_nat i →
  let n := length (tabs st) in
  let lands key j :=
    focused (handleTabKeyNav key target st) = Some j
    ∧ selects j (handleTabKeyNav key target st) in
  (∀ key, key ∈ ["ArrowRight"; "Right"] → lands key ((i + 1) mod n))
  ∧ (∀ key, key ∈ ["ArrowLeft"; "Left"] → lands key ((i + n - 1) mod n))
  ∧ lands "Home" 0
  ∧ lands "End" (n - 1)
  ∧ (i = n - 1 → (i + 1) mod n = 0)
  ∧ (i = 0 → (i + n - 1) mod n = n - 1)
  ∧ (∀ key f, key ∈ ["Enter"; " "; "Spacebar"] → f < n →
       focused (handleTabKeyNav key (Some f) st) = focused st
       ∧ selects f (handleTabKeyNav key (Some f) st)).
Proof.
  intros Hnd Hcur. cbv zeta.
  pose proof (currentIndex_lt _ _ Hcur) as Hi.
  assert (Hland : ∀ key newIndex j,
    key ∉ ["Enter"; " "; "Spacebar"] →
    nav_index key (currentIndex (tabs st)) (Z.of_nat (length (tabs st)))
    = Some newIndex →
    (0 ≤ newIndex < Z.of_nat (length (tabs st)))%Z →
    Z.to_nat newIndex = j →
    focused (handleTabKeyNav key target st) = Some j
    ∧ selects j (handleTabKeyNav key target st)).
  { intros key newIndex j Hkey Hnav Hrange Hj.
    destruct (lookup_lt_is_Some_2 (tabs st) j) as [t Ht]; [lia|].
    rewrite (handleTabKeyNav_nav _ _ _ _ _ _ Hkey Hnav Hrange Hj Ht).
    by apply openTab_selects. }
  split; [|split; [|split; [|split; [|split; [|split]]]]].
  - intros key Hkey. key_cases Hkey.
    all: apply (Hland _ ((Z.of_nat i + 1) `rem` Z.of_nat (length (tabs st)))%Z).
    all: try not_key.
    all: try (by rewrite Hcur).
    all: rewrite Z.rem_mod_nonneg by lia.
    all: try (apply Z.mod_pos_bound; lia).
    all: replace (Z.of_nat i + 1)%Z with (Z.of_nat (i + 1)) by lia.
    all: rewrite <- Nat2Z.inj_mod; apply Nat2Z.id.
  - intros key Hkey. key_cases Hkey.
    all: apply (Hland _ ((Z.of_nat i - 1 + Z.of_nat (length (tabs st)))
                           `rem` Z.of_nat (length (tabs st)))%Z).
    all: try not_key.
    all: try (by rewrite Hcur).
    all: rewrite Z.rem_mod_nonneg by lia.
    all: try (apply Z.mod_pos_bound; lia).
    all: replace (Z.of_nat i - 1 + Z.of_nat (length (tabs st)))%Z
           with (Z.of_nat (i + length (tabs st) - 1)) by lia.
    all: rewrite <- Nat2Z.inj_mod; apply Nat2Z.id.
  - apply (Hland "Home" 0%Z); [not_key|done|lia|done].
  - apply (Hland "End" (Z.of_nat (length (tabs st)) - 1)%Z);
      [not_key|done|lia|lia].
  - intros ->. replace (length (tabs st) - 1 + 1) with (length (tabs st)) by lia.
    apply Nat.Div0.mod_same.
  - intros ->. apply Nat.mod_small. lia.
  - intros key f Hkey Hf.
    destruct (lookup_lt_is_Some_2 (tabs st) f Hf) as [t Ht].
    rewrite (handleTabKeyNav_activate _ _ _ _ Hkey Ht).
    pose proof (openTab_selects (focused st) st f t Hnd Ht) as Hsel.
    by destruct st.
Qed.

(** ** Further invariants: the last day and the diary section *)

Lemma doneBtn_click_store pid index st :
  localStorage (doneBtn_click pid index st) = localStorage st
  ∨ ∃ dayId text,
      localStorage (doneBtn_click pid index st)
      = <[item_key dayId index := text]> (localStorage st).
Proof.
  destruct (lookup_item pid index st) as [[[[p dayId] items] x]|] eqn:Hl.
  - right. destruct (doneBtn_click_item _ _ _ _ _ _ _ Hl) as [_ ->].
    by eexists _, _.
  - left. unfold doneBtn_click. by rewrite Hl.
Qed.

Lemma noteBtn_click_store_cases pid index answer st :
  localStorage (noteBtn_click pid index answer st) = localStorage st
  ∨ ∃ dayId text,
      localStorage (noteBtn_click pid index answer st)
      = <[item_key dayId index := text]> (localStorage st).
Proof.
  destruct (lookup_item pid index st) as [[[[p dayId] items] x]|] eqn:Hl;
    [|by left; unfold noteBtn_click; rewrite Hl].
  destruct answer as [note|];
    [|by left; unfold noteBtn_click; rewrite Hl].
  right. rewrite (noteBtn_click_store _ _ _ _ _ _ _ _ Hl). by eexists _, _.
Qed.

Lemma step_last_day e st :
  localStorage (step e st) !! "lastDay" = localStorage st !! "lastDay"
  ∨ ∃ id, id ≠ "diary" ∧ localStorage (step e st) !! "lastDay" = Some id.
Proof.
  assert (Hopen : ∀ id s,
    localStorage (openTab id s) !! "lastDay" = localStorage s !! "lastDay"
    ∨ ∃ id', id' ≠ "diary"
             ∧ localStorage (openTab id s) !! "lastDay" = Some id').
  { intros id s. rewrite last_day_diary. case_decide; [by left|].
    right. by exists id. }
  destruct e as [id|pid index|pid index answer|key target|theme]; simpl.
  - apply Hopen.
  - left. destruct (doneBtn_click_store pid index st) as [->|(d & t & ->)];
      [done|].
    rewrite lookup_insert_ne; [done|apply item_key_ne_lastDay].
  - left.
    destruct (noteBtn_click_store_cases pid index answer st)
      as [->|(d & t & ->)]; [done|].
    rewrite lookup_insert_ne; [done|apply item_key_ne_lastDay].
  - destruct (handleTabKeyNav_cases key target st) as [->|(id & fo & ->)];
      [by left|].
    apply (Hopen id (set_focused fo st)).
  - left. by rewrite lookup_insert_ne.
Qed.

(** On every page the script builds, [lastDay] is [diary] only if it was
    so in the store the page started from and no day was activated. *)
Lemma reachable_last_day itinerary section ls url_dia st :
  reachable itinerary section ls url_dia st →
  ls !! "lastDay" ≠ Some "diary" →
  localStorage st !! "lastDay" ≠ Some "diary".
Proof.
  intros Hreach Hls. induction Hreach as [|e st _ IH].
  - destruct (main_eq itinerary section ls url_dia) as (-> & _ & Hbuilt).
    rewrite last_day_diary. case_decide; [by rewrite Hbuilt|congruence].
  - destruct (step_last_day e st) as [->|(id & Hid & ->)]; congruence.
Qed.

Lemma createPanel_diary_ok id st : diary_ok st → diary_ok (createPanel id st).
Proof.
  intros Hok. unfold createPanel, diary_ok. case_decide as Hid.
  - destruct (diarySection st) eqn:Hsec; simpl; [done|].
    rewrite Hsec. by intros [? ?].
  - destruct (find_day (itineraryData st) id) as [day|]; [|done]. simpl.
    destruct (updateDayProgress_frame (day_id day) st)
      as (_ & -> & -> & -> & _).
    rewrite lookup_insert_ne by done. apply Hok.
Qed.

Lemma openTab_diary_ok id st : diary_ok st → diary_ok (openTab id st).
Proof.
  intros Hok.
  assert (Hens : diary_ok (panel_ensured id st)).
  { unfold panel_ensured. destruct (tabPanels _ !! id); [done|].
    by apply createPanel_diary_ok. }
  unfold diary_ok. rewrite openTab_eq. simpl.
  rewrite map_lookup_imap. intros Hsec Hpanel. apply Hens; [done|].
  destruct (tabPanels (panel_ensured id st) !! "diary"); [by eexists|].
  by destruct Hpanel.
Qed.

Lemma store_item_diary_ok pid index p dayId items x x' st :
  lookup_item pid index st = Some (p, dayId, items, x) →
  diary_ok st → diary_ok (store_item pid index p dayId items x' st).
Proof.
  intros Hl Hok Hsec Hpanel. apply Hok; [done|]. simpl in Hpanel.
  destruct (decide (pid = "diary")) as [->|Hne].
  - apply lookup_item_Some in Hl as (Hp & _). by eexists.
  - by rewrite lookup_insert_ne in Hpanel.
Qed.

Lemma updateDiary_diary_ok st : diary_ok st → diary_ok (updateDiary st).
Proof.
  intros Hok Hsec Hpanel.
  destruct (updateDiary_frame st) as (_ & Hs & -> & _).
  apply Hok; [by apply Hs|].
  destruct (updateDiary_tabPanels st "diary") as (f & Hf & _).
  rewrite Hf in Hpanel. by apply fmap_is_Some in Hpanel.
Qed.

Lemma reachable_diary_ok itinerary section ls url_dia st :
  reachable itinerary section ls url_dia st → diary_ok st.
Proof.
  induction 1 as [|e st _ IH].
  - unfold main, restoreLastDay. apply openTab_diary_ok. intros _ Hpanel.
    destruct (buildTabs_frame itinerary section
                (updateDiary (loaded_page section ls url_dia)))
      as (_ & _ & _ & Hempty & _).
    rewrite Hempty, lookup_empty in Hpanel. by destruct Hpanel.
  - destruct e as [id|pid index|pid index answer|key target|theme]; simpl.
    + by apply openTab_diary_ok.
    + destruct (lookup_item pid index st) as [[[[p dayId] items] x]|] eqn:Hl;
        [|by unfold doneBtn_click; rewrite Hl].
      rewrite (doneBtn_click_eq _ _ _ _ _ _ _ Hl).
      pose proof (store_item_diary_ok _ _ _ _ _ _ (toggled_item x) _ Hl IH)
        as Hstored.
      unfold diary_ok.
      by destruct (updateDayProgress_frame dayId
                     (store_item pid index p dayId items (toggled_item x) st))
        as (_ & -> & -> & -> & _).
    + destruct (lookup_item pid index st) as [[[[p dayId] items] x]|] eqn:Hl;
        [|by unfold noteBtn_click; rewrite Hl].
      destruct answer as [note|]; [|by unfold noteBtn_click; rewrite Hl].
      rewrite (noteBtn_click_eq _ _ _ _ _ _ _ _ Hl).
      by eapply updateDiary_diary_ok, store_item_diary_ok.
    + destruct (handleTabKeyNav_cases key target st) as [->|(id & fo & ->)];
        [done|].
      by apply openTab_diary_ok.
    + done.
Qed.

(** Once the diary has been opened, every answer to the prompt of a note
    ends with the diary list rebuilt from the store as it is then. *)
Lemma note_rebuilds_diary itinerary section ls url_dia st pid index note
    p dayId items x section0 :
  reachable itinerary section ls url_dia st →
  diarySection st = Some section0 →
  is_Some (tabPanels st !! "diary") →
  lookup_item pid index st = Some (p, dayId, items, x) →
  let st' := noteBtn_click pid index (Some note) st in
  diary_list <$> diarySection st' = Some (collect_entries (localStorage st')).
Proof.
  intros Hreach Hsec Hpanel Hl. cbv zeta.
  pose proof (reachable_diary_ok _ _ _ _ _ Hreach) as Hok.
  rewrite (noteBtn_click_store _ _ _ _ _ _ _ _ Hl).
  rewrite (noteBtn_click_eq _ _ _ _ _ _ _ _ Hl).
  unfold updateDiary. simpl. rewrite Hsec.
  rewrite (Hok ltac:(by rewrite Hsec) Hpanel). done.
Qed.

End Facts.

(** * More on the page with tabs *)

Section MoreFacts.

Context `{JSONLaws} `{Trim}.

Implicit Types (ls : gmap string string) (st : state) (v : jsvalue).

Lemma state_eq st st' :
  itineraryData st = itineraryData st' →
  diarySection st = diarySection st' →
  diary_attached st = diary_attached st' →
  tabs st = tabs st' →
  tabPanels st = tabPanels st' →
  localStorage st = localStorage st' →
  dia st = dia st' →
  focused st = focused st' →
  st = st'.
Proof. destruct st, st'; simpl; intros; congruence. Qed.

(** ** The naming scheme of the item keys *)

(** X1: the key that the item handlers and the progress count build for
    an item is read back by the pattern of the diary, which recovers the
    day and the index it was built from; two items never share a key, and
    no item key is one of the two other keys of the page. *)
Theorem item_key_scheme (d d' : N) (i i' : nat) :
  match_item_key (item_key d i) = Some (toString d, toString (N.of_nat i))
  ∧ key_day (item_key d i) = Some d
  ∧ parseInt (toString (N.of_nat i)) = N.of_nat i
  ∧ (item_key d i = item_key d' i' → d = d' ∧ i = i')
  ∧ item_key d i ≠ "lastDay"
  ∧ item_key d i ≠ "theme".
Proof.
  split; [apply match_item_key_item_key|].
  split.
  { unfold key_day. rewrite match_item_key_item_key. simpl.
    by rewrite parseInt_toString. }
  split; [apply parseInt_toString|].
  split; [apply item_key_inj|].
  split; [apply item_key_ne_lastDay|apply item_key_ne_theme].
Qed.

(** ** The label of a day *)

Lemma length_filter_all {A} (P : A → Prop) `{!∀ x, Decision (P x)}
    (l : list A) :
  length (filter P l) = length l ↔ Forall P l.
Proof.
  induction l as [|a l IH]; [by split|].
  destruct (decide (P a)) as [Ha|Ha].
  - rewrite filter_cons_True by done. simpl. rewrite Forall_cons.
    split.
    + intros [= Hlen]. split; [done|]. by apply IH.
    + intros [_ Hall]. f_equal. by apply IH.
  - rewrite filter_cons_False by done. simpl. split.
    + intros Hlen. pose proof (length_filter P l). lia.
    + intros Hall. by apply Forall_cons in Hall as [? _].
Qed.

(** X2: the number of completed items that [updateDayProgress] counts
    for a day never exceeds the number of items; the tab of a day without
    items carries the bare label, the check mark stands exactly for a day
    with items all of which are persisted as completed, and a count is
    shown only when it is below the total. *)
Theorem progress_label_cases ls dayId total :
  let completed := count_completed ls dayId total in
  completed ≤ total
  ∧ (progress_label dayId completed total = BaseLabel dayId ↔ total = 0)
  ∧ (progress_label dayId completed total = DoneLabel dayId
     ↔ 0 < total
       ∧ ∀ i, i < total → persisted_completed ls dayId i = true)
  ∧ (∀ a b, progress_label dayId completed total = CountLabel dayId a b →
       a = completed ∧ b = total ∧ a < b).
Proof.
  cbv zeta. rewrite count_completed_entries. unfold completed_entries.
  set (P := λ i, persisted_completed ls dayId i = true).
  assert (Hle : length (filter P (seq 0 total)) ≤ total).
  { etrans; [apply length_filter|]. by rewrite length_seq. }
  assert (Hall : length (filter P (seq 0 total)) = total
                 ↔ ∀ i, i < total → P i).
  { transitivity (length (filter P (seq 0 total)) = length (seq 0 total));
      [by rewrite length_seq|].
    rewrite length_filter_all, Forall_forall. split.
    - intros Hall i Hi. apply Hall, elem_of_seq. lia.
    - intros Hall i Hi. apply Hall. apply elem_of_seq in Hi. lia. }
  split; [done|]. unfold progress_label.
  destruct (decide (0 < total)) as [Hpos|Hzero].
  - rewrite (bool_decide_eq_true_2 _ Hpos).
    destruct (decide (length (filter P (seq 0 total)) = total))
      as [Heq|Hne].
    + rewrite (bool_decide_eq_true_2 _ Heq).
      split; [split; [done|lia]|]. split; [|done].
      split; [|done]. intros _. split; [done|]. by apply Hall.
    + rewrite (bool_decide_eq_false_2 _ Hne).
      split; [split; [done|lia]|]. split.
      * split; [done|]. intros [_ Hi]. by apply Hall in Hi.
      * intros a b [= <- <-]. split; [done|]. split; [done|]. lia.
  - rewrite (bool_decide_eq_false_2 _ Hzero).
    split; [split; [lia|done]|]. split; [|done].
    split; [done|]. intros [? _]. lia.
Qed.

(** ** What the item handlers leave alone *)

Lemma doneBtn_click_frame pid index st :
  let st' := doneBtn_click pid index st in
  itineraryData st' = itineraryData st
  ∧ diarySection st' = diarySection st
  ∧ diary_attached st' = diary_attached st
  ∧ dia st' = dia st
  ∧ focused st' = focused st.
Proof.
  simpl.
  destruct (lookup_item pid index st) as [[[[p dayId] items] x]|] eqn:Hl;
    [|by unfold doneBtn_click; rewrite Hl].
  rewrite (doneBtn_click_eq _ _ _ _ _ _ _ Hl).
  destruct (updateDayProgress_frame dayId
              (store_item pid index p dayId items (toggled_item x) st))
    as (-> & -> & -> & _ & _ & -> & ->).
  done.
Qed.

Lemma noteBtn_click_frame pid index answer st :
  let st' := noteBtn_click pid index answer st in
  itineraryData st' = itineraryData st
  ∧ (is_Some (diarySection st') ↔ is_Some (diarySection st))
  ∧ diary_attached st' = diary_attached st
  ∧ tabs st' = tabs st
  ∧ dia st' = dia st
  ∧ focused st' = focused st.
Proof.
  simpl.
  destruct (lookup_item pid index st) as [[[[p dayId] items] x]|] eqn:Hl;
    [|by unfold noteBtn_click; rewrite Hl].
  destruct answer as [note|]; [|by unfold noteBtn_click; rewrite Hl].
  rewrite (noteBtn_click_eq _ _ _ _ _ _ _ _ Hl).
  destruct (updateDiary_frame
              (store_item pid index p dayId items (noted_item x note) st))
    as (-> & Hsec & -> & -> & _ & -> & ->).
  by rewrite Hsec.
Qed.

Lemma Forall2_selected_eq (ts ts' : list tab) :
  Forall2 (λ t t', tab_id t' = tab_id t
                   ∧ aria_selected t' = aria_selected t
                   ∧ tabindex t' = tabindex t
                   ∧ tab_active t' = tab_active t) ts ts' →
  aria_selected <$> ts' = aria_selected <$> ts.
Proof.
  induction 1 as [|t t' ts ts' (_ & Hsel & _) _ IH]; [done|].
  rewrite !fmap_cons. by rewrite Hsel, IH.
Qed.

(** X3: a click on the done button or on the note button of an item
    writes the key of that item and no other key of the store; it changes
    neither the URL nor the tab that is selected, and no panel but the one
    the item is in. *)
Theorem item_click_frame pid index answer st p dayId items x :
  lookup_item pid index st = Some (p, dayId, items, x) →
  let done := doneBtn_click pid index st in
  let noted := noteBtn_click pid index answer st in
  (∀ key, key ≠ item_key dayId index →
     localStorage done !! key = localStorage st !! key
     ∧ localStorage noted !! key = localStorage st !! key)
  ∧ dia done = dia st ∧ dia noted = dia st
  ∧ aria_selected <$> tabs done = aria_selected <$> tabs st
  ∧ tabs noted = tabs st
  ∧ (∀ pid' q, pid' ≠ pid → pid' ≠ "diary" →
       tabPanels st !! pid' = Some q →
       tabPanels done !! pid' = Some q ∧ tabPanels noted !! pid' = Some q).
Proof.
  intros Hl. cbv zeta.
  destruct (doneBtn_click_frame pid index st) as (_ & _ & _ & Hdia & _).
  destruct (noteBtn_click_frame pid index answer st)
    as (_ & _ & _ & Htabs & Hdia' & _).
  split; [|split; [done|split; [done|split; [|split; [done|]]]]].
  - intros key Hkey.
    destruct (doneBtn_click_item _ _ _ _ _ _ _ Hl) as [_ ->].
    rewrite lookup_insert_ne by done. split; [done|].
    destruct answer as [note|]; [|by unfold noteBtn_click; rewrite Hl].
    rewrite (noteBtn_click_store _ _ _ _ _ _ _ _ Hl).
    by rewrite lookup_insert_ne.
  - rewrite (doneBtn_click_eq _ _ _ _ _ _ _ Hl).
    pose proof (updateDayProgress_tabs dayId
                  (store_item pid index p dayId items (toggled_item x) st))
      as Hsel.
    by apply Forall2_selected_eq.
  - intros pid' q Hne Hdiary Hq. split.
    + rewrite (doneBtn_click_eq _ _ _ _ _ _ _ Hl).
      destruct (updateDayProgress_frame dayId
                  (store_item pid index p dayId items (toggled_item x) st))
        as (_ & _ & _ & -> & _).
      simpl. by rewrite lookup_insert_ne.
    + destruct answer as [note|]; [|by unfold noteBtn_click; rewrite Hl].
      rewrite (noteBtn_click_eq _ _ _ _ _ _ _ _ Hl).
      unfold updateDiary. simpl.
      destruct (diarySection st); [|by simpl; rewrite lookup_insert_ne].
      destruct (diary_attached st); simpl;
        [|by rewrite lookup_insert_ne].
      rewrite lookup_alter_ne by done. by rewrite lookup_insert_ne.
Qed.

(** ** The URL and the persisted last day *)

Lemma openTab_url_is_last_day id st : url_is_last_day (openTab id st).
Proof.
  unfold url_is_last_day. rewrite openTab_dia, last_day_diary.
  case_decide as Hid; [done|]. split; congruence.
Qed.

Lemma url_is_last_day_frame st st' :
  dia st' = dia st →
  (localStorage st' = localStorage st
   ∨ ∃ key text, key ≠ "lastDay"
       ∧ localStorage st' = <[key := text]> (localStorage st)) →
  url_is_last_day st → url_is_last_day st'.
Proof.
  intros Hdia Hls [Hdiary Hlast]. unfold url_is_last_day.
  rewrite Hdia. split; [done|]. intros id Hid.
  destruct Hls as [->|(key & text & Hkey & ->)]; [by apply Hlast|].
  rewrite lookup_insert_ne by done. by apply Hlast.
Qed.

(** X4: in every state of the page the parameter [dia] of the URL never
    names the diary, and whenever it names an id, that id is the persisted
    last day: no handler writes one without the other. *)
Theorem url_names_last_day itinerary section ls url_dia st :
  reachable itinerary section ls url_dia st →
  dia st ≠ Some "diary"
  ∧ ∀ id, dia st = Some id → localStorage st !! "lastDay" = Some id.
Proof.
  intros Hreach. change (url_is_last_day st).
  induction Hreach as [|e st _ IH].
  - unfold main, restoreLastDay. apply openTab_url_is_last_day.
  - destruct e as [id|pid index|pid index answer|key target|theme]; simpl.
    + apply openTab_url_is_last_day.
    + apply (url_is_last_day_frame st); [|  |done].
      * by destruct (doneBtn_click_frame pid index st) as (_ & _ & _ & ? & _).
      * destruct (doneBtn_click_store pid index st) as [?|(d & t & ?)];
          [by left|right].
        exists (item_key d index), t. split; [apply item_key_ne_lastDay|done].
    + apply (url_is_last_day_frame st); [|  |done].
      * by destruct (noteBtn_click_frame pid index answer st)
          as (_ & _ & _ & _ & ? & _).
      * destruct (noteBtn_click_store_cases pid index answer st)
          as [?|(d & t & ?)]; [by left|right].
        exists (item_key d index), t. split; [apply item_key_ne_lastDay|done].
    + destruct (handleTabKeyNav_cases key target st) as [->|(id & fo & ->)];
        [done|apply openTab_url_is_last_day].
    + apply (url_is_last_day_frame st); [done| |done].
      right. by exists "theme", theme.
Qed.

(** ** Activation again *)

Lemma select_tab_fixed id (ts ts' : list tab) :
  Forall2 (λ t t', tab_id t' = tab_id t
                   ∧ aria_selected t' = bool_decide (getIdFromTab t = id)
                   ∧ tabindex t' = (if bool_decide (getIdFromTab t = id)
                                   then 0 else -1)%Z
                   ∧ tab_active t' = bool_decide (getIdFromTab t = id))
    ts ts' →
  select_tab id <$> ts' = ts'.
Proof.
  induction 1 as [|t t' ts ts' (Hid & Hsel & Hidx & Hact) _ IH]; [done|].
  rewrite fmap_cons, IH. f_equal.
  assert (Hget : getIdFromTab t' = getIdFromTab t).
  { unfold getIdFromTab. by rewrite Hid. }
  unfold select_tab. rewrite Hget. destruct t'; simpl in *. by subst.
Qed.

Lemma panel_ensured_lookup id st key :
  (∀ p, tabPanels st !! key = Some p →
        tabPanels (panel_ensured id st) !! key = Some p)
  ∧ (key ≠ id →
     tabPanels (panel_ensured id st) !! key = tabPanels st !! key).
Proof.
  unfold panel_ensured.
  set (st1 := set_tabs (select_tab id <$> tabs st) st).
  destruct (tabPanels st1 !! id) as [q|] eqn:Hq; [done|].
  destruct (createPanel_frame id st1) as (_ & _ & _ & _ & _ & _ & Hother).
  split.
  - intros p Hp. destruct (decide (key = id)) as [->|Hne].
    + simpl in Hq. congruence.
    + by rewrite Hother.
  - intros Hne. by rewrite Hother.
Qed.

Lemma show_panel_twice id key p :
  show_panel id key (show_panel id key p) = show_panel id key p.
Proof. unfold show_panel. by case_decide. Qed.

(** X5: activating the tab that is active already changes nothing: the
    second of two calls of [openTab] with the same id leaves the page, the
    store and the URL as the first call left them. *)
Theorem openTab_idempotent id st :
  openTab id (openTab id st) = openTab id st.
Proof.
  destruct (panel_ensured_frame id st)
    as (Hit & _ & _ & _ & _ & _ & Hsel).
  assert (Hself : panel_ensured id (openTab id st) = openTab id st).
  { unfold panel_ensured at 1.
    assert (Htabs : select_tab id <$> tabs (openTab id st)
                    = tabs (openTab id st)).
    { rewrite openTab_tabs. by apply (select_tab_fixed id (tabs st)). }
    rewrite Htabs.
    assert (Hst : set_tabs (tabs (openTab id st)) (openTab id st)
                  = openTab id st) by by destruct (openTab id st).
    rewrite Hst.
    destruct (tabPanels (openTab id st) !! id) as [q|] eqn:Hq; [done|].
    rewrite openTab_tabPanels in Hq.
    assert (Hnone : tabPanels (panel_ensured id st) !! id = None).
    { by destruct (tabPanels (panel_ensured id st) !! id). }
    unfold createPanel. case_decide as Hdiary.
    - destruct (panel_ensured_exists id st) as [q' Hq']; [by left|].
      congruence.
    - destruct (find_day (itineraryData (openTab id st)) id)
        as [day|] eqn:Hday; [|done].
      destruct (panel_ensured_exists id st) as [q' Hq']; [|congruence].
      right. rewrite openTab_eq in Hday. simpl in Hday.
      rewrite Hit in Hday. by eexists. }
  rewrite (openTab_eq id (openTab id st)). cbv zeta. rewrite Hself.
  apply state_eq; try reflexivity.
  - cbn [tabPanels set_dia set_localStorage set_tabPanels].
    apply map_eq. intros key. rewrite map_lookup_imap.
    rewrite openTab_tabPanels.
    destruct (tabPanels (panel_ensured id st) !! key); simpl; [|done].
    by rewrite show_panel_twice.
  - cbn [localStorage set_dia set_localStorage set_tabPanels].
    rewrite openTab_localStorage. case_decide; [|done].
    by rewrite insert_insert_eq.
Qed.

(** X6: [openTab] builds panels lazily and once: every panel that
    exists is still there after an activation, with the content it had, and
    no panel appears under a key other than the activated id. *)
Theorem openTab_keeps_panels id st key :
  (∀ p, tabPanels st !! key = Some p →
        ∃ p', tabPanels (openTab id st) !! key = Some p'
              ∧ body p' = body p)
  ∧ (key ≠ id → tabPanels st !! key = None →
     tabPanels (openTab id st) !! key = None).
Proof.
  destruct (panel_ensured_lookup id st key) as [Hsome Hother].
  rewrite openTab_tabPanels. split.
  - intros p Hp. rewrite (Hsome _ Hp). simpl. eexists. split; [done|].
    unfold show_panel. by case_decide.
  - intros Hne Hnone. by rewrite (Hother Hne), Hnone.
Qed.

(** ** The tab list *)

Lemma reachable_section itinerary section ls url_dia st :
  reachable itinerary section ls url_dia st →
  itineraryData st = itinerary
  ∧ (is_Some (diarySection st) ↔ is_Some section).
Proof.
  induction 1 as [|e st _ [IHit IHsec]].
  - unfold main, restoreLastDay.
    set (built := buildTabs itinerary section _).
    destruct (buildTabs_frame itinerary section
                (updateDiary (loaded_page section ls url_dia)))
      as (Hit & Hsec & _).
    fold built in Hit, Hsec.
    rewrite openTab_eq.
      cbn [itineraryData diarySection set_dia set_localStorage set_tabPanels].
    destruct (panel_ensured_frame (restored_id itinerary built) built)
      as (-> & -> & _).
    by rewrite Hit, Hsec.
  - destruct e as [id|pid index|pid index answer|key target|theme];
      cbn [step].
    + rewrite openTab_eq.
      cbn [itineraryData diarySection set_dia set_localStorage set_tabPanels].
      destruct (panel_ensured_frame id st) as (-> & -> & _). done.
    + destruct (doneBtn_click_frame pid index st) as (-> & -> & _). done.
    + destruct (noteBtn_click_frame pid index answer st) as (-> & -> & _).
      done.
    + destruct (handleTabKeyNav_cases key target st) as [->|(id & fo & ->)];
        [done|].
      rewrite openTab_eq.
      cbn [itineraryData diarySection set_dia set_localStorage set_tabPanels].
      destruct (panel_ensured_frame id (set_focused fo st)) as (-> & -> & _).
      done.
    + done.
Qed.

Lemma tab_list_ids itinerary section ls url_dia st :
  NoDup (day_id <$> itinerary) →
  reachable itinerary section ls url_dia st →
  getIdFromTab <$> tabs st = tab_ids itinerary section
  ∧ NoDup (getIdFromTab <$> tabs st).
Proof.
  intros Hnd Hreach.
  pose proof (reachable_tabs_ok _ _ _ _ _ Hnd Hreach) as Htabs.
  destruct (reachable_section _ _ _ _ _ Hreach) as [_ Hsec].
  assert (Hids : getIdFromTab <$> tabs st = tab_ids itinerary section).
  { rewrite (tabs_ok_ids _ _ Htabs). unfold tab_ids. f_equal.
    destruct (diarySection st) as [s|], section as [s'|]; try done.
    - destruct Hsec as [[? [=]] _]. by eexists.
    - destruct Hsec as [_ [? [=]]]. by eexists. }
  split; [done|]. rewrite Hids. by apply tab_ids_NoDup.
Qed.

(** X7: in every state of a page whose days have distinct ids the tab
    list holds one tab per day, in the order of the itinerary, followed by
    the tab of the diary exactly when the document has a diary section; no
    handler adds, removes or reorders tabs. *)
Theorem tab_list_fixed itinerary section ls url_dia st :
  NoDup (day_id <$> itinerary) →
  reachable itinerary section ls url_dia st →
  getIdFromTab <$> tabs st = tab_ids itinerary section
  ∧ length (tabs st) = length itinerary + length (option_list section).
Proof.
  intros Hnd Hreach.
  destruct (tab_list_ids _ _ _ _ _ Hnd Hreach) as [Hids _].
  split; [done|].
  rewrite <- (length_fmap getIdFromTab), Hids. unfold tab_ids.
  by rewrite length_app, !length_fmap.
Qed.

(** ** The keyboard, with no tab selected *)

Ltac key_cases H :=
  apply list_elem_of_In in H; simpl in H;
  repeat (destruct H as [<-|H]); [..|destruct H].

Ltac not_key :=
  let Hc := fresh in
  intros Hc; apply list_elem_of_In in Hc; simpl in Hc; intuition discriminate.

(** X8: when no tab is selected, which is the state in which a page
    starts whose URL names no day, [findIndex] answers -1: from there the
    right arrow leads to the first tab as Home does, End leads to the last
    tab, and the left arrow leads to the tab before the last one (to the
    only tab when there is just one). *)
Theorem arrows_without_selection st target :
  NoDup (getIdFromTab <$> tabs st) →
  currentIndex (tabs st) = (-1)%Z →
  0 < length (tabs st) →
  let n := length (tabs st) in
  let lands key j :=
    focused (handleTabKeyNav key target st) = Some j
    ∧ selects j (handleTabKeyNav key target st) in
  (∀ key, key ∈ ["ArrowRight"; "Right"] → lands key 0)
  ∧ (∀ key, key ∈ ["ArrowLeft"; "Left"] → lands key (n - 2))
  ∧ lands "Home" 0
  ∧ lands "End" (n - 1).
Proof.
  intros Hnd Hcur Hpos. cbv zeta.
  assert (Hland : ∀ key newIndex j,
    key ∉ ["Enter"; " "; "Spacebar"] →
    nav_index key (currentIndex (tabs st)) (Z.of_nat (length (tabs st)))
    = Some newIndex →
    (0 ≤ newIndex < Z.of_nat (length (tabs st)))%Z →
    Z.to_nat newIndex = j →
    focused (handleTabKeyNav key target st) = Some j
    ∧ selects j (handleTabKeyNav key target st)).
  { intros key newIndex j Hkey Hnav Hrange Hj.
    destruct (lookup_lt_is_Some_2 (tabs st) j) as [t Ht]; [lia|].
    rewrite (handleTabKeyNav_nav _ _ _ _ _ _ Hkey Hnav Hrange Hj Ht).
    by apply openTab_selects. }
  split; [|split; [|split]].
  - intros key Hkey. key_cases Hkey.
    all: apply (Hland _ 0%Z); [not_key| |lia|done].
    all: rewrite Hcur; unfold nav_index; simpl.
    all: by rewrite Z.rem_0_l by lia.
  - intros key Hkey.
    assert (Hrem : ((-1 - 1 + Z.of_nat (length (tabs st)))
                      `rem` Z.of_nat (length (tabs st)))%Z
                   = Z.of_nat (length (tabs st) - 2)).
    { destruct (decide (length (tabs st) = 1)) as [->|Hne]; [done|].
      rewrite Z.rem_small by lia. lia. }
    key_cases Hkey.
    all: apply (Hland _ (Z.of_nat (length (tabs st) - 2)));
      [not_key| |lia|lia].
    all: rewrite Hcur; unfold nav_index; simpl.
    all: by rewrite Hrem.
  - apply (Hland "Home" 0%Z); [not_key|done|lia|done].
  - apply (Hland "End" (Z.of_nat (length (tabs st)) - 1)%Z);
      [not_key|done|lia|lia].
Qed.

(** ** The active tab after a reload *)

(** X9: the tab of a day that was activated is the one a later visit
    starts on, whether the visit keeps the URL that the activation wrote or
    comes without the parameter; the diary is never restored: a visit after
    the diary was activated starts as a visit without the parameter does
    from the store as it was. *)
Theorem active_tab_restored itinerary section st :
  (∀ id url, id ≠ "" → id ≠ "diary" → url = Some id ∨ url = None →
     let ls := localStorage (openTab id st) in
     main itinerary section ls url
     = openTab id (buildTabs itinerary section (loaded_page section ls url)))
  ∧ reload itinerary section (openTab "diary" st)
    = main itinerary section (localStorage st) None.
Proof.
  split.
  - intros id url Hid Hdiary Hurl. cbv zeta.
    destruct (main_eq itinerary section (localStorage (openTab id st)) url)
      as (-> & Hdia & Hls).
    rewrite main_diary_detached in *. f_equal.
    unfold restored_id. rewrite Hdia, Hls.
    destruct Hurl as [->| ->].
    + by rewrite bool_decide_eq_true_2.
    + rewrite last_day_diary. rewrite decide_False by done.
      by rewrite bool_decide_eq_true_2.
  - unfold reload. rewrite openTab_dia, openTab_localStorage.
    rewrite (decide_True (P := "diary" = "diary")) by done.
    rewrite (decide_False (P := "diary" ≠ "diary")); [done|]. by intros [].
Qed.

(** ** Panels and the days they show *)

Lemma createPanel_tabPanels_tabs id ts st :
  tabPanels (createPanel id (set_tabs ts st)) = tabPanels (createPanel id st).
Proof.
  unfold createPanel. case_decide.
  - cbn [diarySection set_tabs]. by destruct (diarySection st).
  - cbn [itineraryData set_tabs].
    destruct (find_day (itineraryData st) id) as [d|]; [|done].
    unfold initScheduleItemsForDay.
    cbn [tabPanels set_tabPanels localStorage set_tabs].
    destruct (updateDayProgress_frame (day_id d) (set_tabs ts st))
      as (_ & _ & _ & -> & _).
    destruct (updateDayProgress_frame (day_id d) st) as (_ & _ & _ & -> & _).
    done.
Qed.

Lemma openTab_lookup id st key :
  tabPanels (openTab id st) !! key
  = match tabPanels st !! key with
    | Some p => Some (show_panel id key p)
    | None =>
        if decide (key = id)
        then show_panel id key <$> tabPanels (createPanel id st) !! key
        else None
    end.
Proof.
  rewrite openTab_tabPanels.
  destruct (tabPanels st !! key) as [p|] eqn:Hp.
  - destruct (panel_ensured_lookup id st key) as [Hsome _].
    by rewrite (Hsome p Hp).
  - case_decide as Hkey.
    2:{ destruct (panel_ensured_lookup id st key) as [_ Hother].
        by rewrite (Hother Hkey), Hp. }
    subst key. unfold panel_ensured. simpl. rewrite Hp.
    by rewrite createPanel_tabPanels_tabs.
Qed.


Lemma init_item_display ls dayId index :
  display_ok (init_item ls dayId index).
Proof. intros m Hm. unfold init_item in *. simpl in *. by rewrite Hm. Qed.

Lemma toggled_item_display x : display_ok x → display_ok (toggled_item x).
Proof.
  intros Hx m Hm. unfold toggled_item in *. simpl in *.
  destruct (saved x) as [j|m0|l m0] eqn:Hs; simpl in Hm; try done.
  injection Hm as <-. rewrite lookup_insert_ne by done. by apply Hx.
Qed.

Lemma noted_item_display x note :
  display_ok x → display_ok (noted_item x note).
Proof.
  intros Hx m Hm. unfold noted_item in *. case_decide as Htrim; simpl in *.
  - destruct (saved x) as [j|m0|l m0] eqn:Hs; simpl in Hm; try done.
    injection Hm as <-. by rewrite lookup_delete_eq.
  - destruct (saved x) as [j|m0|l m0] eqn:Hs; simpl in Hm; try done.
    injection Hm as <-. simpl. rewrite lookup_insert_eq. simpl.
    by rewrite bool_decide_eq_true_2.
Qed.

Lemma panel_inv_show itinerary id key p :
  panel_inv itinerary key p → panel_inv itinerary key (show_panel id key p).
Proof. unfold panel_inv, show_panel. by repeat case_decide. Qed.

Lemma createPanel_panels_inv itinerary id st :
  panels_inv itinerary st → panels_inv itinerary (createPanel id st).
Proof.
  intros [Hit Hpanels]. unfold createPanel. case_decide as Hid.
  - split; [by destruct (diarySection st)|].
    simpl. apply map_Forall_insert_2.
    + unfold panel_inv. rewrite decide_True by done. by eexists.
    + by destruct (diarySection st).
  - destruct (find_day (itineraryData st) id) as [d|] eqn:Hd; [|done].
    simpl.
    destruct (updateDayProgress_frame (day_id d) st)
      as (Hit' & _ & _ & Hp & Hls & _).
    split; [simpl; congruence|]. simpl. rewrite Hp.
    apply map_Forall_insert_2; [|done].
    unfold panel_inv. rewrite decide_False by done.
    eexists d, _. split; [congruence|]. split; [done|].
    split; [by rewrite length_imap|].
    apply Forall_forall. intros x Hx.
    apply list_elem_of_lookup in Hx as [i Hi].
    rewrite list_lookup_imap in Hi.
    destruct (schedule d !! i); [|done]. injection Hi as <-.
    apply init_item_display.
Qed.

Lemma openTab_panels_inv itinerary id st :
  panels_inv itinerary st → panels_inv itinerary (openTab id st).
Proof.
  intros Hinv.
  assert (Hens : panels_inv itinerary (panel_ensured id st)).
  { unfold panel_ensured.
    set (st1 := set_tabs (select_tab id <$> tabs st) st).
    assert (Hinv1 : panels_inv itinerary st1) by done.
    destruct (tabPanels st1 !! id); [done|].
    by apply createPanel_panels_inv. }
  destruct Hens as [Hit Hpanels]. rewrite openTab_eq. split; [done|].
  cbn [tabPanels set_dia set_localStorage set_tabPanels].
  intros key p. rewrite map_lookup_imap.
  destruct (tabPanels (panel_ensured id st) !! key) as [q|] eqn:Hq;
    [|done].
  simpl. intros [= <-]. apply panel_inv_show. by apply (Hpanels key).
Qed.

Lemma store_item_panels_inv itinerary pid index p dayId items x x' st :
  lookup_item pid index st = Some (p, dayId, items, x) →
  (display_ok x → display_ok x') →
  panels_inv itinerary st →
  panels_inv itinerary (store_item pid index p dayId items x' st).
Proof.
  intros Hl Hx [Hit Hpanels]. split; [done|].
  apply lookup_item_Some in Hl as (Hp & Hb & Hi).
  simpl. apply map_Forall_insert_2; [|done].
  pose proof (Hpanels pid p Hp) as Hold. unfold panel_inv in *.
  case_decide as Hpid.
  - destruct Hold as [msg Hmsg]. congruence.
  - destruct Hold as (d & items0 & Hd & Hb0 & Hlen & Hall).
    rewrite Hb in Hb0. injection Hb0 as -> <-.
    eexists d, _. split; [done|]. split; [done|].
    split; [by rewrite length_insert|].
    apply Forall_insert; [done|]. apply Hx.
    by eapply Forall_lookup_1.
Qed.

Lemma updateDiary_panels_inv itinerary st :
  panels_inv itinerary st → panels_inv itinerary (updateDiary st).
Proof.
  intros [Hit Hpanels]. unfold updateDiary.
  destruct (diarySection st) as [sec|]; [|done].
  destruct (diary_attached st); [|done].
  split; [done|]. simpl.
  intros key p. destruct (decide (key = "diary")) as [->|Hne].
  - rewrite lookup_alter_eq.
    destruct (tabPanels st !! "diary") as [q|] eqn:Hq; [|done].
    simpl. intros [= <-]. pose proof (Hpanels _ _ Hq) as Hold.
    unfold panel_inv in *. rewrite decide_True in * by done.
    destruct Hold as [msg Hmsg]. unfold set_no_notes_msg. rewrite Hmsg.
    by eexists.
  - rewrite lookup_alter_ne by done. apply Hpanels.
Qed.

Lemma reachable_panels_inv itinerary section ls url_dia st :
  reachable itinerary section ls url_dia st → panels_inv itinerary st.
Proof.
  induction 1 as [|e st _ IH].
  - unfold main, restoreLastDay. apply openTab_panels_inv.
    destruct (buildTabs_frame itinerary section
                (updateDiary (loaded_page section ls url_dia)))
      as (Hit & _ & _ & Hp & _).
    split; [done|]. rewrite Hp. apply map_Forall_empty.
  - destruct e as [id|pid index|pid index answer|key target|theme];
      cbn [step].
    + by apply openTab_panels_inv.
    + destruct (lookup_item pid index st) as [[[[p dayId] items] x]|] eqn:Hl;
        [|by unfold doneBtn_click; rewrite Hl].
      rewrite (doneBtn_click_eq _ _ _ _ _ _ _ Hl).
      pose proof (store_item_panels_inv itinerary _ _ _ _ _ _
                    (toggled_item x) _ Hl (toggled_item_display x) IH)
        as [Hit Hpanels].
      destruct (updateDayProgress_frame dayId
                  (store_item pid index p dayId items (toggled_item x) st))
        as (Hit' & _ & _ & Hp & _).
      split; [congruence|]. by rewrite Hp.
    + destruct (lookup_item pid index st) as [[[[p dayId] items] x]|] eqn:Hl;
        [|by unfold noteBtn_click; rewrite Hl].
      destruct answer as [note|]; [|by unfold noteBtn_click; rewrite Hl].
      rewrite (noteBtn_click_eq _ _ _ _ _ _ _ _ Hl).
      apply updateDiary_panels_inv.
      by apply (store_item_panels_inv itinerary _ _ _ _ _ x _ _ Hl
                  (noted_item_display x note)).
    + destruct (handleTabKeyNav_cases key target st) as [->|(id & fo & ->)];
        [done|].
      by apply openTab_panels_inv.
    + done.
Qed.



(** ** The diary section before the diary is opened *)

Lemma openTab_diary_untouched section id st :
  diary_untouched section st → diary_untouched section (openTab id st).
Proof.
  intros Hun Hnone. rewrite openTab_lookup in Hnone.
  destruct (tabPanels st !! "diary") as [p|] eqn:Hp; [done|].
  case_decide as Hid.
  - subst id. unfold createPanel in Hnone. rewrite decide_True in Hnone by done.
    simpl in Hnone. by rewrite lookup_insert_eq in Hnone.
  - destruct (Hun Hp) as [Hsec Hatt].
    rewrite openTab_eq.
    cbn [diarySection diary_attached set_dia set_localStorage set_tabPanels].
    unfold panel_ensured.
    set (st1 := set_tabs (select_tab id <$> tabs st) st).
    destruct (tabPanels st1 !! id); [done|].
    unfold createPanel. rewrite decide_False by done.
    destruct (find_day (itineraryData st1) id) as [d|]; [|done].
    simpl.
    by destruct (updateDayProgress_frame (day_id d) st1)
      as (_ & -> & -> & _).
Qed.

Lemma store_item_diary_untouched section pid index p dayId items x x' st :
  lookup_item pid index st = Some (p, dayId, items, x) →
  diary_untouched section st →
  diary_untouched section (store_item pid index p dayId items x' st).
Proof.
  intros Hl Hun Hnone. simpl in *. apply Hun.
  destruct (decide (pid = "diary")) as [->|Hne].
  - by rewrite lookup_insert_eq in Hnone.
  - by rewrite lookup_insert_ne in Hnone.
Qed.

Lemma reachable_diary_untouched itinerary section ls url_dia st :
  reachable itinerary section ls url_dia st → diary_untouched section st.
Proof.
  induction 1 as [|e st _ IH].
  - unfold main, restoreLastDay. apply openTab_diary_untouched.
    intros _. rewrite main_diary_detached.
    by destruct (buildTabs_frame itinerary section
                   (loaded_page section ls url_dia))
      as (_ & -> & -> & _).
  - destruct e as [id|pid index|pid index answer|key target|theme];
      cbn [step].
    + by apply openTab_diary_untouched.
    + destruct (lookup_item pid index st) as [[[[p dayId] items] x]|] eqn:Hl;
        [|by unfold doneBtn_click; rewrite Hl].
      rewrite (doneBtn_click_eq _ _ _ _ _ _ _ Hl).
      pose proof (store_item_diary_untouched section _ _ _ _ _ _
                    (toggled_item x) _ Hl IH) as Hstored.
      unfold diary_untouched.
      by destruct (updateDayProgress_frame dayId
                     (store_item pid index p dayId items (toggled_item x) st))
        as (_ & -> & -> & -> & _).
    + destruct (lookup_item pid index st) as [[[[p dayId] items] x]|] eqn:Hl;
        [|by unfold noteBtn_click; rewrite Hl].
      destruct answer as [note|]; [|by unfold noteBtn_click; rewrite Hl].
      rewrite (noteBtn_click_eq _ _ _ _ _ _ _ _ Hl).
      pose proof (store_item_diary_untouched section _ _ _ _ _ _
                    (noted_item x note) _ Hl IH) as Hstored.
      intros Hnone.
      destruct (updateDiary_tabPanels
                  (store_item pid index p dayId items (noted_item x note) st)
                  "diary") as (f & Hf & _).
      rewrite Hf in Hnone.
      assert (Hnone' : tabPanels
                (store_item pid index p dayId items (noted_item x note) st)
                !! "diary" = None).
      { by destruct (tabPanels _ !! "diary"). }
      destruct (Hstored Hnone') as [Hsec Hatt].
      by rewrite updateDiary_detached.
    + destruct (handleTabKeyNav_cases key target st) as [->|(id & fo & ->)];
        [done|].
      by apply openTab_diary_untouched.
    + done.
Qed.

(** X11: from the start of the page until the diary is opened for the
    first time, the diary section is out of the document and exactly as
    the static page had it, whatever notes the store holds and whatever
    notes are written: the call of [updateDiary] at the start and those of
    the note handler return at once.  The first activation of the diary
    takes the section in as it is; the message that no note is recorded
    goes by the class [hidden] of the static section. *)
Theorem diary_stale_until_opened itinerary section ls url_dia st :
  reachable itinerary section ls url_dia st →
  tabPanels st !! "diary" = None →
  diarySection st = section
  ∧ diary_attached st = false
  ∧ updateDiary st = st
  ∧ diarySection (openTab "diary" st) = drop_card <$> section
  ∧ tabPanels (openTab "diary" st) !! "diary"
    = Some {| panel_hidden := false; panel_active := true;
              body := DiaryBody (from_option section_hidden true section) |}.
Proof.
  intros Hreach Hnone.
  destruct (reachable_diary_untouched _ _ _ _ _ Hreach Hnone) as [Hsec Hatt].
  split; [done|]. split; [done|].
  split; [by apply updateDiary_detached|]. split.
  - rewrite openTab_eq.
    cbn [diarySection set_dia set_localStorage set_tabPanels].
    unfold panel_ensured. simpl. rewrite Hnone.
    unfold createPanel. rewrite decide_True by done. simpl.
    rewrite Hsec. by destruct section.
  - rewrite openTab_lookup, Hnone. rewrite decide_True by done.
    unfold createPanel. rewrite decide_True by done. simpl.
    rewrite lookup_insert_eq. simpl. rewrite Hsec.
    unfold show_panel. by rewrite decide_True.
Qed.

(** ** The buttons to the previous and the next day *)

Lemma numbered_lookup (itinerary : list day) i d :
  day_id <$> itinerary = N.of_nat <$> seq 1 (length itinerary) →
  itinerary !! i = Some d → day_id d = N.of_nat (S i).
Proof.
  intros Hnum Hi.
  assert (Hid : (day_id <$> itinerary) !! i = Some (day_id d)).
  { by rewrite list_lookup_fmap, Hi. }
  rewrite Hnum, list_lookup_fmap in Hid.
  destruct (seq 1 (length itinerary) !! i) as [k|] eqn:Hk; [|done].
  apply lookup_seq in Hk as [-> _]. simpl in Hid. congruence.
Qed.

Lemma numbered_NoDup (itinerary : list day) :
  day_id <$> itinerary = N.of_nat <$> seq 1 (length itinerary) →
  NoDup (day_id <$> itinerary).
Proof.
  intros ->. apply NoDup_fmap; [apply _|apply NoDup_seq].
Qed.

(** X12: on a page whose days are numbered 1, 2, ... in the order of the
    itinerary, the panel of a day has the button to the previous day
    exactly when the day is not the first and the button to the next day
    exactly when it is not the last; the id each hands to [openTab] is that
    of the neighbouring day, and the click selects the tab of that day. *)
Theorem day_buttons_adjacent itinerary section ls url_dia st i d :
  day_id <$> itinerary = N.of_nat <$> seq 1 (length itinerary) →
  reachable itinerary section ls url_dia st →
  itinerary !! i = Some d →
  prev_day_target d
  = match i with
    | 0 => None
    | S j => (λ d', toString (day_id d')) <$> itinerary !! j
    end
  ∧ next_day_target itinerary d
    = (λ d', toString (day_id d')) <$> itinerary !! S i
  ∧ (0 < i → selects (pred i) (prevBtn_click d st))
  ∧ (S i < length itinerary → selects (S i) (nextBtn_click d st)).
Proof.
  intros Hnum Hreach Hi.
  pose proof (numbered_lookup _ _ _ Hnum Hi) as Hd.
  pose proof (numbered_NoDup _ Hnum) as Hnd.
  destruct (tab_list_ids _ _ _ _ _ Hnd Hreach) as [Hids Hnd'].
  destruct (reachable_section _ _ _ _ _ Hreach) as [Hit _].
  assert (Hsel : ∀ j d', itinerary !! j = Some d' →
            selects j (openTab (toString (day_id d')) st)).
  { intros j d' Hj.
    assert (Hj' : (getIdFromTab <$> tabs st) !! j
                  = Some (toString (day_id d'))).
    { rewrite Hids. unfold tab_ids. rewrite lookup_app_l.
      - by rewrite list_lookup_fmap, Hj.
      - rewrite length_fmap. by eapply lookup_lt_Some. }
    rewrite list_lookup_fmap in Hj'.
    destruct (tabs st !! j) as [t|] eqn:Ht; [|done].
    injection Hj' as <-.
    destruct (openTab_selects (focused st) st j t Hnd' Ht) as [_ Hsel].
    by destruct st. }
  assert (Hprev : prev_day_target d
            = match i with
              | 0 => None
              | S j => (λ d', toString (day_id d')) <$> itinerary !! j
              end).
  { unfold prev_day_target. destruct i as [|j].
    - by rewrite bool_decide_eq_false_2 by (rewrite Hd; lia).
    - rewrite bool_decide_eq_true_2 by (rewrite Hd; lia).
      destruct (lookup_lt_is_Some_2 itinerary j) as [d' Hj].
      { apply lookup_lt_Some in Hi. lia. }
      rewrite Hj. simpl. rewrite (numbered_lookup _ _ _ Hnum Hj), Hd.
      do 2 f_equal. lia. }
  assert (Hnext : next_day_target itinerary d
            = (λ d', toString (day_id d')) <$> itinerary !! S i).
  { unfold next_day_target.
    destruct (itinerary !! S i) as [d'|] eqn:Hj.
    - rewrite bool_decide_eq_true_2.
      + simpl. rewrite (numbered_lookup _ _ _ Hnum Hj), Hd.
        do 2 f_equal. lia.
      + apply lookup_lt_Some in Hj. rewrite Hd. lia.
    - rewrite bool_decide_eq_false_2; [done|].
      apply lookup_ge_None in Hj. rewrite Hd. lia. }
  split; [done|]. split; [done|]. split.
  - intros Hpos. unfold prevBtn_click. rewrite Hprev.
    destruct i as [|j]; [lia|]. simpl.
    destruct (itinerary !! j) as [d'|] eqn:Hj.
    + simpl. by apply Hsel.
    + apply lookup_ge_None in Hj. apply lookup_lt_Some in Hi. lia.
  - intros Hlast. unfold nextBtn_click. rewrite Hit, Hnext.
    destruct (lookup_lt_is_Some_2 itinerary (S i) Hlast) as [d' Hj].
    rewrite Hj. simpl. by apply Hsel.
Qed.

(** ** The diary once it is open *)


(** ** Items whose stored value is not an object *)




(** ** Panels by their keys *)

(** X15: in every state of the page the object [tabPanels] holds under
    the key [diary] the panel of the diary and under any other key the
    panel of the day of the itinerary that has that key as its id, with
    exactly one list item per activity of the day: no panel is stored for
    an id that is no day, and none under a key that is not its own. *)
Theorem panels_match_keys itinerary section ls url_dia st pid p :
  reachable itinerary section ls url_dia st →
  tabPanels st !! pid = Some p →
  (pid = "diary" ∧ ∃ msg, body p = DiaryBody msg)
  ∨ (pid ≠ "diary"
     ∧ ∃ d items,
         find_day itinerary pid = Some d
         ∧ pid = toString (day_id d)
         ∧ body p = DayBody (day_id d) items
         ∧ length items = length (schedule d)).
Proof.
  intros Hreach Hp.
  destruct (reachable_panels_inv _ _ _ _ _ Hreach) as [_ Hinv].
  pose proof (Hinv _ _ Hp) as Hpanel. unfold panel_inv in Hpanel.
  case_decide as Hpid; [by left|]. right. split; [done|].
  destruct Hpanel as (d & items & Hd & Hb & Hlen & _).
  exists d, items. split; [done|]. split; [|done].
  by apply find_day_Some in Hd as [_ <-].
Qed.

End MoreFacts.

(** * The countdown *)

Module CountdownFacts.
Import Countdown.

Local Open Scope Z_scope.

(** X16: while the trip has not started, the three numbers of the
    countdown split the time left to the full minute: the hours are below
    24, the minutes below 60, no number is negative, and days, hours and
    minutes add up to the time left less a remainder of under a minute. *)
Theorem countdown_parts (diff : Z) :
  0 < diff →
  let d := days_left diff in
  let h := hours_left diff in
  let m := minutes_left diff in
  0 ≤ d ∧ 0 ≤ h < 24 ∧ 0 ≤ m < 60
  ∧ d * day_ms + h * hour_ms + m * minute_ms ≤ diff
  ∧ diff < d * day_ms + h * hour_ms + m * minute_ms + minute_ms.
Proof.
  intros Hpos. cbv zeta.
  unfold days_left, hours_left, minutes_left, day_ms, hour_ms, minute_ms.
  rewrite !Z.rem_mod_nonneg by lia.
  Z.to_euclidean_division_equations. lia.
Qed.

Lemma toString_first (n : N) :
  ∃ c r, toString n = String c r ∧ is_digit c = true.
Proof.
  pose proof (toString_nonempty n) as Hne.
  pose proof (toString_digits n) as Hdig.
  destruct (toString n) as [|c r]; [done|].
  exists c, r. split; [done|]. simpl in Hdig. by destruct (is_digit c).
Qed.

Lemma foldl_append_first (c : ascii) (r : string) (parts : list string) :
  ∃ r', foldl (λ s q, s +:+ " " +:+ q) (String c r) parts = String c r'.
Proof.
  revert r. induction parts as [|q parts IH]; intros r; [by eexists|].
  simpl. apply IH.
Qed.

Lemma join_first (c : ascii) (r : string) (parts : list string) :
  ∃ r', join (String c r :: parts) = String c r'.
Proof. apply foldl_append_first. Qed.

Lemma number_part_first (z : Z) (suffix : string) :
  ∃ c r, number_text z +:+ suffix = String c r ∧ is_digit c = true.
Proof.
  destruct (toString_first (Z.to_N z)) as (c & r & Heq & Hc).
  exists c, (r +:+ suffix). unfold number_text. by rewrite Heq.
Qed.

(** X17: the countdown shows the message that the trip has started
    exactly from the instant of the departure on; before that the text
    begins with a number, and a page without the element [#countdown] is
    left alone. *)
Theorem countdown_started (now : Z) (old : string) :
  (update now (Some old) = Some started ↔ target ≤ now)
  ∧ (now < target →
     ∃ c r, update now (Some old) = Some (String c r) ∧ is_digit c = true)
  ∧ initCountdown now None = None.
Proof.
  assert (Hfirst : now < target →
    ∃ c r, update now (Some old) = Some (String c r) ∧ is_digit c = true).
  { intros Hnow. unfold update, update_text.
    rewrite bool_decide_eq_false_2 by lia. cbv zeta.
    destruct (bool_decide (0 < days_left (target - now))).
    - destruct (number_part_first (days_left (target - now))
                  (" " +:+ day_word (days_left (target - now))))
        as (c & r & -> & Hc).
      simpl app.
      match goal with
      | |- context [join (String c r :: ?l)] =>
          destruct (join_first c r l) as [r' ->]
      end.
      by exists c, r'.
    - destruct (bool_decide (0 < hours_left (target - now))).
      + destruct (number_part_first (hours_left (target - now)) "h")
          as (c & r & -> & Hc).
        simpl app.
        match goal with
        | |- context [join (String c r :: ?l)] =>
            destruct (join_first c r l) as [r' ->]
        end.
        by exists c, r'.
      + destruct (number_part_first (minutes_left (target - now)) "min")
          as (c & r & -> & Hc).
        simpl. by exists c, r. }
  split; [|split; [done|done]].
  split.
  - intros Hstarted. destruct (decide (target ≤ now)) as [|Hlt]; [done|].
    destruct Hfirst as (c & r & Heq & Hc); [lia|].
    rewrite Heq in Hstarted. injection Hstarted as -> _. done.
  - intros Hnow. unfold update, update_text.
    by rewrite bool_decide_eq_true_2 by lia.
Qed.

(** X18: the countdown of the first version of the page counts the days
    that have begun: while the trip has not started it shows at least one
    day, the least number of days that covers the time left, which is the
    number of full days of the later countdown, plus one unless the time
    left is a whole number of days. *)
Theorem days_begun_ceiling (diff : Z) :
  0 < diff →
  1 ≤ days_begun diff
  ∧ (days_begun diff - 1) * day_ms < diff
  ∧ diff ≤ days_begun diff * day_ms
  ∧ days_begun diff
    = days_left diff + (if decide (diff `rem` day_ms = 0) then 0 else 1).
Proof.
  intros Hpos. unfold days_begun, days_left, day_ms.
  rewrite Z.rem_mod_nonneg by lia.
  case_decide; Z.to_euclidean_division_equations; lia.
Qed.

End CountdownFacts.

(** * The theme *)

Module ThemeFacts.
Import Theme.

(** X19: a click on the theme button switches the theme and stores the
    name of the theme it switches to; the icon and the stored name agree
    with the class of the document.  A later visit starts in the stored
    theme, whatever the system preference and whatever class the static
    document has; a second click switches back. *)
Theorem theme_choice_persists (p : page) (prefersDark dark_in_document : bool) :
  is_Some (toggleBtn p) →
  let chosen := toggle_click p in
  theme_dark chosen = negb (theme_dark p)
  ∧ storage chosen !! "theme"
    = Some (if theme_dark chosen then "dark" else "light")
  ∧ toggleBtn chosen = Some (if theme_dark chosen then "☀️" else "🌙")
  ∧ theme_dark (initTheme prefersDark (revisit dark_in_document chosen))
    = theme_dark chosen
  ∧ theme_dark (toggle_click chosen) = theme_dark p.
Proof.
  intros [btn Hbtn]. cbv zeta.
  unfold initTheme, revisit, toggle_click, applyTheme. rewrite Hbtn.
  destruct (theme_dark p); simpl; rewrite ?Hbtn; simpl;
    rewrite ?lookup_insert_eq; simpl; done.
Qed.

(** X20: at the start of a page that has the theme button, the dark theme
    is applied exactly when the stored theme is [dark], or nothing (or the
    empty text) is stored and the system prefers dark; any other stored
    text gives the light theme.  On a page without the button nothing is
    applied, a stored theme included.  The start never writes the
    store. *)
Theorem initial_theme_cases (p : page) (prefersDark : bool) :
  (toggleBtn p = None → initTheme prefersDark p = p)
  ∧ (is_Some (toggleBtn p) →
     theme_dark (initTheme prefersDark p) = true
     ↔ storage p !! "theme" = Some "dark"
       ∨ ((storage p !! "theme" = None ∨ storage p !! "theme" = Some "")
          ∧ prefersDark = true))
  ∧ storage (initTheme prefersDark p) = storage p.
Proof.
  unfold initTheme, applyTheme, initial_theme.
  split; [by intros ->|]. split.
  - intros [btn ->].
    destruct (storage p !! "theme") as [s|] eqn:Hs.
    + case_bool_decide as Hne.
      * case_decide as Hdark; simpl.
        -- subst s. split; [by left|done].
        -- split; [done|]. intros [[= ?]|[[?|[= ?]] _]]; done.
      * subst s.
        destruct prefersDark; simpl.
        -- split; [|done]. intros _. right. split; [by right|done].
        -- split; [done|]. intros [[= ?]|[_ ?]]; done.
    + destruct prefersDark; simpl.
      * split; [|done]. intros _. right. split; [by left|done].
      * split; [done|]. intros [?|[_ ?]]; done.
  - destruct (toggleBtn p); [|done]. by case_decide.
Qed.

End ThemeFacts.

(** * The page without tabs *)

Module LegacyFacts.

(** ** Collapsing cards *)

Lemma collapsible_toggled (c : Legacy.card_view) :
  Legacy.collapsible
    {| Legacy.has_header := Legacy.has_header c;
       Legacy.schedule_hidden := negb <$> Legacy.schedule_hidden c |}
  = Legacy.collapsible c.
Proof.
  unfold Legacy.collapsible. simpl. f_equal.
  apply bool_decide_ext. by rewrite fmap_is_Some.
Qed.

(** X21: when the older page starts, the first card is expanded and
    every other card that has a header and a schedule is collapsed; a card
    without a header keeps the class its schedule has in the document.  A
    click on the header of a card toggles the schedule of that card and of
    no other, and two clicks put it back. *)
Theorem cards_collapse (cards : list Legacy.card_view) (i : nat)
    (c : Legacy.card_view) :
  cards !! i = Some c →
  (∃ c', Legacy.collapse_cards cards !! i = Some c'
         ∧ Legacy.has_header c' = Legacy.has_header c
         ∧ Legacy.schedule_hidden c'
           = if decide (i = 0)
             then (λ _, false) <$> Legacy.schedule_hidden c
             else if Legacy.collapsible c then Some true
                  else Legacy.schedule_hidden c)
  ∧ Legacy.header_click i (Legacy.header_click i cards) = cards
  ∧ (∀ j, j ≠ i → Legacy.header_click i cards !! j = cards !! j)
  ∧ Legacy.header_click i cards !! i
    = Some (if Legacy.collapsible c
            then {| Legacy.has_header := Legacy.has_header c;
                    Legacy.schedule_hidden
                    := negb <$> Legacy.schedule_hidden c |}
            else c).
Proof.
  intros Hi. split; [|split; [|split]].
  - unfold Legacy.collapse_cards.
    destruct cards as [|c0 rest]; [done|]. destruct i as [|j].
    + injection Hi as ->. simpl. eexists. split; [done|].
      unfold Legacy.collapse_card, Legacy.set_schedule_hidden.
      destruct (Legacy.collapsible c); simpl; [|done].
      split; [done|]. by destruct (Legacy.schedule_hidden c).
    + simpl in *. rewrite list_lookup_fmap, Hi. simpl.
      eexists. split; [done|].
      unfold Legacy.collapse_card, Legacy.set_schedule_hidden.
      destruct (Legacy.collapsible c) eqn:Hc; simpl; [|done].
      split; [done|]. unfold Legacy.collapsible in Hc.
      apply andb_true_iff in Hc as [_ Hs].
      apply bool_decide_eq_true in Hs as [b ->]. done.
  - unfold Legacy.header_click. rewrite list_alter_alter_eq.
    apply list_alter_id. intros c0. simpl.
    destruct (Legacy.collapsible c0) eqn:Hc; [|by rewrite Hc].
    rewrite collapsible_toggled, Hc. destruct c0 as [h [b|]]; simpl; [|done].
    by rewrite negb_involutive.
  - intros j Hj. unfold Legacy.header_click.
    by rewrite list_lookup_alter_ne.
  - unfold Legacy.header_click. by rewrite list_lookup_alter_eq, Hi.
Qed.

(** ** The navigation bar *)

Lemma observe_entry_texts items e :
  Legacy.nav_text <$> Legacy.observe_entry items e
  = Legacy.nav_text <$> items.
Proof.
  unfold Legacy.observe_entry.
  destruct (items !! Legacy.entry_target e) as [it|] eqn:Hit; [|done].
  destruct (Legacy.isIntersecting e); [|done].
  apply list_eq. intros k. rewrite !list_lookup_fmap.
  destruct (decide (k = Legacy.entry_target e)) as [->|Hk].
  - rewrite list_lookup_alter_eq, list_lookup_fmap, Hit. done.
  - rewrite list_lookup_alter_ne by done. rewrite list_lookup_fmap.
    by destruct (items !! k).
Qed.

Lemma observer_callback_texts entries items :
  Legacy.nav_text <$> Legacy.observer_callback entries items
  = Legacy.nav_text <$> items.
Proof.
  unfold Legacy.observer_callback. revert items.
  induction entries as [|e entries IH]; intros items; [done|].
  simpl. by rewrite IH, observe_entry_texts.
Qed.

(** X22: the buttons of the navigation bar start out inactive, and the
    callback of the observer never changes their texts.  After a batch of
    entries, if some entry of an observed element is intersecting, exactly
    one button is active, the one of the last such entry; otherwise the
    buttons are as they were. *)
Theorem observer_marks_last (entries : list Legacy.observer_entry)
    (items : list Legacy.nav_item) :
  let seen (e : Legacy.observer_entry) :=
    Legacy.isIntersecting e = true ∧ Legacy.entry_target e < length items in
  match last (filter seen entries) with
  | Some e =>
      ∀ k it, Legacy.observer_callback entries items !! k = Some it →
              Legacy.nav_active it = bool_decide (k = Legacy.entry_target e)
  | None => Legacy.observer_callback entries items = items
  end
  ∧ Legacy.nav_text <$> Legacy.observer_callback entries items
    = Legacy.nav_text <$> items
  ∧ ∀ nav days diary it,
      it ∈ Legacy.initDayNavigation nav days diary →
      Legacy.nav_active it = false.
Proof.
  cbv zeta. split; [|split; [apply observer_callback_texts|]].
  - induction entries as [|e entries IH] using rev_ind; [done|].
    unfold Legacy.observer_callback in *. rewrite foldl_snoc, filter_app.
    set (items' := foldl Legacy.observe_entry items entries) in *.
    assert (Hlen : length items' = length items).
    { rewrite <- (length_fmap Legacy.nav_text items').
      rewrite <- (length_fmap Legacy.nav_text items).
      f_equal. apply observer_callback_texts. }
    destruct (decide (Legacy.isIntersecting e = true
                      ∧ Legacy.entry_target e < length items))
      as [[Hint Hlt]|Hno].
    + rewrite filter_cons_True by done. rewrite filter_nil, last_snoc.
      intros k it. unfold Legacy.observe_entry.
      destruct (lookup_lt_is_Some_2 items' (Legacy.entry_target e))
        as [it0 Hit0]; [lia|].
      rewrite Hit0, Hint.
      destruct (decide (k = Legacy.entry_target e)) as [->|Hk].
      * rewrite list_lookup_alter_eq, list_lookup_fmap, Hit0. simpl.
        intros [= <-]. simpl. by rewrite bool_decide_eq_true_2.
      * rewrite list_lookup_alter_ne by done. rewrite list_lookup_fmap.
        destruct (items' !! k); [|done]. simpl. intros [= <-]. simpl.
        by rewrite bool_decide_eq_false_2.
    + rewrite filter_cons_False by done. rewrite filter_nil, app_nil_r.
      assert (Hsame : Legacy.observe_entry items' e = items').
      { unfold Legacy.observe_entry.
        destruct (items' !! Legacy.entry_target e) as [it0|] eqn:Hit0;
          [|done].
        destruct (Legacy.isIntersecting e) eqn:Hint; [|done].
        apply lookup_lt_Some in Hit0. destruct Hno. split; [done|lia]. }
      by rewrite Hsame.
  - intros nav days diary it. unfold Legacy.initDayNavigation.
    destruct (negb nav || bool_decide (length days = 0)).
    + by intros ?%elem_of_nil.
    + intros [Hit|Hit]%elem_of_app.
      * apply list_elem_of_fmap in Hit as (d & -> & _). done.
      * destruct diary; [|by apply elem_of_nil in Hit].
        by apply list_elem_of_singleton in Hit as ->.
Qed.

(** ** List items and the diary *)

Section Facts.

Context `{JSONLaws} `{Trim}.

Implicit Types (ls : gmap string string) (st : Legacy.state).


















(** ** Cards and the naming scheme of the diary *)

Lemma string_app_assoc (a b c : string) : (a +:+ b) +:+ c = a +:+ b +:+ c.
Proof.
  induction a as [|x a IH]; [done|].
  change ((String x a +:+ b) +:+ c) with (String x ((a +:+ b) +:+ c)).
  change (String x a +:+ b +:+ c) with (String x (a +:+ b +:+ c)).
  by rewrite IH.
Qed.

Lemma all_digits_app (a b : string) :
  all_digits (a +:+ b) = all_digits a && all_digits b.
Proof.
  induction a as [|x a IH]; [done|]. simpl. rewrite IH.
  by destruct (is_digit x).
Qed.

Lemma span_digits_stop (c : ascii) (r : string) :
  is_digit c = false → span_digits (String c r) = ("", String c r).
Proof. intros Hc. simpl. by rewrite Hc. Qed.

Lemma span_digits_cases (d : string) :
  all_digits d = true
  ∨ (all_digits d = false
     ∧ ∃ ds c r, d = ds +:+ String c r
                 ∧ all_digits ds = true ∧ is_digit c = false).
Proof.
  induction d as [|x d IH]; [by left|].
  destruct (is_digit x) eqn:Hx.
  - destruct IH as [Hall|(Hall & ds & c & r & -> & Hds & Hc)].
    + left. simpl. by rewrite Hx.
    + right. split; [simpl; by rewrite Hx|].
      exists (String x ds), c, r. split; [done|]. split; [|done].
      simpl. by rewrite Hx.
  - right. split; [simpl; by rewrite Hx|]. by exists "", x, d.
Qed.

(** What follows a prefix of digits that is cut short by a character that
    is no digit is not the empty string. *)
Lemma span_digits_rest (s : string) c (r : string) :
  is_digit c = false →
  (span_digits (s +:+ String c r)).2 ≠ "".
Proof.
  intros Hc. induction s as [|x s IH].
  - simpl. by rewrite Hc.
  - simpl. destruct (is_digit x); [|done].
    destruct (span_digits (s +:+ String c r)) as [ds t]. done.
Qed.

Lemma strip_prefix_app_cases (p r tail r3 : string) :
  strip_prefix p (r +:+ tail) = Some r3 →
  (∃ r', r = p +:+ r' ∧ r3 = r' +:+ tail)
  ∨ (∃ p2, p = r +:+ p2 ∧ p2 ≠ "" ∧ strip_prefix p2 tail = Some r3).
Proof.
  revert r. induction p as [|a p IH]; intros r Hs.
  - left. exists r. simpl in Hs. by injection Hs as <-.
  - destruct r as [|b r].
    + right. by exists (String a p).
    + change (String b r +:+ tail) with (String b (r +:+ tail)) in Hs.
      simpl in Hs. case_decide as Hab; [|done]. subst b.
      destruct (IH r Hs) as [(r' & -> & ->)|(p2 & -> & Hp2 & Hs')].
      * left. by exists r'.
      * right. by exists p2.
Qed.

Lemma string_cons_app_inv (a : ascii) (s r tail : string) :
  String a s = r +:+ tail →
  (r = "" ∧ tail = String a s)
  ∨ ∃ r', r = String a r' ∧ s = r' +:+ tail.
Proof.
  destruct r as [|b r]; [by left|].
  change (String b r +:+ tail) with (String b (r +:+ tail)).
  intros [= -> ->]. right. by exists r.
Qed.

(** The only place where the text [-item-] can be cut so that what
    follows the cut begins with a dash is before its last character. *)
Lemma item_infix_cut (r p2 : string) :
  "-item-" = r +:+ String "-" p2 → r ≠ "" → r = "-item" ∧ p2 = "".
Proof.
  intros Heq Hr.
  repeat
    (apply string_cons_app_inv in Heq as [[-> Heq]|(r' & -> & Heq)];
     [done || discriminate Heq || (by injection Heq as <-)|];
     try clear Hr; rename r' into r).
  destruct r; discriminate Heq.
Qed.

Lemma match_item_key_of (d : string) (i : nat) :
  match_item_key ("day-" +:+ d +:+ "-item-" +:+ toString (N.of_nat i))
  = if all_digits d && bool_decide (d ≠ "")
    then Some (d, toString (N.of_nat i)) else None.
Proof.
  set (I := toString (N.of_nat i)).
  assert (HI : span_digits I = (I, "")).
  { pose proof (span_digits_app I "" (toString_digits _) eq_refl) as Hspan.
    by rewrite append_empty_r in Hspan. }
  unfold match_item_key. rewrite strip_prefix_app. cbn [mbind option_bind].
  destruct (span_digits_cases d) as [Hall|(Hall & ds & c & r & -> & Hds & Hc)].
  - rewrite Hall. rewrite (span_digits_app d ("-item-" +:+ I)) by done.
    case_decide as Hd.
    + subst d. by rewrite bool_decide_eq_false_2 by auto.
    + rewrite bool_decide_eq_true_2 by done. rewrite strip_prefix_app.
      cbn [mbind option_bind]. rewrite HI.
      rewrite decide_False by apply toString_nonempty.
      by rewrite decide_True.
  - rewrite Hall. cbn [andb].
    rewrite string_app_assoc.
    rewrite (span_digits_app ds (String c r +:+ "-item-" +:+ I));
      [|done|by apply span_digits_stop].
    case_decide; [done|].
    destruct (strip_prefix "-item-" (String c r +:+ "-item-" +:+ I))
      as [r3|] eqn:Hs; [|done].
    cbn [mbind option_bind].
    apply strip_prefix_app_cases in Hs
      as [(r' & Hr & ->)|(p2 & Hp & Hp2 & Hs)].
    + pose proof (span_digits_rest r' "-"%char ("item-" +:+ I) eq_refl)
        as Hne.
      change (r' +:+ String "-" ("item-" +:+ I))
        with (r' +:+ "-item-" +:+ I) in Hne.
      destruct (span_digits (r' +:+ "-item-" +:+ I)) as [d0 r4].
      case_decide; [done|]. by rewrite decide_False.
    + destruct p2 as [|y p2]; [done|].
      change ("-item-" +:+ I) with (String "-" ("item-" +:+ I)) in Hs.
      simpl in Hs. case_decide as Hy; [|done]. subst y.
      apply item_infix_cut in Hp as [_ ->]; [|done].
      simpl in Hs. injection Hs as <-.
      change ("item-" +:+ I) with (String "i" ("tem-" +:+ I)).
      by rewrite span_digits_stop.
Qed.

(** X25: on the older page a note reaches the diary only from a card
    whose attribute [data-day] is a non-empty string of digits, and is
    then listed under the day that the digits name: the key of an item of
    any other card, a card without the attribute included, never matches
    the pattern of the diary, whatever is stored under it. *)
Theorem diary_lists_numbered_cards_only (d : option string) (i : nat) ls :
  key_day (Legacy.item_key_of d i)
  = (if all_digits (Legacy.day_text d)
        && bool_decide (Legacy.day_text d ≠ "")
     then Some (parseInt (Legacy.day_text d)) else None)
  ∧ (in_diary ls (Legacy.item_key_of d i) →
     all_digits (Legacy.day_text d) = true ∧ Legacy.day_text d ≠ "")
  ∧ (d = None → ¬ in_diary ls (Legacy.item_key_of d i)).
Proof.
  assert (Hkey : key_day (Legacy.item_key_of d i)
    = if all_digits (Legacy.day_text d)
         && bool_decide (Legacy.day_text d ≠ "")
      then Some (parseInt (Legacy.day_text d)) else None).
  { unfold key_day, Legacy.item_key_of. rewrite match_item_key_of.
    by destruct (all_digits (Legacy.day_text d)
                 && bool_decide (Legacy.day_text d ≠ "")). }
  split; [done|]. split.
  - intros [Hday _]. rewrite Hkey in Hday.
    destruct (all_digits (Legacy.day_text d)) eqn:Hall;
      [|by destruct Hday].
    split; [done|]. case_bool_decide; [done|]. by destruct Hday.
  - intros -> [Hday _]. rewrite Hkey in Hday. by destruct Hday.
Qed.


End Facts.

End LegacyFacts.

(** * The concrete browser satisfies the law of JSON *)

Module SampleFacts.
Import Sample SampleBrowser.

Lemma json_size_elem (l : list json) (x : json) :
  x ∈ l → json_size x < json_size (JArr l).
Proof.
  simpl. induction 1 as [x l|x y l _ IH]; simpl; lia.
Qed.

Lemma json_size_lookup (m : gmap string json) (k : string) (x : json) :
  m !! k = Some x → json_size x < json_size (JObj m).
Proof.
  simpl. revert k x. induction m as [|i y m Hi Hfirst IH] using map_first_key_ind.
  { intros k x. by rewrite lookup_empty. }
  intros k x Hk. rewrite map_fold_insert_first_key by done.
  destruct (decide (i = k)) as [->|Hne].
  - rewrite lookup_insert_eq in Hk. simplify_eq. lia.
  - rewrite lookup_insert_ne in Hk by done. specialize (IH k x Hk). lia.
Qed.

Lemma of_to_tree (j : json) : of_tree (to_tree j) = j.
Proof.
  enough (Hsize : ∀ n j, json_size j < n → of_tree (to_tree j) = j)
    by (apply (Hsize (S (json_size j))); lia).
  clear j. induction n as [|n IH]; intros j Hj; [lia|].
  destruct j as [| | | |l|m]; try done.
  - simpl. f_equal. rewrite <- list_fmap_compose.
    rewrite <- (list_fmap_id l) at 2. apply list_fmap_ext.
    intros i x Hx. simpl. apply IH.
    apply list_elem_of_lookup_2, json_size_elem in Hx. lia.
  - simpl. f_equal. rewrite <- list_fmap_compose.
    erewrite (list_fmap_ext _ (prod_map id of_tree)); [|by intros i [k t] _].
    rewrite list_to_map_fmap, list_to_map_to_list, <- map_fmap_compose.
    rewrite <- (map_fmap_id m) at 2. apply map_fmap_ext.
    intros k x Hx. simpl. apply IH.
    apply json_size_lookup in Hx. lia.
Qed.

Lemma pos_of_string_of_pos (p : positive) :
  pos_of_string (string_of_pos p) = Some p.
Proof. induction p as [p IH|p IH|]; simpl; by rewrite ?IH. Qed.

#[export] Instance json_laws : JSONLaws.
Proof.
  constructor. intros j. simpl. unfold parse, stringify.
  rewrite pos_of_string_of_pos. simpl. rewrite decode_encode. simpl.
  by rewrite of_to_tree.
Qed.

End SampleFacts.

(** * The claims on the concrete browser *)

Module Witnesses.
Import Sample SampleBrowser SampleFacts.

Lemma trip_NoDup : NoDup (day_id <$> trip).
Proof. by apply (bool_decide_unpack _); vm_compute. Defined.

Lemma page1_reachable : reachable trip (Some diary0) store0 (Some "1") page1.
Proof. constructor. Defined.

Lemma page1_item :
  lookup_item "1" 0 page1 = Some (panel1, 1%N, items1, init_item store0 1 0).
Proof. vm_compute. reflexivity. Defined.





(** C7 on the item of the sample store whose value does not parse. *)
Lemma unreadable_item_default_witness :
  let key := item_key 2 0 in
  load_saved store0 key = Obj ∅
  ∧ load_saved store0 key = load_saved (delete key store0) key
  ∧ completed_of (load_saved store0 key) = false
  ∧ note_of (load_saved store0 key) = None
  ∧ init_item store0 2 0
    = {| li_completed := false; saved := Obj ∅; noteDisplay := NoteHidden |}
  ∧ (∀ completed, count_item store0 2 completed 0 = completed)
  ∧ persisted_completed store0 2 0 = false
  ∧ (∀ entries text, store0 !! key = Some text →
       collect_entry entries (key, text) = entries)
  ∧ ¬ in_diary store0 key.
Proof.
  apply (unreadable_item_default store0 2 0).
  right. exists "{not json". split; vm_compute; reflexivity.
Defined.

(** C8 on the sample page: the tab of the second day. *)
Lemma activation_exclusive_witness :
  selected_count (openTab "2" page1) = 1
  ∧ only_panel_shown "2" (openTab "2" page1).
Proof.
  apply (proj1 (activation_exclusive trip (Some diary0) store0 (Some "1")
                  page1 "2" trip_NoDup page1_reachable)).
  by apply (bool_decide_unpack _); vm_compute.
Defined.

(** C9 on the sample page, whose first tab of four is selected. *)
Lemma keyboard_navigation_witness :
  let lands key j :=
    focused (handleTabKeyNav key (Some 0) page1) = Some j
    ∧ selects j (handleTabKeyNav key (Some 0) page1) in
  lands "ArrowRight" 1 ∧ lands "ArrowLeft" 3
  ∧ lands "Home" 0 ∧ lands "End" 3
  ∧ focused (handleTabKeyNav "Enter" (Some 2) page1) = focused page1
  ∧ selects 2 (handleTabKeyNav "Enter" (Some 2) page1).
Proof.
  assert (Hnd : NoDup (getIdFromTab <$> tabs page1))
    by (by apply (bool_decide_unpack _); vm_compute).
  assert (Hcur : currentIndex (tabs page1) = Z.of_nat 0)
    by (vm_compute; reflexivity).
  destruct (keyboard_navigation page1 0 (Some 0) Hnd Hcur)
    as (Hright & Hleft & Hhome & Hend & _ & _ & Henter).
  cbv zeta. split_and!.
  - apply (Hright "ArrowRight"). by left.
  - apply (Hright "ArrowRight"). by left.
  - apply (Hleft "ArrowLeft"). by left.
  - apply (Hleft "ArrowLeft"). by left.
  - apply Hhome.
  - apply Hhome.
  - apply Hend.
  - apply Hend.
  - apply (Henter "Enter" 2); [by left|vm_compute; lia].
  - apply (Henter "Enter" 2); [by left|vm_compute; lia].
Defined.

(** C6 as stated fails on a URL whose parameter [dia] is present and
    empty, with day 2 persisted as the last day: the claim resolves the id
    to the (empty) value of the parameter, and would resolve it to the
    persisted day if an empty parameter counted as absent; the page
    activates the first day. *)
Lemma initial_activation_counterexample :
  ¬ initial_activation_as_stated trip (Some diary0) store0 (Some "")
  ∧ store0 !! "lastDay" = Some "2"
  ∧ dia page3 = Some "1"
  ∧ localStorage page3 !! "lastDay" = Some "1".
Proof.
  split; [|by vm_compute].
  unfold initial_activation_as_stated. intros Heq.
  apply (f_equal dia) in Heq. vm_compute in Heq. discriminate.
Qed.

(** C8 as stated fails for an id that matches no tab: no tab is selected
    and no panel is shown. *)
Lemma activation_exclusive_counterexample :
  ¬ activation_as_stated "99" page1
  ∧ selected_count (openTab "99" page1) = 0
  ∧ tabPanels (openTab "99" page1) !! "99" = None.
Proof.
  assert (Hcount : selected_count (openTab "99" page1) = 0)
    by (vm_compute; reflexivity).
  split; [|by split; [|vm_compute]].
  intros [Hone _]. rewrite Hcount in Hone. discriminate.
Qed.

End Witnesses.

(** * Runs of the page on the concrete browser *)

Module Runs.
Import Sample SampleBrowser.

Example item_key_text : item_key 12 3 = "day-12-item-3".
Proof. reflexivity. Qed.

Example match_item_key_groups :
  match_item_key "day-12-item-3" = Some ("12", "3")
  ∧ match_item_key "day-12-item-" = None
  ∧ match_item_key "day-12-item-3x" = None
  ∧ match_item_key "xday-12-item-3" = None
  ∧ parseInt "012" = 12%N.
Proof. by vm_compute. Qed.

Example label_texts :
  label_text (CountLabel 1 1 2) = "Dia 1 (1/2)"
  ∧ label_text (BaseLabel 3) = "Dia 3".
Proof. by vm_compute. Qed.

(** The sample store has one completed item of two on day 1 and an
    unreadable item on day 2; [lastDay] is overridden by the URL. *)
Example page1_labels :
  textContent <$> tabs page1
  = [CountLabel 1 1 2; CountLabel 2 0 1; BaseLabel 3; DiaryLabel]
  ∧ aria_selected <$> tabs page1 = [true; false; false; false]
  ∧ dia page1 = Some "1"
  ∧ localStorage page1 !! "lastDay" = Some "1".
Proof. by vm_compute. Qed.

(** Completing the second item of day 1 puts the check mark on its tab. *)
Example page1_done :
  textContent <$> tabs (step (ClickDone "1" 1) page1)
  = [DoneLabel 1; CountLabel 2 0 1; BaseLabel 3; DiaryLabel].
Proof. by vm_compute. Qed.

(** The diary opened for the first time still shows the list of the
    static page, although a note is stored; the next note, here on day 2,
    brings both notes in, sorted by day. *)
Example page2_diary :
  (diary_list <$> diarySection page2) = Some []
  ∧ (diary_list <$>
       diarySection
         (step (ClickNote "2" 0 (Some " cafe "))
            (step (Activate "diary") (step (Activate "2") page2))))
    = Some [ {| entry_day := 1; entry_note := Some (JStr "obelisk") |};
             {| entry_day := 2; entry_note := Some (JStr "cafe") |} ].
Proof. by vm_compute. Qed.

End Runs.

(** * The further properties on the sample pages *)

Module MoreWitnesses.
Import Sample SampleBrowser SampleFacts SamplePages Witnesses.



Lemma page4_reachable : reachable trip (Some diary0) store0 (Some "99") page4.
Proof. constructor. Defined.



Lemma trip_numbered : day_id <$> trip = N.of_nat <$> seq 1 (length trip).
Proof. reflexivity. Defined.

Lemma trip_second : trip !! 1 = Some day2.
Proof. reflexivity. Defined.




(** X3 on the first item of the first day of the sample page. *)
Lemma item_click_frame_witness :
  let done := doneBtn_click "1" 0 page1 in
  let noted := noteBtn_click "1" 0 (Some "cafe") page1 in
  (∀ key, key ≠ item_key 1 0 →
     localStorage done !! key = localStorage page1 !! key
     ∧ localStorage noted !! key = localStorage page1 !! key)
  ∧ dia done = dia page1 ∧ dia noted = dia page1
  ∧ aria_selected <$> tabs done = aria_selected <$> tabs page1
  ∧ tabs noted = tabs page1
  ∧ (∀ pid' q, pid' ≠ "1" → pid' ≠ "diary" →
       tabPanels page1 !! pid' = Some q →
       tabPanels done !! pid' = Some q ∧ tabPanels noted !! pid' = Some q).
Proof.
  exact (item_click_frame "1" 0 (Some "cafe") page1 panel1 1%N items1
           (init_item store0 1 0) page1_item).
Defined.

(** X4 on the sample page. *)
Lemma url_names_last_day_witness :
  dia page1 ≠ Some "diary"
  ∧ ∀ id, dia page1 = Some id → localStorage page1 !! "lastDay" = Some id.
Proof.
  exact (url_names_last_day trip (Some diary0) store0 (Some "1") page1
           page1_reachable).
Defined.

(** X7 on the sample page. *)
Lemma tab_list_fixed_witness :
  getIdFromTab <$> tabs page1 = tab_ids trip (Some diary0)
  ∧ length (tabs page1) = length trip + length (option_list (Some diary0)).
Proof.
  exact (tab_list_fixed trip (Some diary0) store0 (Some "1") page1
           trip_NoDup page1_reachable).
Defined.

(** X8 on the sample page opened at a URL that names no day. *)
Lemma arrows_without_selection_witness :
  let lands key j :=
    focused (handleTabKeyNav key None page4) = Some j
    ∧ selects j (handleTabKeyNav key None page4) in
  (∀ key, key ∈ ["ArrowRight"; "Right"] → lands key 0)
  ∧ (∀ key, key ∈ ["ArrowLeft"; "Left"] → lands key 2)
  ∧ lands "Home" 0
  ∧ lands "End" 3.
Proof.
  apply (arrows_without_selection page4 None).
  - by apply (bool_decide_unpack _); vm_compute.
  - reflexivity.
  - vm_compute. lia.
Defined.


(** X11 on the sample page, whose store holds a note while its static
    diary section is hidden and empty. *)
Lemma diary_stale_until_opened_witness :
  diarySection page1 = Some diary0
  ∧ diary_attached page1 = false
  ∧ updateDiary page1 = page1
  ∧ diarySection (openTab "diary" page1) = drop_card <$> Some diary0
  ∧ tabPanels (openTab "diary" page1) !! "diary"
    = Some {| panel_hidden := false; panel_active := true;
              body := DiaryBody (from_option section_hidden true
                                   (Some diary0)) |}.
Proof.
  apply (diary_stale_until_opened trip (Some diary0) store0 (Some "1") page1
           page1_reachable).
  vm_compute. reflexivity.
Defined.

(** X12 on the second day of the sample page. *)
Lemma day_buttons_adjacent_witness :
  prev_day_target day2 = Some "1"
  ∧ next_day_target trip day2 = Some "3"
  ∧ (0 < 1 → selects 0 (prevBtn_click day2 page1))
  ∧ (2 < length trip → selects 2 (nextBtn_click day2 page1)).
Proof.
  exact (day_buttons_adjacent trip (Some diary0) store0 (Some "1") page1 1
           day2 trip_numbered page1_reachable trip_second).
Defined.



(** X15 on the panel of the first day of the sample page. *)
Lemma panels_match_keys_witness :
  ("1" = "diary" ∧ ∃ msg, body panel1 = DiaryBody msg)
  ∨ ("1" ≠ "diary"
     ∧ ∃ d items,
         find_day trip "1" = Some d
         ∧ "1" = toString (day_id d)
         ∧ body panel1 = DayBody (day_id d) items
         ∧ length items = length (schedule d)).
Proof.
  apply (panels_match_keys trip (Some diary0) store0 (Some "1") page1 "1"
           panel1 page1_reachable).
  vm_compute. reflexivity.
Defined.

(** X16 with two days, three hours, five minutes and a second left. *)
Lemma countdown_parts_witness :
  let diff := 183901000%Z in
  let d := Countdown.days_left diff in
  let h := Countdown.hours_left diff in
  let m := Countdown.minutes_left diff in
  (0 ≤ d ∧ 0 ≤ h < 24 ∧ 0 ≤ m < 60
   ∧ d * Countdown.day_ms + h * Countdown.hour_ms + m * Countdown.minute_ms
     ≤ diff
   ∧ diff
     < d * Countdown.day_ms + h * Countdown.hour_ms + m * Countdown.minute_ms
       + Countdown.minute_ms)%Z.
Proof. apply (CountdownFacts.countdown_parts 183901000). lia. Defined.

(** X18 with a day and a second left. *)
Lemma days_begun_ceiling_witness :
  let diff := 86401000%Z in
  (1 ≤ Countdown.days_begun diff
   ∧ (Countdown.days_begun diff - 1) * Countdown.day_ms < diff
   ∧ diff ≤ Countdown.days_begun diff * Countdown.day_ms
   ∧ Countdown.days_begun diff
     = Countdown.days_left diff
       + (if decide (diff `rem` Countdown.day_ms = 0) then 0 else 1))%Z.
Proof. apply (CountdownFacts.days_begun_ceiling 86401000). lia. Defined.

(** X19 on a dark page, revisited on a system that prefers light. *)
Lemma theme_choice_persists_witness :
  let chosen := Theme.toggle_click dark_page in
  Theme.theme_dark chosen = negb (Theme.theme_dark dark_page)
  ∧ Theme.storage chosen !! "theme"
    = Some (if Theme.theme_dark chosen then "dark" else "light")
  ∧ Theme.toggleBtn chosen
    = Some (if Theme.theme_dark chosen then "☀️" else "🌙")
  ∧ Theme.theme_dark (Theme.initTheme false (Theme.revisit true chosen))
    = Theme.theme_dark chosen
  ∧ Theme.theme_dark (Theme.toggle_click chosen)
    = Theme.theme_dark dark_page.
Proof.
  apply (ThemeFacts.theme_choice_persists dark_page false true).
  by eexists.
Defined.

(** X21 on the second of three cards. *)
Lemma cards_collapse_witness :
  (∃ c', Legacy.collapse_cards views0 !! 1 = Some c'
         ∧ Legacy.has_header c' = true
         ∧ Legacy.schedule_hidden c' = Some true)
  ∧ Legacy.header_click 1 (Legacy.header_click 1 views0) = views0
  ∧ (∀ j, j ≠ 1 → Legacy.header_click 1 views0 !! j = views0 !! j)
  ∧ Legacy.header_click 1 views0 !! 1
    = Some {| Legacy.has_header := true;
              Legacy.schedule_hidden := Some true |}.
Proof.
  exact (LegacyFacts.cards_collapse views0 1
           {| Legacy.has_header := true;
              Legacy.schedule_hidden := Some false |} eq_refl).
Defined.




End MoreWitnesses.

(** * Runs of the rest of the script *)

Module MoreRuns.
Import Sample SampleBrowser SamplePages.

Example countdown_texts :
  Countdown.update_text 183901000 = "2 dias 3h 5min"
  ∧ Countdown.update_text 86400000 = "1 dia 0min"
  ∧ Countdown.update_text 59999 = "0min"
  ∧ Countdown.update_text 0 = "A viagem já começou!"
  ∧ Countdown.first_text 86400000 = "1 dia"
  ∧ Countdown.first_text 86400001 = "2 dias".
Proof. by vm_compute. Qed.

(** The instant of the departure: 20469 days and three hours after the
    epoch. *)
Example countdown_target :
  Countdown.target = (20469 * Countdown.day_ms + 3 * Countdown.hour_ms)%Z.
Proof. reflexivity. Qed.

(** A stored theme that is neither [dark] nor empty gives the light theme
    on a system that prefers dark. *)
Example theme_other_text :
  Theme.theme_dark
    (Theme.initTheme true
       {| Theme.theme_dark := true; Theme.toggleBtn := Some "";
          Theme.storage := {["theme" := "sepia"]} |}) = false.
Proof. reflexivity. Qed.

(** The keys of the items of a card without the attribute [data-day] and
    of a card whose attribute has a leading zero. *)
Example card_keys :
  Legacy.item_key_of None 0 = "day-undefined-item-0"
  ∧ key_day (Legacy.item_key_of None 0) = None
  ∧ Legacy.item_key_of (Some "01") 2 = "day-01-item-2"
  ∧ key_day (Legacy.item_key_of (Some "01") 2) = Some 1%N
  ∧ item_key 1 2 = "day-1-item-2".
Proof. by vm_compute. Qed.

(** The page opened at a URL that names no day: no tab is selected, no
    panel exists, and the id is persisted all the same. *)
Example page4_unselected :
  aria_selected <$> tabs page4 = [false; false; false; false]
  ∧ currentIndex (tabs page4) = (-1)%Z
  ∧ tabPanels page4 = ∅
  ∧ localStorage page4 !! "lastDay" = Some "99".
Proof. by vm_compute. Qed.

(** On a page whose days are numbered 5 and 6 the panel of day 5 has a
    button to a day 4 that does not exist and none to day 6. *)
Example buttons_of_unnumbered_days :
  let d5 := {| day_id := 5; day_title := ""; day_subtitle := "";
               day_highlight := None; schedule := [] |} in
  let d6 := {| day_id := 6; day_title := ""; day_subtitle := "";
               day_highlight := None; schedule := [] |} in
  prev_day_target d5 = Some "4" ∧ next_day_target [d5; d6] d5 = None.
Proof. by vm_compute. Qed.

End MoreRuns.
